(** * Anoverif benchmark suite: load scheduler and timing analysis

    A shallow embedding of [advanced_benchmark.py] and [analyze_timing.py].

    Numbers.  Python [int]s are [Z].  Python [float]s are modelled as exact
    rationals [Q]: every arithmetic operation is the exact one, IEEE rounding,
    infinities and NaN are not represented.  Equalities between computed
    floats are therefore stated with [==] (equality of rationals).
    [math.sqrt] cannot be computed inside [Q]; where the code calls it, it is
    a parameter [sqrt : Q -> Q] of the development.

    Effects.  [time.time()], [random.randint], [asyncio.sleep] and the HTTP
    transport are an explicit world: a stream of clock readings, a stream of
    random draws, a log of the delays slept, and an oracle that tells what
    the network does with a request.  Python exceptions are values of type
    [exn] carried by [outcome]; only exceptions derived from [Exception] are
    represented (task cancellation and keyboard interrupts are not transport
    outcomes and are outside the model). *)

From Stdlib Require Import ZArith QArith Qround Qabs List String Bool Lia Lqa Psatz.
From Stdlib Require Import DecimalString Sorted.
Import ListNotations.

Local Open Scope Z_scope.
Set Warnings "-register-all".

(** ** Python prelude *)

Module Py.

(** Exception classes raised by the modelled code or by its collaborators. *)
Inductive exn_class :=
| TimeoutError          (* asyncio.TimeoutError: ClientTimeout(total=10) exceeded *)
| ClientError           (* aiohttp.ClientError family: refused, reset, ... *)
| DecodeError           (* response.json(): ContentTypeError / JSONDecodeError *)
| AttributeError
| ZeroDivisionError
| IndexError
| KeyError
| TypeError
| StatisticsError.

(** An exception instance: its class and [str(e)]. *)
Record exn := Exn { exn_cls : exn_class; exn_str : string }.

Inductive outcome (A : Type) :=
| Ok (a : A)
| Raise (e : exn)
| Unfinished.            (* a [while] loop did not finish within the fuel given *)
Arguments Ok {A} a.
Arguments Raise {A} e.
Arguments Unfinished {A}.

(** State-and-exception monad: [St] is the part of the world a computation
    reads and updates. *)
Definition M (St A : Type) : Type := St -> outcome A * St.

Definition ret {St A} (a : A) : M St A := fun s => (Ok a, s).

Definition bind {St A B} (c : M St A) (k : A -> M St B) : M St B :=
  fun s =>
    match c s with
    | (Ok a, s') => k a s'
    | (Raise e, s') => (Raise e, s')
    | (Unfinished, s') => (Unfinished, s')
    end.

Definition raise {St A} (e : exn) : M St A := fun s => (Raise e, s).

(** [try: c  except Exception as e: h e] *)
Definition try_except {St A} (c : M St A) (h : exn -> M St A) : M St A :=
  fun s =>
    match c s with
    | (Raise e, s') => h e s'
    | r => r
    end.

Definition get {St} : M St St := fun s => (Ok s, s).
Definition modify {St} (f : St -> St) : M St unit := fun s => (Ok tt, f s).

Declare Scope py_scope.
Delimit Scope py_scope with py.
Notation "x <- c ;; k" := (bind c (fun x => k))
  (at level 61, c at next level, right associativity) : py_scope.
Notation "c ;;; k" := (bind c (fun _ => k))
  (at level 61, right associativity) : py_scope.

Local Open Scope py_scope.

(** [for x in xs: body], where [acc] holds the local variables the body
    updates. *)
Fixpoint for_each {St A B} (xs : list A) (acc : B) (body : A -> B -> M St B) : M St B :=
  match xs with
  | [] => ret acc
  | x :: xs' => acc' <- body x acc ;; for_each xs' acc' body
  end.

(** [while cond: body], cut off after [fuel] iterations; [acc] holds the
    local variables the body updates. *)
Fixpoint while {St B} (fuel : nat) (cond : B -> M St bool) (body : B -> M St B)
    (acc : B) : M St B :=
  match fuel with
  | O => fun s => (Unfinished, s)
  | S fuel' =>
      b <- cond acc ;;
      if (b : bool)
      then acc' <- body acc ;; while fuel' cond body acc'
      else ret acc
  end.

(** A computation that touches no state, run on its own. *)
Definition run {A} (c : M unit A) : outcome A := fst (c tt).

(** [range(n)] *)
Definition range (n : Z) : list Z := map Z.of_nat (seq 0 (Z.to_nat n)).

(** [len(xs)] *)
Definition len {A} (xs : list A) : Z := Z.of_nat (List.length xs).

(** Comparisons of floats as booleans. *)
Definition Qltb (x y : Q) : bool := negb (Qle_bool y x).
Definition Qgtb (x y : Q) : bool := Qltb y x.
Definition Qleb (x y : Q) : bool := Qle_bool x y.
Definition Qgeb (x y : Q) : bool := Qle_bool y x.
Definition Qneb (x y : Q) : bool := negb (Qeq_bool x y).

(** [a / b] on floats (or an int and a float). *)
Definition div {St} (a b : Q) : M St Q :=
  if Qeq_bool b 0
  then raise (Exn ZeroDivisionError "float division by zero")
  else ret (a / b)%Q.

(** [int(x)] for a float [x]: truncation toward zero. *)
Definition int (x : Q) : Z := Z.quot (Qnum x) (Z.pos (Qden x)).

(** [xs[i]] with Python's negative indices. *)
Definition index {St A} (xs : list A) (i : Z) : M St A :=
  let j := if i <? 0 then len xs + i else i in
  if (j <? 0) || (len xs <=? j)
  then raise (Exn IndexError "list index out of range")
  else match nth_error xs (Z.to_nat j) with
       | Some x => ret x
       | None => raise (Exn IndexError "list index out of range")
       end.

(** [sum(xs)] over floats; Python adds from the left, starting at 0. *)
Definition sum (xs : list Q) : Q := fold_left Qplus xs 0%Q.
Definition sumZ (xs : list Z) : Z := fold_left Z.add xs 0.

(** [sorted(xs, key=key)]: a stable insertion sort stands for Python's
    stable sort. *)
Fixpoint insert_by {A} (key : A -> Q) (x : A) (xs : list A) : list A :=
  match xs with
  | [] => [x]
  | y :: ys => if Qltb (key x) (key y) then x :: y :: ys else y :: insert_by key x ys
  end.

Definition sorted_by {A} (key : A -> Q) (xs : list A) : list A :=
  fold_left (fun acc x => insert_by key x acc) xs [].

Definition sorted (xs : list Q) : list Q := sorted_by (fun x => x) xs.

(** [str(n)] for an int. *)
Definition str (n : Z) : string := NilZero.string_of_int (Z.to_int n).

(** [min(xs)], [max(xs)] on a non-empty list of floats [x :: xs]; the first
    extremal element wins, as in Python. *)
Definition min_of (x : Q) (xs : list Q) : Q :=
  fold_left (fun m y => if Qltb y m then y else m) xs x.
Definition max_of (x : Q) (xs : list Q) : Q :=
  fold_left (fun m y => if Qltb m y then y else m) xs x.

(** The absolute differences of neighbours:
    [[abs(xs[i] - xs[i-1]) for i in range(1, len(xs))]]. *)
Fixpoint variations_of (xs : list Q) : list Q :=
  match xs with
  | x :: (y :: _) as rest => Qabs (y - x) :: variations_of rest
  | _ => []
  end.

(** Values the analysis functions build and return: dictionaries with string
    keys (in insertion order), lists, tuples and scalars. *)
Inductive pyval :=
| PNone
| PBool (b : bool)
| PInt (z : Z)
| PFloat (q : Q)
| PStr (s : string)
| PList (xs : list pyval)
| PTuple (xs : list pyval)
| PDict (kvs : list (string * pyval)).

Fixpoint assoc {V} (k : string) (kvs : list (string * V)) : option V :=
  match kvs with
  | [] => None
  | (k', v) :: rest => if String.eqb k k' then Some v else assoc k rest
  end.

(** [d.get(k)] and [k in d] on a value that is a dictionary. *)
Definition dict_get (k : string) (d : pyval) : option pyval :=
  match d with
  | PDict kvs => assoc k kvs
  | _ => None
  end.

Definition dict_has (k : string) (d : pyval) : bool :=
  match dict_get k d with Some _ => true | None => false end.

(** [d[k]] *)
Definition dict_item {St} (k : string) (d : pyval) : M St pyval :=
  match dict_get k d with
  | Some v => ret v
  | None => raise (Exn KeyError ("'" ++ k ++ "'"))
  end.

(** [d[k] = d.get(k, 0) + 1] on a dictionary of counters. *)
Fixpoint count_up (k : string) (d : list (string * Z)) : list (string * Z) :=
  match d with
  | [] => [(k, 1)]
  | (k', c) :: rest =>
      if String.eqb k k' then (k', c + 1) :: rest else (k', c) :: count_up k rest
  end.

(** A value used as a number. *)
Definition number {St} (v : pyval) : M St Q :=
  match v with
  | PInt z => ret (inject_Z z)
  | PFloat q => ret q
  | PBool b => ret (if b then 1 else 0)%Q
  | _ => raise (Exn TypeError "unsupported operand type")
  end.

(** [len(v)] on a value. *)
Definition length_of {St} (v : pyval) : M St Z :=
  match v with
  | PList xs | PTuple xs => ret (len xs)
  | PDict kvs => ret (len kvs)
  | PStr s => ret (Z.of_nat (String.length s))
  | _ => raise (Exn TypeError "object has no len()")
  end.

(** *** Library statistics

    [statistics.mean], [statistics.median], [statistics.stdev] and
    [numpy.percentile] are library functions; they are modelled from their
    documentation. [sqrt] stands for [math.sqrt]. *)

Section Statistics.
Variable sqrt : Q -> Q.

Definition mean {St} (xs : list Q) : M St Q :=
  match xs with
  | [] => raise (Exn StatisticsError "mean requires at least one data point")
  | _ => ret (sum xs / inject_Z (len xs))%Q
  end.

Definition median {St} (xs : list Q) : M St Q :=
  match xs with
  | [] => raise (Exn StatisticsError "no median for empty data")
  | _ =>
      let s := sorted xs in
      let n := len xs in
      if n mod 2 =? 1
      then index s (n / 2)
      else a <- index s (n / 2 - 1) ;; b <- index s (n / 2) ;; ret ((a + b) / 2)%Q
  end.

(** Sum of squared deviations from the arithmetic mean. *)
Definition sum_sq_dev (xs : list Q) : Q :=
  let m := (sum xs / inject_Z (len xs))%Q in
  sum (map (fun x => (x - m) * (x - m))%Q xs).

(** Sample standard deviation (divisor [n - 1]). *)
Definition stdev {St} (xs : list Q) : M St Q :=
  if len xs <? 2
  then raise (Exn StatisticsError "stdev requires at least two data points")
  else ret (sqrt (sum_sq_dev xs / inject_Z (len xs - 1)))%Q.

(** [numpy.percentile(xs, q)], default linear interpolation. *)
Definition np_percentile {St} (xs : list Q) (q : Q) : M St Q :=
  match xs with
  | [] => raise (Exn IndexError "index -1 is out of bounds for axis 0 with size 0")
  | _ =>
      let s := sorted xs in
      let n := len xs in
      let virtual := (inject_Z (n - 1) * q / 100)%Q in
      let previous := Qfloor virtual in
      let next := Z.min (previous + 1) (n - 1) in
      let gamma := (virtual - inject_Z previous)%Q in
      a <- index s previous ;;
      b <- index s next ;;
      ret (a + (b - a) * gamma)%Q
  end.

End Statistics.

(** A computable stand-in for [math.sqrt], used to run the model on
    examples: the square root cut after fifteen decimals. *)
Definition sqrt15 (x : Q) : Q :=
  Qmake (Z.sqrt (Qnum x * 10 ^ 30 / Z.pos (Qden x))) (10 ^ 15).

End Py.

(** ** advanced_benchmark.py *)

Module AdvancedBenchmark.
Import Py.
Local Open Scope string_scope.
Local Open Scope Z_scope.
Local Open Scope py_scope.

(** [@dataclass class RequestResult] *)
Record RequestResult := {
  request_id : Z;
  start_time : Q;
  end_time : Q;
  response_time : Q;
  status_code : Z;
  success : bool;
  result_value : bool;
  error : option string;          (* [None] is Python's [None] *)
  queue_time : Q;
  processing_time : Q
}.

(** *** The transport collaborator

    The parsed body of a reply. An object carries the three keys the code
    reads, each possibly absent, with the types of the endpoint's contract;
    any other JSON value (a list, a string, a number) has no [.get]. *)
Record body_fields := {
  f_success : option bool;
  f_result : option bool;
  f_error : option string
}.

Inductive json_value :=
| JObject (o : body_fields)
| JOther (type_name : string).

(** What [await response.json()] does. *)
Inductive json_outcome :=
| JsonRaises (e : exn)
| JsonValue (v : json_value).

Record response := { status : Z; json : json_outcome }.

(** What [self.session.post(...)] does. *)
Inductive post_outcome :=
| PostRaises (e : exn)
| Responds (r : response).

(** The world as one request sees it: the successive readings of
    [time.time()] and what the network does with the payload. *)
Record attempt := {
  att_clock : nat -> Q;
  att_net : string -> post_outcome
}.

Section SendRequest.
Variable a : attempt.

(** The state of one request is the number of clock readings taken. *)
Definition time_time : M nat Q := fun k => (Ok (att_clock a k), S k).

Definition session_post (idval : string) : M nat response :=
  match att_net a idval with
  | PostRaises e => raise e
  | Responds r => ret r
  end.

Definition response_json (r : response) : M nat json_value :=
  match json r with
  | JsonRaises e => raise e
  | JsonValue v => ret v
  end.

(** [response_data.get] exists on a dictionary only. *)
Definition get_method (v : json_value) : M nat body_fields :=
  match v with
  | JObject o => ret o
  | JOther ty =>
      raise (Exn AttributeError ("'" ++ ty ++ "' object has no attribute 'get'"))
  end.

Definition or_default {A} (x : option A) (d : A) : A :=
  match x with Some v => v | None => d end.

Definition send_request (request_id : Z) (idval : string) : M nat RequestResult :=
  start_time <- time_time ;;
  try_except
    (response <- session_post idval ;;
     end_time <- time_time ;;
     let response_time := ((end_time - start_time) * 1000)%Q in
     response_data <- response_json response ;;
     o <- get_method response_data ;;
     ret {| request_id := request_id;
            start_time := start_time;
            end_time := end_time;
            response_time := response_time;
            status_code := status response;
            success := or_default (f_success o) false;
            result_value := or_default (f_result o) false;
            error := f_error o;
            queue_time := 0;
            processing_time := 0 |})
    (fun e =>
     end_time <- time_time ;;
     let response_time := ((end_time - start_time) * 1000)%Q in
     ret {| request_id := request_id;
            start_time := start_time;
            end_time := end_time;
            response_time := response_time;
            status_code := 0;
            success := false;
            result_value := false;
            error := Some (exn_str e);
            queue_time := 0;
            processing_time := 0 |}).

End SendRequest.

(** *** The scheduler

    The world of a run: the readings of the scheduler's own [time.time()]
    calls, the draws of [random.randint(1000, 9999)], and for each request
    id what that request meets. *)
Record world := {
  w_clock : nat -> Q;
  w_rand : nat -> Z;
  w_attempt : Z -> attempt
}.

(** What a run has consumed and done so far. *)
Record sched := {
  ticks : nat;             (* clock readings taken *)
  draws : nat;             (* random numbers drawn *)
  slept : list Q           (* delays passed to [asyncio.sleep], latest first *)
}.

Definition sched0 : sched := {| ticks := 0; draws := 0; slept := [] |}.

Section Scheduler.
Variable w : world.

Definition now : M sched Q :=
  fun s => (Ok (w_clock w (ticks s)),
            {| ticks := S (ticks s); draws := draws s; slept := slept s |}).

Definition randint : M sched Z :=
  fun s => (Ok (w_rand w (draws s)),
            {| ticks := ticks s; draws := S (draws s); slept := slept s |}).

Definition sleep (delay : Q) : M sched unit :=
  modify (fun s => {| ticks := ticks s; draws := draws s; slept := delay :: slept s |}).

(** [await self.send_request(request_id, idval)]: the request runs against
    its own view of the world; what it returns or raises is passed on. *)
Definition await_send_request (request_id : Z) (idval : string) : M sched RequestResult :=
  fun s => (fst (send_request (w_attempt w request_id) request_id idval 0%nat), s).

(** [await asyncio.gather] over the tasks: the results come in the order of the
    tasks, whatever the order of completion. *)
Fixpoint gather {A} (tasks : list (M sched A)) : M sched (list A) :=
  match tasks with
  | [] => ret []
  | t :: ts => r <- t ;; rs <- gather ts ;; ret (r :: rs)
  end.

Definition run_burst_test (burst_size : Z) (burst_interval : Q)
    : M sched (list RequestResult) :=
  for_each (range 5) [] (fun burst results =>
    burst_start <- now ;;
    tasks <- for_each (range burst_size) [] (fun i tasks =>
               let request_id := burst * burst_size + i in
               r <- randint ;;
               let idval := "burst_" ++ str burst ++ "_req_" ++ str i ++ "_" ++ str r in
               ret (tasks ++ [await_send_request request_id idval])%list) ;;
    burst_results <- gather tasks ;;
    let results := (results ++ burst_results)%list in
    burst_end <- now ;;
    (if burst <? 4 then sleep burst_interval else ret tt) ;;;
    ret results).

(** The local variables of the two rate loops. *)
Record loop_vars := { results : list RequestResult; next_id : Z }.

Definition run_ramp_test (fuel : nat) (start_rps end_rps duration : Z)
    : M sched (list RequestResult) :=
  start_time <- now ;;
  vars <- while fuel
    (fun _ => t <- now ;; ret (Qltb (t - start_time) (inject_Z duration)))
    (fun v =>
      t <- now ;;
      let elapsed := (t - start_time)%Q in
      progress <- div elapsed (inject_Z duration) ;;
      let current_rps :=
        (inject_Z start_rps + inject_Z (end_rps - start_rps) * progress)%Q in
      delay <- (if Qgtb current_rps 0 then div 1 current_rps else ret 1%Q) ;;
      r <- randint ;;
      let idval := "ramp_req_" ++ str (next_id v) ++ "_" ++ str r in
      result <- await_send_request (next_id v) idval ;;
      sleep delay ;;;
      ret {| results := (results v ++ [result])%list; next_id := next_id v + 1 |})
    {| results := []; next_id := 0 |} ;;
  ret (results vars).

Definition run_sustained_test (fuel : nat) (rps duration : Z)
    : M sched (list RequestResult) :=
  start_time <- now ;;
  delay <- div 1 (inject_Z rps) ;;
  vars <- while fuel
    (fun _ => t <- now ;; ret (Qltb (t - start_time) (inject_Z duration)))
    (fun v =>
      r <- randint ;;
      let idval := "sustained_req_" ++ str (next_id v) ++ "_" ++ str r in
      result <- await_send_request (next_id v) idval ;;
      let request_id := next_id v + 1 in
      (* the progress line reads the clock *)
      (if request_id mod 20 =? 0 then now ;;; ret tt else ret tt) ;;;
      sleep delay ;;;
      ret {| results := (results v ++ [result])%list; next_id := request_id |})
    {| results := []; next_id := 0 |} ;;
  ret (results vars).

End Scheduler.

(** *** Analysis of a run *)

Section Analysis.
Context {St : Type}.
Variable sqrt : Q -> Q.                    (* [math.sqrt], inside [statistics.stdev] *)
Variable repr : pyval -> string.           (* how an f-string shows a value that is no string *)
Variable render : string -> pyval -> string.   (* the text of the full report *)

(** The slope expression of [analyze_trend]. *)
Definition trend_slope (data : list Q) : M St Q :=
  let x := range (len data) in
  let y := data in
  let n := len data in
  let sum_x := sumZ x in
  let sum_y := sum y in
  let sum_xy := sum (map (fun p => inject_Z (fst p) * snd p)%Q (combine x y)) in
  let sum_x2 := sumZ (map (fun xi => xi * xi) x) in
  div (inject_Z n * sum_xy - inject_Z sum_x * sum_y)%Q
      (inject_Z (n * sum_x2 - sum_x * sum_x)).

Definition analyze_trend (data : list Q) : M St string :=
  if len data <? 10 then ret "insufficient_data"
  else
    slope <- trend_slope data ;;
    if Qgtb slope (1 # 10) then ret "increasing"
    else if Qltb slope (- (1 # 10)) then ret "decreasing"
    else ret "stable".

Definition detect_outliers (data : list Q) (threshold : Q) : M St pyval :=
  if len data <? 3
  then ret (PDict [("count", PInt 0); ("percentage", PInt 0)])
  else
    mean <- mean data ;;
    std_dev <- stdev sqrt data ;;
    outliers <- for_each (combine (range (len data)) data) []
      (fun iv outliers =>
        let i := fst iv in
        let value := snd iv in
        z_score <- (if Qgtb std_dev 0 then div (Qabs (value - mean)) std_dev
                    else ret 0%Q) ;;
        if Qgtb z_score threshold
        then ret (outliers ++ [PDict [("index", PInt i); ("value", PFloat value);
                                      ("z_score", PFloat z_score)]])%list
        else ret outliers) ;;
    ret (PDict [("count", PInt (len outliers));
                ("percentage", PFloat (inject_Z (len outliers) / inject_Z (len data) * 100));
                ("outliers", PList (firstn 10 outliers))]).

Definition analyze_timing_patterns (results : list RequestResult) : M St pyval :=
  if len results <? 2 then ret (PDict [])
  else
    let times := map response_time results in
    let timestamps := map start_time results in
    let time_series := sorted_by fst (combine timestamps times) in
    let variations := variations_of (map snd time_series) in
    max_variation <- ret (match variations with
                          | [] => PInt 0
                          | v :: vs => PFloat (max_of v vs)
                          end) ;;
    avg_variation <- (match variations with
                      | [] => ret (PInt 0)
                      | _ => m <- mean variations ;; ret (PFloat m)
                      end) ;;
    m <- mean times ;;
    timing_consistency <- (if Qgtb m 0
                           then sd <- stdev sqrt times ;;
                                m' <- mean times ;;
                                q <- div sd m' ;;
                                ret (PFloat (1 - q))
                           else ret (PInt 0)) ;;
    outliers <- detect_outliers times 2 ;;
    trending <- analyze_trend times ;;
    ret (PDict [("max_variation", max_variation);
                ("avg_variation", avg_variation);
                ("timing_consistency", timing_consistency);
                ("outliers", outliers);
                ("trending", PStr trending)]).

(** [max(d.items(), key=lambda x: x[1])]: the first entry with the largest
    count. *)
Definition most_common (d : list (string * Z)) : pyval :=
  match d with
  | [] => PNone
  | kv :: rest =>
      let best := fold_left (fun b e => if snd b <? snd e then e else b) rest kv in
      PTuple [PStr (fst best); PInt (snd best)]
  end.

Definition analyze_errors (failed_results : list RequestResult) : pyval :=
  match failed_results with
  | [] => PDict [("total", PInt 0); ("types", PDict [])]
  | _ =>
      let error_types :=
        fold_left (fun d r =>
                     let error := match error r with
                                  | None | Some "" => "unknown"
                                  | Some e => e
                                  end in
                     count_up error d)
                  failed_results [] in
      PDict [("total", PInt (len failed_results));
             ("types", PDict (map (fun kc => (fst kc, PInt (snd kc))) error_types));
             ("most_common", most_common error_types)]
  end.

Definition analyze_results (results : list RequestResult) : M St pyval :=
  match results with
  | [] => ret (PDict [])
  | _ =>
      let successful := filter success results in
      let failed := filter (fun r => negb (success r)) results in
      let response_times := map response_time successful in
      match response_times with
      | [] => ret (PDict [("error", PStr "No successful requests")])
      | t :: ts =>
          mean <- mean response_times ;;
          median <- median response_times ;;
          p95 <- np_percentile response_times 95 ;;
          p99 <- np_percentile response_times 99 ;;
          std_dev <- (if 1 <? len response_times
                      then sd <- stdev sqrt response_times ;; ret (PFloat sd)
                      else ret (PInt 0)) ;;
          timing_analysis <- analyze_timing_patterns successful ;;
          ret (PDict [
            ("total_requests", PInt (len results));
            ("successful_requests", PInt (len successful));
            ("failed_requests", PInt (len failed));
            ("success_rate",
               PFloat (inject_Z (len successful) / inject_Z (len results) * 100));
            ("response_times", PDict [
               ("min", PFloat (min_of t ts));
               ("max", PFloat (max_of t ts));
               ("mean", PFloat mean);
               ("median", PFloat median);
               ("p95", PFloat p95);
               ("p99", PFloat p99);
               ("std_dev", std_dev)]);
            ("timing_analysis", timing_analysis);
            ("error_analysis", analyze_errors failed)])
      end
  end.

(** How an f-string shows a value. *)
Definition display (v : pyval) : string :=
  match v with
  | PStr s => s
  | _ => repr v
  end.

Definition generate_report (test_name : string) (stats : pyval) : M St string :=
  if dict_has "error" stats
  then e <- dict_item "error" stats ;;
       ret ("❌ " ++ test_name ++ ": " ++ display e)
  else
    rt <- dict_item "response_times" stats ;;
    ta <- dict_item "timing_analysis" stats ;;
    ret (render test_name stats).

End Analysis.

End AdvancedBenchmark.

(** ** analyze_timing.py *)

Module AnalyzeTiming.
Import Py.
Local Open Scope string_scope.
Local Open Scope Z_scope.
Local Open Scope py_scope.

(** One record of the timing file, as [load_timing_data] builds it. *)
Record row := {
  request_id : Z;
  response_time_ms : Q;
  success : bool;
  error : string
}.

Section Analysis.
Context {St : Type}.
Variable sqrt : Q -> Q.                    (* [math.sqrt] *)
Variable fmt_slope : Q -> string.          (* the text of [f"{slope:+.2f}"] *)
Variable render : pyval -> pyval -> string.    (* the text of the full report *)

(** The local function [percentile] of [calculate_statistics]. *)
Definition percentile (data : list Q) (p : Q) : M St Q :=
  let index_ := (inject_Z (len data - 1) * p / 100)%Q in
  let lower := int index_ in
  let upper := lower + 1 in
  let weight := (index_ - inject_Z lower)%Q in
  if len data <=? upper
  then index data (-1)
  else
    a <- index data lower ;;
    b <- index data upper ;;
    ret (a * (1 - weight) + b * weight)%Q.

Definition calculate_statistics (response_times : list Q) : M St pyval :=
  match response_times with
  | [] => ret (PDict [])
  | t :: ts =>
      let n := len response_times in
      let sorted_times := sorted response_times in
      mean <- div (sum response_times) (inject_Z n) ;;
      median <- (if n mod 2 =? 1
                 then index sorted_times (n / 2)
                 else a <- index sorted_times (n / 2 - 1) ;;
                      b <- index sorted_times (n / 2) ;;
                      ret ((a + b) / 2)%Q) ;;
      let minimum := min_of t ts in
      let maximum := max_of t ts in
      let range_val := (maximum - minimum)%Q in
      p25 <- percentile sorted_times 25 ;;
      p75 <- percentile sorted_times 75 ;;
      p95 <- percentile sorted_times 95 ;;
      p99 <- percentile sorted_times 99 ;;
      variance <- div (sum (map (fun x => (x - mean) ^ 2)%Q response_times))
                      (inject_Z n) ;;
      let std_dev := sqrt variance in
      cv <- (if Qneb mean 0 then q <- div std_dev mean ;; ret (PFloat q)
             else ret (PInt 0)) ;;
      let variations := variations_of response_times in
      avg_variation <- (match variations with
                        | [] => ret (PInt 0)
                        | _ => q <- div (sum variations) (inject_Z (len variations)) ;;
                               ret (PFloat q)
                        end) ;;
      let max_variation := match variations with
                           | [] => PInt 0
                           | v :: vs => PFloat (max_of v vs)
                           end in
      ret (PDict [
        ("n", PInt n);
        ("mean", PFloat mean);
        ("median", PFloat median);
        ("std_dev", PFloat std_dev);
        ("min", PFloat minimum);
        ("max", PFloat maximum);
        ("range", PFloat range_val);
        ("p25", PFloat p25);
        ("p75", PFloat p75);
        ("p95", PFloat p95);
        ("p99", PFloat p99);
        ("cv", cv);
        ("avg_variation", avg_variation);
        ("max_variation", max_variation);
        ("iqr", PFloat (p75 - p25))])
  end.

(** [detect_outliers(response_times, method, threshold)]; the defaults are
    [method="zscore"] and [threshold=2]. A function that ends without
    [return] gives [None]. *)
Definition detect_outliers (response_times : list Q) (method : string) (threshold : Q)
    : M St pyval :=
  match response_times with
  | [] => ret (PList [])
  | _ =>
      if String.eqb method "zscore" then
        mean <- div (sum response_times) (inject_Z (len response_times)) ;;
        variance <- div (sum (map (fun x => (x - mean) ^ 2)%Q response_times))
                        (inject_Z (len response_times)) ;;
        let std_dev := sqrt variance in
        outliers <- for_each (combine (range (len response_times)) response_times) []
          (fun it outliers =>
            let i := fst it in
            let time := snd it in
            z_score <- (if Qneb std_dev 0 then div (Qabs (time - mean)) std_dev
                        else ret 0%Q) ;;
            if Qgtb z_score threshold
            then ret (outliers ++ [PTuple [PInt i; PFloat time; PFloat z_score]])%list
            else ret outliers) ;;
        ret (PList outliers)
      else if String.eqb method "iqr" then
        let sorted_times := sorted response_times in
        let n := len sorted_times in
        q1 <- index sorted_times (n / 4) ;;
        q3 <- index sorted_times (3 * n / 4) ;;
        let iqr := (q3 - q1)%Q in
        let lower_bound := (q1 - (3 # 2) * iqr)%Q in
        let upper_bound := (q3 + (3 # 2) * iqr)%Q in
        outliers <- for_each (combine (range (len response_times)) response_times) []
          (fun it outliers =>
            let i := fst it in
            let time := snd it in
            if Qltb time lower_bound || Qgtb time upper_bound
            then ret (outliers ++ [PTuple [PInt i; PFloat time; PInt 0]])%list
            else ret outliers) ;;
        ret (PList outliers)
      else ret PNone
  end.

Definition categorize_performance (cv avg_time : Q) : string * string * string :=
  let '(consistency, consistency_desc) :=
    if Qltb cv (1 # 10) then
      ("Excellent", "Very low variation, highly predictable")
    else if Qltb cv (25 # 100) then
      ("Good", "Low variation, reasonably predictable")
    else if Qltb cv (5 # 10) then
      ("Fair", "Moderate variation, somewhat unpredictable")
    else
      ("Poor", "High variation, unpredictable performance") in
  let speed :=
    if Qltb avg_time 500 then "Fast"
    else if Qltb avg_time 1000 then "Moderate"
    else if Qltb avg_time 2000 then "Slow"
    else "Very Slow" in
  (consistency, consistency_desc, speed).

Definition analyze_patterns (data : list row) : M St pyval :=
  if len data <? 3 then ret (PDict [])
  else
    let response_times := map response_time_ms (filter success data) in
    let request_ids := map request_id (filter success data) in
    if len response_times <? 3 then ret (PDict [])
    else
      let n := len response_times in
      let sum_x := sumZ request_ids in
      let sum_y := sum response_times in
      let sum_xy :=
        sum (map (fun xy => inject_Z (fst xy) * snd xy)%Q
                 (combine request_ids response_times)) in
      let sum_x2 := sumZ (map (fun x => x * x) request_ids) in
      let denominator := n * sum_x2 - sum_x * sum_x in
      line <- (if negb (denominator =? 0)
               then slope <- div (inject_Z n * sum_xy - inject_Z sum_x * sum_y)
                                 (inject_Z denominator) ;;
                    intercept <- div (sum_y - slope * inject_Z sum_x) (inject_Z n) ;;
                    ret (PFloat slope, slope, intercept)
               else intercept <- div sum_y (inject_Z n) ;;
                    ret (PInt 0, 0%Q, intercept)) ;;
      let '(slope_value, slope, intercept) := line in
      avg_time <- div (sum response_times) (inject_Z (len response_times)) ;;
      variance <- div (sum (map (fun x => (x - avg_time) ^ 2)%Q response_times))
                      (inject_Z (len response_times)) ;;
      let std_dev := sqrt variance in
      let patterns :=
        if Qgtb (Qabs slope) 5
        then if Qgtb slope 0
             then ["Increasing trend detected (performance degrading)"]
             else ["Decreasing trend detected (performance improving)"]
        else [] in
      spread <- div std_dev avg_time ;;
      patterns <- (if Qgtb spread (5 # 10)
                   then ret (patterns ++ ["High variability in response times"])%list
                   else spread' <- div std_dev avg_time ;;
                        if Qltb spread' (1 # 10)
                        then ret (patterns ++ ["Very consistent response times"])%list
                        else ret patterns) ;;
      let within_1std :=
        len (filter (fun t => Qleb (Qabs (t - avg_time)) std_dev) response_times) in
      let within_2std :=
        len (filter (fun t => Qleb (Qabs (t - avg_time)) (2 * std_dev)) response_times) in
      ret (PDict [
        ("slope", slope_value);
        ("intercept", PFloat intercept);
        ("trend_description", PStr (fmt_slope slope ++ " ms per request"));
        ("patterns", PList (map PStr patterns));
        ("within_1std_pct",
           PFloat (inject_Z within_1std / inject_Z (len response_times) * 100));
        ("within_2std_pct",
           PFloat (inject_Z within_2std / inject_Z (len response_times) * 100))]).

(** What [generate_comprehensive_report] shows: the lines it prints and the
    summary document it builds (writing them to files is left out). *)
Record report := { printed : list string; summary : option pyval }.

Definition generate_comprehensive_report (data : list row) : M St report :=
  let total_requests := len data in
  let successful_requests := filter success data in
  let failed_requests := filter (fun d => negb (success d)) data in
  success_rate <- (if 0 <? total_requests
                   then q <- div (inject_Z (len successful_requests))
                                 (inject_Z total_requests) ;;
                        ret (PFloat (q * 100))
                   else ret (PInt 0)) ;;
  let response_times := map response_time_ms successful_requests in
  match response_times with
  | [] => ret {| printed := ["❌ No successful requests to analyze"];
                 summary := None |}
  | _ =>
      stats <- calculate_statistics response_times ;;
      outliers_zscore <- detect_outliers response_times "zscore" 2 ;;
      outliers_iqr <- detect_outliers response_times "iqr" 2 ;;
      patterns <- analyze_patterns successful_requests ;;
      cv <- (v <- dict_item "cv" stats ;; number v) ;;
      mean <- (v <- dict_item "mean" stats ;; number v) ;;
      let '(consistency, consistency_desc, speed) := categorize_performance cv mean in
      let error_counts := fold_left (fun d req => count_up (error req) d) failed_requests [] in
      zscore_count <- length_of outliers_zscore ;;
      iqr_count <- length_of outliers_iqr ;;
      let summary := PDict [
        ("total_requests", PInt total_requests);
        ("successful_requests", PInt (len successful_requests));
        ("failed_requests", PInt (len failed_requests));
        ("success_rate", success_rate);
        ("statistics", stats);
        ("performance_rating", PDict [
           ("consistency", PStr consistency);
           ("speed", PStr speed);
           ("description", PStr consistency_desc)]);
        ("outliers", PDict [
           ("zscore_count", PInt zscore_count);
           ("iqr_count", PInt iqr_count)]);
        ("errors", PDict (map (fun kc => (fst kc, PInt (snd kc))) error_counts));
        ("patterns", patterns)] in
      ret {| printed := [render summary outliers_zscore]; summary := Some summary |}
  end.

End Analysis.

End AnalyzeTiming.

(** * Properties *)

(** ** The request issuer *)

Module RequestIssuer.
Import Py AdvancedBenchmark.
Local Open Scope string_scope.
Local Open Scope Z_scope.

(** The exception the [try] block of [send_request] raises, if any: the
    HTTP call fails (timeout, connection error), the body cannot be parsed,
    or the parsed body is no dictionary. *)
Definition failure_of (a : attempt) (idval : string) : option exn :=
  match att_net a idval with
  | PostRaises e => Some e
  | Responds r =>
      match json r with
      | JsonRaises e => Some e
      | JsonValue (JOther ty) =>
          Some (Exn AttributeError ("'" ++ ty ++ "' object has no attribute 'get'"))
      | JsonValue (JObject _) => None
      end
  end.

(** The body of a reply the [try] block reads to its end. *)
Definition reply_of (a : attempt) (idval : string) : option (response * body_fields) :=
  match att_net a idval with
  | Responds r =>
      match json r with
      | JsonValue (JObject o) => Some (r, o)
      | _ => None
      end
  | PostRaises _ => None
  end.

(** [error] holds a message: it is neither [None] nor the empty string. *)
Definition error_set (r : RequestResult) : bool :=
  match error r with
  | None | Some "" => false
  | Some _ => true
  end.

Definition monotone (clock : nat -> Q) : Prop :=
  forall i j, (i <= j)%nat -> (clock i <= clock j)%Q.

(** A server that answers [{"success": false}] with status 200 at once. *)
Definition bare_failure : attempt :=
  {| att_clock := fun k => inject_Z (Z.of_nat k);
     att_net := fun _ =>
       Responds {| status := 200;
                   json := JsonValue (JObject {| f_success := Some false;
                                                 f_result := None;
                                                 f_error := None |}) |} |}.

(** A connection that is refused. *)
Definition refused : attempt :=
  {| att_clock := fun k => inject_Z (Z.of_nat k);
     att_net := fun _ => PostRaises (Exn ClientError "Cannot connect to host") |}.

Lemma send_request_failure a id idval e :
  failure_of a idval = Some e ->
  exists k,
    send_request a id idval 0%nat =
    (Ok {| request_id := id;
           start_time := att_clock a 0%nat;
           end_time := att_clock a k;
           response_time := ((att_clock a k - att_clock a 0%nat) * 1000)%Q;
           status_code := 0;
           success := false;
           result_value := false;
           error := Some (exn_str e);
           queue_time := 0;
           processing_time := 0 |}, S k) /\ (0 < k)%nat.
Proof.
  unfold failure_of, send_request, bind, try_except, time_time,
    session_post, response_json, get_method, raise, ret.
  destruct (att_net a idval) as [e0 | r]; simpl.
  - intros [= <-]. exists 1%nat. split; [reflexivity | lia].
  - destruct (json r) as [e0 | [o | ty]]; simpl.
    + intros [= <-]. exists 2%nat. split; [reflexivity | lia].
    + discriminate.
    + intros [= <-]. exists 2%nat. split; [reflexivity | lia].
Qed.

Lemma send_request_reply a id idval r o :
  reply_of a idval = Some (r, o) ->
  send_request a id idval 0%nat =
  (Ok {| request_id := id;
         start_time := att_clock a 0%nat;
         end_time := att_clock a 1%nat;
         response_time := ((att_clock a 1%nat - att_clock a 0%nat) * 1000)%Q;
         status_code := status r;
         success := or_default (f_success o) false;
         result_value := or_default (f_result o) false;
         error := f_error o;
         queue_time := 0;
         processing_time := 0 |}, 2%nat).
Proof.
  unfold reply_of, send_request, bind, try_except, time_time,
    session_post, response_json, get_method, raise, ret.
  destruct (att_net a idval) as [e0 | r0]; simpl; [discriminate |].
  destruct (json r0) as [e0 | [o0 | ty]] eqn:J; simpl; try discriminate.
  intros H. injection H as Hr Ho. subst r0 o0. reflexivity.
Qed.

Lemma failure_or_reply a idval :
  (exists e, failure_of a idval = Some e) \/ (exists r o, reply_of a idval = Some (r, o)).
Proof.
  unfold failure_of, reply_of.
  destruct (att_net a idval) as [e | r]; [left; eauto |].
  destruct (json r) as [e | [o | ty]]; [left | right | left]; eauto.
Qed.

(** Every call returns a result carrying the id it was given. *)
Lemma send_request_returns a id idval :
  exists r k, send_request a id idval 0%nat = (Ok r, k) /\ request_id r = id.
Proof.
  destruct (failure_or_reply a idval) as [[e F] | (r & o & R)].
  - destruct (send_request_failure a id idval e F) as (k & E & _).
    rewrite E. eauto.
  - rewrite (send_request_reply a id idval r o R). eauto.
Qed.

(** C1, as stated, fails: a reply [{"success": false}] without an ["error"]
    key gives a result whose [success] is false and whose [error] is
    [None]. *)
Lemma error_iff_not_success_fails :
  exists r,
    fst (send_request bare_failure 7 "probe" 0%nat) = Ok r /\
    ~ (error_set r = true <-> success r = false).
Proof.
  eexists. split; [reflexivity |].
  cbn. intros [_ H]. specialize (H eq_refl). discriminate.
Qed.

(** C1, amended. [send_request] always returns a result. When the [try]
    block raises, [success] is false and [error] is [str(e)] (not [None]).
    When the server replies with a dictionary, [success] and [error] are
    read from it independently ([success] defaults to false, [error] to
    [None]), so [error] is set exactly when [success] is false if and only
    if the reply itself pairs them that way. *)
Theorem error_and_success_by_path a id idval :
  exists r,
    fst (send_request a id idval 0%nat) = Ok r /\
    (forall e, failure_of a idval = Some e ->
       success r = false /\ error r = Some (exn_str e)) /\
    (forall rsp o, reply_of a idval = Some (rsp, o) ->
       success r = or_default (f_success o) false /\
       error r = f_error o /\
       ((error r <> None <-> success r = false) <->
        (f_error o <> None <-> or_default (f_success o) false = false))).
Proof.
  destruct (failure_or_reply a idval) as [[e F] | (rsp & o & R)].
  - destruct (send_request_failure a id idval e F) as (k & E & _).
    rewrite E. eexists. split; [reflexivity |]. split.
    + intros e' F'. rewrite F in F'. injection F' as <-. now split.
    + intros rsp o R. exfalso. revert F R. unfold failure_of, reply_of.
      destruct (att_net a idval) as [? | r0]; [discriminate |].
      destruct (json r0) as [? | [? | ?]]; discriminate.
  - rewrite (send_request_reply a id idval rsp o R).
    eexists. split; [reflexivity |]. split.
    + intros e F. exfalso. revert F R. unfold failure_of, reply_of.
      destruct (att_net a idval) as [? | r0]; [discriminate |].
      destruct (json r0) as [? | [? | ?]]; discriminate.
    + intros rsp' o' R'. rewrite R in R'. injection R' as <- <-.
      cbn. repeat split; tauto.
Qed.



End RequestIssuer.

(** ** A small program logic for the monad *)

Module Logic.
Import Py.
Local Open Scope py_scope.

(** [hoare P c Q E]: from a state in [P], [c] either returns [a] in a state
    satisfying [Q a], or stops by an exception or for lack of fuel in a
    state satisfying [E]. With [E] empty it says that [c] returns. *)
Definition hoare {St A} (P : St -> Prop) (c : M St A)
    (Q : A -> St -> Prop) (E : St -> Prop) : Prop :=
  forall s, P s ->
    match c s with
    | (Ok a, s') => Q a s'
    | (_, s') => E s'
    end.

Definition never {St} : St -> Prop := fun _ => False.

Section Rules.
Context {St : Type}.
Implicit Types (P E : St -> Prop).

Lemma hoare_ret {A} P (a : A) (Q : A -> St -> Prop) E :
  (forall s, P s -> Q a s) -> hoare P (ret a) Q E.
Proof. intros H s Hs. cbn. auto. Qed.

Lemma hoare_bind {A B} P (c : M St A) (k : A -> M St B) R Q E :
  hoare P c R E ->
  (forall a, hoare (R a) (k a) Q E) ->
  hoare P (bind c k) Q E.
Proof.
  intros Hc Hk s Hs. unfold bind. specialize (Hc s Hs).
  destruct (c s) as [[a | e |] s']; auto.
  apply Hk, Hc.
Qed.

Lemma hoare_conseq {A} P P' (c : M St A) (Q Q' : A -> St -> Prop) E E' :
  hoare P' c Q' E' ->
  (forall s, P s -> P' s) ->
  (forall a s, Q' a s -> Q a s) ->
  (forall s, E' s -> E s) ->
  hoare P c Q E.
Proof.
  intros Hc HP HQ HE s Hs. specialize (Hc s (HP s Hs)).
  destruct (c s) as [[a | e |] s']; auto.
Qed.

Lemma hoare_if {A} P (b : bool) (c1 c2 : M St A) Q E :
  (b = true -> hoare P c1 Q E) ->
  (b = false -> hoare P c2 Q E) ->
  hoare P (if b then c1 else c2) Q E.
Proof. destruct b; auto. Qed.

(** The invariant of a [for] loop speaks of the items already visited. *)
Lemma hoare_for_each {A B} (I : list A -> B -> St -> Prop) E
    (body : A -> B -> M St B) :
  (forall done x acc,
     hoare (I done acc) (body x acc) (fun acc' => I (done ++ [x]) acc') E) ->
  forall xs done acc,
    hoare (I done acc) (for_each xs acc body) (fun acc' => I (done ++ xs) acc') E.
Proof.
  intros Hbody xs. induction xs as [| x xs IH]; intros done acc.
  - apply hoare_ret. intros s Hs. now rewrite app_nil_r.
  - cbn [for_each]. eapply hoare_bind; [apply Hbody |].
    intros acc'. eapply hoare_conseq; [apply (IH (done ++ [x]) acc') | auto | | auto].
    intros a s H. rewrite <- app_assoc in H. exact H.
Qed.

(** A [while] loop keeps its invariant, also when it is cut off. *)
Lemma hoare_while {B} (I Ib : B -> St -> Prop) E
    (cond : B -> M St bool) (body : B -> M St B) :
  (forall acc s, I acc s -> E s) ->
  (forall acc, hoare (I acc) (cond acc)
                 (fun b s => if b then Ib acc s else I acc s) E) ->
  (forall acc, hoare (Ib acc) (body acc) I E) ->
  forall fuel acc, hoare (I acc) (while fuel cond body acc) I E.
Proof.
  intros HE Hcond Hbody fuel.
  induction fuel as [| fuel IH]; intros acc.
  - intros s Hs. cbn. eauto.
  - cbn [while]. eapply hoare_bind; [apply Hcond |].
    intros [|].
    + eapply hoare_bind; [apply Hbody | apply IH].
    + apply hoare_ret. auto.
Qed.

Lemma hoare_modify (f : St -> St) P (Q : unit -> St -> Prop) E :
  (forall s, P s -> Q tt (f s)) -> hoare P (modify f) Q E.
Proof. intros H s Hs. cbn. auto. Qed.

(** A fact that does not depend on the state moves out of the
    precondition. *)
Lemma hoare_assume {A} (fact : Prop) P (c : M St A) (Q : A -> St -> Prop) E :
  (fact -> hoare P c Q E) ->
  hoare (fun s => fact /\ P s) c Q E.
Proof. intros H s [Hf Hs]. now apply H. Qed.

(** A computation that cannot fail and leaves the state alone. *)
Lemma hoare_pure {A} P (c : M St A) (Q : A -> St -> Prop) E :
  (forall s, exists a, c s = (Ok a, s) /\ (P s -> Q a s)) ->
  hoare P c Q E.
Proof.
  intros H s Hs. destruct (H s) as (a & -> & HQ). auto.
Qed.

End Rules.

(** Division returns the quotient or raises, and leaves the state alone. *)
Lemma hoare_div {St} (P : St -> Prop) (a b : Q) :
  hoare P (div a b) (fun q s => P s /\ ~ (b == 0)%Q /\ q = (a / b)%Q) P.
Proof.
  intros s Hs. unfold div.
  destruct (Qeq_bool b 0) eqn:Hb; cbn; [exact Hs |].
  repeat split; auto. now apply Qeq_bool_neq.
Qed.

Lemma div_nonzero {St} (a b : Q) (s : St) :
  ~ (b == 0)%Q -> div a b s = (Ok (a / b)%Q, s).
Proof.
  intros Hb. unfold div.
  destruct (Qeq_bool b 0) eqn:E; [| reflexivity].
  apply Qeq_bool_iff in E. contradiction.
Qed.

(** *** Comparisons *)

Lemma Qltb_lt x y : Qltb x y = true <-> (x < y)%Q.
Proof.
  unfold Qltb. rewrite negb_true_iff, <- not_true_iff_false, Qle_bool_iff.
  split; [apply Qnot_le_lt | apply Qlt_not_le].
Qed.

Lemma Qltb_ge x y : Qltb x y = false <-> (y <= x)%Q.
Proof.
  unfold Qltb. rewrite negb_false_iff, Qle_bool_iff. reflexivity.
Qed.

Lemma Qgtb_gt x y : Qgtb x y = true <-> (y < x)%Q.
Proof. apply Qltb_lt. Qed.

Lemma Qgtb_le x y : Qgtb x y = false <-> (x <= y)%Q.
Proof. apply Qltb_ge. Qed.

Lemma Qneb_neq x y : Qneb x y = true <-> ~ (x == y)%Q.
Proof.
  unfold Qneb. rewrite negb_true_iff, <- not_true_iff_false, Qeq_bool_iff.
  reflexivity.
Qed.

(** *** Ranges *)

Lemma range_length n : List.length (range n) = Z.to_nat n.
Proof. unfold range. now rewrite length_map, length_seq. Qed.


Lemma nth_error_range n i :
  (0 <= i < n)%Z -> nth_error (range n) (Z.to_nat i) = Some i.
Proof.
  intros H. unfold range.
  rewrite nth_error_map, nth_error_seq.
  destruct (Nat.ltb_spec (Z.to_nat i) (Z.to_nat n)) as [_ | Hge]; [| lia].
  cbn. f_equal. lia.
Qed.

Lemma map_of_nat_seq_shift k n start :
  map Z.of_nat (seq (k + start) n) =
  map (fun i => Z.of_nat k + i)%Z (map Z.of_nat (seq start n)).
Proof.
  revert start. induction n as [| n IH]; intros start; [reflexivity |].
  cbn [seq map]. f_equal; [lia |].
  rewrite <- IH. now rewrite Nat.add_succ_r.
Qed.

Lemma range_app a b :
  (0 <= a)%Z -> (0 <= b)%Z ->
  range (a + b) = range a ++ map (fun i => a + i)%Z (range b).
Proof.
  intros Ha Hb. unfold range.
  rewrite Z2Nat.inj_add, seq_app, map_app by lia.
  f_equal. rewrite (Nat.add_comm 0), map_of_nat_seq_shift.
  now rewrite Z2Nat.id by lia.
Qed.

End Logic.

(** ** The load scheduler *)

Module LoadScheduler.
Import Py AdvancedBenchmark Logic.
Local Open Scope string_scope.
Local Open Scope Z_scope.
Local Open Scope py_scope.

(** A world in which every connection is refused, the clock advances by one
    second at each reading and the draws are constant. *)
Definition dead_world : world :=
  {| w_clock := fun k => inject_Z (Z.of_nat k);
     w_rand := fun _ => 1234;
     w_attempt := fun _ => RequestIssuer.refused |}.

Section Primitives.
Variable w : world.
Variable J : list Q -> Prop.       (* a property of the delays slept so far *)
Variable E : sched -> Prop.

Lemma hoare_now : hoare (fun s => J (slept s)) (now w) (fun _ s => J (slept s)) E.
Proof. intros s Hs. exact Hs. Qed.

Lemma hoare_randint : hoare (fun s => J (slept s)) (randint w) (fun _ s => J (slept s)) E.
Proof. intros s Hs. exact Hs. Qed.

Lemma hoare_sleep delay :
  (forall ds, J ds -> J (delay :: ds)) ->
  hoare (fun s => J (slept s)) (sleep delay) (fun _ s => J (slept s)) E.
Proof. intros H. apply hoare_modify. intros s Hs. cbn. auto. Qed.

Lemma await_send_request_returns id idval s :
  exists r, await_send_request w id idval s = (Ok r, s) /\ request_id r = id.
Proof.
  unfold await_send_request.
  destruct (RequestIssuer.send_request_returns (w_attempt w id) id idval)
    as (r & k & -> & Hid).
  exists r. now split.
Qed.

Lemma hoare_await id idval :
  hoare (fun s => J (slept s)) (await_send_request w id idval)
        (fun r s => request_id r = id /\ J (slept s)) E.
Proof.
  apply hoare_pure. intros s.
  destruct (await_send_request_returns id idval s) as (r & Hr & Hid).
  exists r. auto.
Qed.

End Primitives.

Section Burst.
Variable w : world.
Variable burst_size : Z.
Variable burst_interval : Q.

(** The request ids of one burst, in the order of issue. *)
Definition burst_ids (burst : Z) : list Z :=
  map (fun i => burst * burst_size + i) (range burst_size).

Definition is_task (burst i : Z) (t : M sched RequestResult) : Prop :=
  exists idval, t = await_send_request w (burst * burst_size + i) idval.

Lemma gather_tasks burst (idxs : list Z) tasks :
  Forall2 (is_task burst) idxs tasks ->
  forall s, exists rs,
    gather tasks s = (Ok rs, s) /\
    map request_id rs = map (fun i => burst * burst_size + i) idxs.
Proof.
  induction 1 as [| i t idxs tasks [idval ->] _ IH]; intros s.
  - exists []. now split.
  - cbn [gather]. unfold bind.
    destruct (await_send_request_returns w (burst * burst_size + i) idval s)
      as (r & -> & Hid).
    destruct (IH s) as (rs & -> & Hrs).
    exists (r :: rs). cbn. now rewrite Hid, Hrs.
Qed.

Lemma burst_ids_all (k : nat) :
  0 <= burst_size ->
  flat_map burst_ids (range (Z.of_nat k)) = range (Z.of_nat k * burst_size).
Proof.
  intros Hbs. induction k as [| k IH]; [reflexivity |].
  rewrite Nat2Z.inj_succ, <- Z.add_1_r.
  rewrite (range_app (Z.of_nat k) 1) by lia.
  rewrite flat_map_app, IH.
  change (range 1) with [0]. cbn [map flat_map].
  rewrite app_nil_r, Z.add_0_r.
  rewrite Z.mul_add_distr_r, Z.mul_1_l.
  now rewrite (range_app (Z.of_nat k * burst_size) burst_size) by nia.
Qed.

Lemma run_burst_test_ids :
  hoare (fun _ => True) (run_burst_test w burst_size burst_interval)
        (fun results _ => map request_id results = flat_map burst_ids (range 5))
        never.
Proof.
  unfold run_burst_test.
  eapply hoare_conseq;
    [ apply (hoare_for_each
               (fun done results _ => map request_id results = flat_map burst_ids done)
               never) with (done := [])
    | reflexivity | auto | auto ].
  intros done burst results.
  eapply hoare_bind; [apply (hoare_now w (fun _ => _)) |]. intros burst_start.
  eapply hoare_bind.
  { eapply hoare_conseq;
      [ apply (hoare_for_each
                 (fun idxs tasks (_ : sched) =>
                    map request_id results = flat_map burst_ids done /\
                    Forall2 (is_task burst) idxs tasks)
                 never) with (done := [])
      | intros s Hs; split; [exact Hs | constructor]
      | intros tasks s Hs; exact Hs
      | auto ].
    intros idxs i tasks.
    eapply hoare_bind; [apply (hoare_randint w (fun _ => _)) |]. intros r.
    apply hoare_ret. intros s [Hres Htasks]. split; [exact Hres |].
    apply Forall2_app; [exact Htasks |].
    constructor; [| constructor]. eexists. reflexivity. }
  intros tasks. cbn [app].
  apply (hoare_conseq _ (fun s => (map request_id results = flat_map burst_ids done /\
                                   Forall2 (is_task burst) (range burst_size) tasks) /\ True)
           _ _ (fun acc' _ => map request_id acc' = flat_map burst_ids (done ++ [burst]))
           _ never); [| tauto | auto | auto].
  apply hoare_assume. intros [Hres Htasks].
  eapply hoare_bind.
  { apply (hoare_pure _ _ (fun rs (_ : sched) => map request_id rs = burst_ids burst)).
    intros s. destruct (gather_tasks burst _ _ Htasks s) as (rs & Hg & Hrs).
    exists rs. auto. }
  intros burst_results.
  apply (hoare_conseq _ (fun s => map request_id burst_results = burst_ids burst /\ True)
           _ _ (fun acc' _ => map request_id acc' = flat_map burst_ids (done ++ [burst]))
           _ never); [| tauto | auto | auto].
  apply hoare_assume. intros Hrs.
  eapply hoare_bind; [apply (hoare_now w (fun _ => True)) |]. intros burst_end.
  eapply hoare_bind with (R := fun _ _ => True).
  { apply hoare_if; intros _.
    - apply (hoare_sleep (fun _ => True)). auto.
    - apply hoare_ret. auto. }
  intros _. apply hoare_ret. intros s _.
  rewrite map_app, flat_map_app, Hres, Hrs. cbn. now rewrite app_nil_r.
Qed.

End Burst.

(** *** Pacing of the rate loops *)

Definition all_positive (delays : list Q) : Prop := Forall (fun d => (0 < d)%Q) delays.

(** The delay expression of the ramp loop,
    [1.0 / current_rps if current_rps > 0 else 1.0], never raises, gives the
    fallback 1 for a rate that is not positive, and is always positive. *)
Lemma ramp_delay_guarded (current_rps : Q) (s : sched) :
  exists delay,
    (if Qgtb current_rps 0 then div 1 current_rps else ret 1%Q) s = (Ok delay, s) /\
    ((current_rps <= 0)%Q -> delay = 1%Q) /\
    ((0 < current_rps)%Q -> delay = (1 / current_rps)%Q) /\
    (0 < delay)%Q.
Proof.
  destruct (Qgtb current_rps 0) eqn:G.
  - apply Qgtb_gt in G. exists (1 / current_rps)%Q.
    rewrite div_nonzero by (intros H; rewrite H in G; now apply Qlt_irrefl in G).
    repeat split; auto.
    + intros H. exfalso. apply (Qlt_irrefl 0). eapply Qlt_le_trans; eauto.
    + unfold Qdiv. rewrite Qmult_1_l. now apply Qinv_lt_0_compat.
  - apply Qgtb_le in G. exists 1%Q. repeat split; auto.
    intros H. exfalso. apply (Qlt_irrefl 0). eapply Qlt_le_trans; eauto.
Qed.

(** Every delay the ramp loop passes to [asyncio.sleep] is positive,
    whatever the rates, the duration and the clock, and however the run
    ends. *)
Lemma ramp_delays_positive w fuel start_rps end_rps duration :
  hoare (fun s => all_positive (slept s))
        (run_ramp_test w fuel start_rps end_rps duration)
        (fun _ s => all_positive (slept s))
        (fun s => all_positive (slept s)).
Proof.
  unfold run_ramp_test.
  eapply hoare_bind; [apply hoare_now |]. intros start_time.
  eapply hoare_bind with (R := fun _ s => all_positive (slept s));
    [| intros vars; apply hoare_ret; auto].
  apply (hoare_while (fun _ s => all_positive (slept s))
                     (fun _ s => all_positive (slept s))); [auto | |].
  - intros acc. eapply hoare_bind; [apply hoare_now |]. intros t.
    apply hoare_ret. intros s Hs. now destruct (Qltb _ _).
  - intros acc. eapply hoare_bind; [apply hoare_now |]. intros t.
    eapply hoare_bind; [apply hoare_div |]. intros progress.
    eapply hoare_bind with (R := fun delay s => all_positive (slept s) /\ (0 < delay)%Q).
    { intros s [Hs _].
      destruct (ramp_delay_guarded
                  (inject_Z start_rps + inject_Z (end_rps - start_rps) * progress) s)
        as (delay & -> & _ & _ & Hpos).
      now split. }
    intros delay.
    apply (hoare_conseq _ (fun s => (0 < delay)%Q /\ all_positive (slept s))
             _ _ (fun _ s => all_positive (slept s))
             _ (fun s => all_positive (slept s))); [| tauto | auto | auto].
    apply hoare_assume. intros Hpos.
    eapply hoare_bind; [apply hoare_randint |]. intros r.
    eapply hoare_bind; [apply hoare_await |]. intros result.
    eapply hoare_bind with (R := fun _ s => all_positive (slept s)).
    { eapply hoare_conseq;
        [ apply (hoare_sleep all_positive (fun s => all_positive (slept s)))
        | intros s [_ Hs]; exact Hs | auto | auto ].
      intros ds Hds. now constructor. }
    intros _. apply hoare_ret. auto.
Qed.

Definition all_negative (delays : list Q) : Prop := Forall (fun d => (d < 0)%Q) delays.

(** The sustained loop computes [delay = 1.0 / rps] once and sleeps it after
    every request: at a negative rate every delay is negative. *)
Lemma sustained_delays_negative w fuel rps duration :
  rps < 0 ->
  hoare (fun s => all_negative (slept s))
        (run_sustained_test w fuel rps duration)
        (fun _ s => all_negative (slept s))
        (fun s => all_negative (slept s)).
Proof.
  intros Hrps. unfold run_sustained_test.
  eapply hoare_bind; [apply hoare_now |]. intros start_time.
  eapply hoare_bind; [apply hoare_div |]. intros delay.
  apply (hoare_conseq _ (fun s => (delay < 0)%Q /\ all_negative (slept s))
           _ _ (fun _ s => all_negative (slept s))
           _ (fun s => all_negative (slept s))); [| | auto | auto].
  2: { intros s (Hs & _ & ->). split; [| exact Hs].
       assert (H : (inject_Z rps < 0)%Q)
         by (change 0%Q with (inject_Z 0); now rewrite <- Zlt_Qlt).
       unfold Qdiv. rewrite Qmult_1_l.
       pose proof (Qinv_lt_0_compat (- inject_Z rps)) as Hinv.
       assert (Hopp : (/ - inject_Z rps == - / inject_Z rps)%Q).
       { destruct (inject_Z rps) as [[| n | n] d]; reflexivity. }
       rewrite Hopp in Hinv. lra. }
  apply hoare_assume. intros Hneg.
  eapply hoare_bind with (R := fun _ s => all_negative (slept s));
    [| intros vars; apply hoare_ret; auto].
  apply (hoare_while (fun _ s => all_negative (slept s))
                     (fun _ s => all_negative (slept s))); [auto | |].
  - intros acc. eapply hoare_bind; [apply hoare_now |]. intros t.
    apply hoare_ret. intros s Hs. now destruct (Qltb _ _).
  - intros acc.
    eapply hoare_bind; [apply hoare_randint |]. intros r.
    eapply hoare_bind; [apply hoare_await |]. intros result.
    eapply hoare_bind with (R := fun _ s => all_negative (slept s)).
    { apply hoare_if; intros _.
      - eapply hoare_bind; [| intros t; apply hoare_ret; intros s Hs; exact Hs].
        eapply hoare_conseq;
          [ apply (hoare_now w all_negative (fun s => all_negative (slept s)))
          | intros s [_ Hs]; exact Hs | auto | auto ].
      - apply hoare_ret. intros s [_ Hs]. exact Hs. }
    intros _.
    eapply hoare_bind with (R := fun _ s => all_negative (slept s)).
    { apply (hoare_sleep all_negative (fun s => all_negative (slept s))).
      intros ds Hds. now constructor. }
    intros _. apply hoare_ret. auto.
Qed.

(** C2, the sustained loop. At [rps = 0] the expression [1.0 / rps] raises
    [ZeroDivisionError] before the first request, for every world, fuel,
    duration and starting state. At [rps < 0] every delay passed to
    [asyncio.sleep] is negative. No fallback delay is substituted. *)
Theorem sustained_rate_not_neutralized w fuel duration :
  (forall s, fst (run_sustained_test w fuel 0 duration s) =
             Raise (Exn ZeroDivisionError "float division by zero")) /\
  (forall rps s, rps < 0 -> all_negative (slept s) ->
     all_negative (slept (snd (run_sustained_test w fuel rps duration s)))).
Proof.
  split; [reflexivity |].
  intros rps s Hrps Hs.
  pose proof (sustained_delays_negative w fuel rps duration Hrps s Hs) as H.
  destruct (run_sustained_test w fuel rps duration s) as [[results | e |] s']; exact H.
Qed.

Lemma sustained_rate_not_neutralized_witness :
  all_negative (slept (snd (run_sustained_test dead_world 5 (-2) 2 sched0))).
Proof.
  apply (proj2 (sustained_rate_not_neutralized dead_world 5 2) (-2) sched0).
  - lia.
  - constructor.
Defined.

(** The sustained loop at a negative rate sleeps a negative delay: with
    [rps = -2] the delay is [-1/2]. *)
Lemma sustained_negative_rate_sleeps_negative :
  exists results s',
    run_sustained_test dead_world 5 (-2) 2 sched0 = (Ok results, s') /\
    slept s' = [(- (1 # 2))%Q].
Proof. vm_compute. do 2 eexists. split; reflexivity. Qed.

(** The ramp loop under the same non-positive rates sleeps the fallback
    delay of one second. *)
Lemma ramp_negative_rate_sleeps_one :
  exists results s',
    run_ramp_test dead_world 10 (-2) (-1) 4 sched0 = (Ok results, s') /\
    slept s' = [1%Q; 1%Q].
Proof. vm_compute. do 2 eexists. split; reflexivity. Qed.

(** C6. For every [burst_size >= 1] the burst strategy returns exactly
    [5 * burst_size] results, and the result at position
    [burst * burst_size + i] carries [request_id = burst * burst_size + i]:
    five contiguous groups, ordered by burst and then by request index. *)
Theorem burst_results_grouped w burst_size burst_interval :
  1 <= burst_size ->
  exists results s',
    run_burst_test w burst_size burst_interval sched0 = (Ok results, s') /\
    len results = 5 * burst_size /\
    forall burst i, 0 <= burst < 5 -> 0 <= i < burst_size ->
      exists r,
        nth_error results (Z.to_nat (burst * burst_size + i)) = Some r /\
        request_id r = burst * burst_size + i.
Proof.
  intros Hbs.
  pose proof (run_burst_test_ids w burst_size burst_interval sched0 I) as H.
  destruct (run_burst_test w burst_size burst_interval sched0)
    as [[results | e |] s']; try contradiction.
  assert (H5 : flat_map (burst_ids burst_size) (range 5) = range (5 * burst_size))
    by (apply (burst_ids_all burst_size 5); lia).
  rewrite H5 in H.
  exists results, s'. split; [reflexivity |]. split.
  - unfold len. rewrite <- (length_map request_id), H, range_length. lia.
  - intros burst i Hb Hi.
    assert (Hk : 0 <= burst * burst_size + i < 5 * burst_size) by nia.
    pose proof (nth_error_range _ _ Hk) as Hn.
    rewrite <- H, nth_error_map in Hn.
    destruct (nth_error results (Z.to_nat (burst * burst_size + i))) as [r |];
      [| discriminate].
    exists r. split; [reflexivity |]. now injection Hn.
Qed.

Lemma burst_results_grouped_witness :
  exists results s',
    run_burst_test dead_world 20 2 sched0 = (Ok results, s') /\
    len results = 5 * 20 /\
    forall burst i, 0 <= burst < 5 -> 0 <= i < 20 ->
      exists r,
        nth_error results (Z.to_nat (burst * 20 + i)) = Some r /\
        request_id r = burst * 20 + i.
Proof.
  apply (burst_results_grouped dead_world 20 2). lia.
Defined.

End LoadScheduler.

(** ** Sums *)

Module Sums.
Import Py Logic.
Local Open Scope Z_scope.

Lemma fold_left_Qplus (xs : list Q) (a : Q) :
  (fold_left Qplus xs a == a + sum xs)%Q.
Proof.
  unfold sum. revert a. induction xs as [| x xs IH]; intros a; cbn [fold_left].
  - ring.
  - rewrite (IH (a + x)%Q), (IH (0 + x)%Q). ring.
Qed.

Lemma sum_cons (x : Q) (xs : list Q) : (sum (x :: xs) == x + sum xs)%Q.
Proof.
  unfold sum at 1. cbn [fold_left]. rewrite fold_left_Qplus. ring.
Qed.

Lemma sum_nil : sum [] = 0%Q.
Proof. reflexivity. Qed.

Lemma fold_left_Zplus (xs : list Z) (a : Z) :
  fold_left Z.add xs a = a + sumZ xs.
Proof.
  unfold sumZ. revert a. induction xs as [| x xs IH]; intros a; cbn [fold_left].
  - lia.
  - rewrite (IH (a + x)), (IH (0 + x)). lia.
Qed.

Lemma sumZ_cons (x : Z) (xs : list Z) : sumZ (x :: xs) = x + sumZ xs.
Proof.
  unfold sumZ at 1. cbn [fold_left]. rewrite fold_left_Zplus. lia.
Qed.

Lemma sumZ_app (xs ys : list Z) : sumZ (xs ++ ys) = sumZ xs + sumZ ys.
Proof.
  induction xs as [| x xs IH]; [reflexivity |].
  cbn [app]. rewrite !sumZ_cons, IH. lia.
Qed.

Lemma range_succ (n : nat) :
  range (Z.of_nat (S n)) = range (Z.of_nat n) ++ [Z.of_nat n].
Proof.
  rewrite Nat2Z.inj_succ, <- Z.add_1_r, range_app by lia.
  change (range 1) with [0]. cbn [map]. now rewrite Z.add_0_r.
Qed.

(** The sums of the positions [0 .. n-1] and of their squares. *)
Lemma sum_positions (n : nat) :
  2 * sumZ (range (Z.of_nat n)) = Z.of_nat n * (Z.of_nat n - 1).
Proof.
  induction n as [| n IH]; [reflexivity |].
  rewrite range_succ, sumZ_app, sumZ_cons. change (sumZ []) with 0. lia.
Qed.

Lemma sum_square_positions (n : nat) :
  6 * sumZ (map (fun xi => xi * xi) (range (Z.of_nat n))) =
  (Z.of_nat n - 1) * Z.of_nat n * (2 * Z.of_nat n - 1).
Proof.
  induction n as [| n IH]; [reflexivity |].
  rewrite range_succ, map_app, sumZ_app. cbn [map]. rewrite sumZ_cons.
  change (sumZ []) with 0. lia.
Qed.

(** The denominator of the regression slope over the positions
    [0 .. n-1]. *)
Lemma slope_denominator (n : nat) :
  let x := range (Z.of_nat n) in
  12 * (Z.of_nat n * sumZ (map (fun xi => xi * xi) x) - sumZ x * sumZ x) =
  Z.of_nat n * Z.of_nat n * (Z.of_nat n - 1) * (Z.of_nat n + 1).
Proof.
  cbv zeta.
  pose proof (sum_positions n) as H1.
  pose proof (sum_square_positions n) as H2.
  set (m := Z.of_nat n) in *.
  set (S1 := sumZ (range m)) in *.
  set (S2 := sumZ (map (fun xi => xi * xi) (range m))) in *.
  replace (12 * (m * S2 - S1 * S1)) with (2 * m * (6 * S2) - 3 * ((2 * S1) * (2 * S1)))
    by ring.
  rewrite H1, H2. ring.
Qed.

Lemma slope_denominator_positive (n : Z) :
  2 <= n ->
  let x := range n in
  0 < n * sumZ (map (fun xi => xi * xi) x) - sumZ x * sumZ x.
Proof.
  intros Hn. cbv zeta.
  pose proof (slope_denominator (Z.to_nat n)) as H. cbv zeta in H.
  rewrite Z2Nat.id in H by lia.
  assert (0 < n * n * (n - 1) * (n + 1)) by nia.
  lia.
Qed.

End Sums.

(** ** Trend detection *)

Module Trend.
Import Py AdvancedBenchmark Logic Sums.
Local Open Scope string_scope.
Local Open Scope Z_scope.





Section Moments.
Variables a b : Q.



End Moments.







(** The sums [analyze_trend] forms, and its slope expression. *)
Definition sum_x (data : list Q) : Z := sumZ (range (len data)).
Definition sum_x2 (data : list Q) : Z := sumZ (map (fun xi => xi * xi) (range (len data))).
Definition sum_xy (data : list Q) : Q :=
  sum (map (fun p : Z * Q => inject_Z (fst p) * snd p)%Q (combine (range (len data)) data)).
Definition denominator (data : list Q) : Z :=
  len data * sum_x2 data - sum_x data * sum_x data.

Lemma denominator_positive data : 2 <= len data -> 0 < denominator data.
Proof.
  intros H. unfold denominator, sum_x, sum_x2.
  exact (slope_denominator_positive _ H).
Qed.


Lemma inject_Z_nonzero z : z <> 0 -> ~ (inject_Z z == 0)%Q.
Proof.
  intros Hz H. apply Hz. unfold Qeq in H. cbn in H. lia.
Qed.










End Trend.

(** ** The performance classifier *)

Module Classifier.
Import Py AnalyzeTiming Logic.
Local Open Scope string_scope.
Local Open Scope Q_scope.

Definition consistency_of (t : string * string * string) : string := fst (fst t).
Definition speed_of (t : string * string * string) : string := snd t.

Ltac tiers :=
  repeat match goal with
         | |- context [Qltb ?x ?y] =>
             let H := fresh "H" in
             destruct (Qltb x y) eqn:H;
             [apply Qltb_lt in H | apply Qltb_ge in H]
         end;
  cbn; repeat split; intros; try discriminate; try reflexivity; try lra.

(** C8. [categorize_performance] is a function of [cv] and the mean alone.
    Its consistency tier is Excellent, Good, Fair or Poor by the thresholds
    0.1, 0.25 and 0.5 on [cv]; its speed tier is Fast, Moderate, Slow or
    Very Slow by the thresholds 500, 1000 and 2000 on the mean. *)
Theorem categorize_performance_tiers (cv mean : Q) :
  let t := categorize_performance cv mean in
  ((consistency_of t = "Excellent" <-> cv < 1 # 10) /\
   (consistency_of t = "Good" <-> 1 # 10 <= cv /\ cv < 25 # 100) /\
   (consistency_of t = "Fair" <-> 25 # 100 <= cv /\ cv < 5 # 10) /\
   (consistency_of t = "Poor" <-> 5 # 10 <= cv)) /\
  ((speed_of t = "Fast" <-> mean < 500) /\
   (speed_of t = "Moderate" <-> 500 <= mean /\ mean < 1000) /\
   (speed_of t = "Slow" <-> 1000 <= mean /\ mean < 2000) /\
   (speed_of t = "Very Slow" <-> 2000 <= mean)) /\
  (consistency_of (categorize_performance (5 # 100) 300) = "Excellent" /\
   speed_of (categorize_performance (5 # 100) 300) = "Fast") /\
  (consistency_of (categorize_performance (6 # 10) 2500) = "Poor" /\
   speed_of (categorize_performance (6 # 10) 2500) = "Very Slow").
Proof.
  cbv zeta. split; [| split; [| split; split; reflexivity]].
  - unfold categorize_performance, consistency_of. tiers.
  - unfold categorize_performance, speed_of.
    destruct (if Qltb cv (1 # 10) then _ else _) as [c d]. tiers.
Qed.

End Classifier.

(** ** Computations that return *)

Module Total.
Import Py Logic.
Local Open Scope Z_scope.
Local Open Scope py_scope.

(** [returns c Q]: [c] raises nothing, leaves the state alone and returns a
    value satisfying [Q]. *)
Definition returns {St A} (c : M St A) (Q : A -> Prop) : Prop :=
  forall s, exists a, c s = (Ok a, s) /\ Q a.

Section Rules.
Context {St : Type}.

Lemma returns_ret {A} (a : A) (Q : A -> Prop) : Q a -> returns (St := St) (ret a) Q.
Proof. intros H s. exists a. now split. Qed.

Lemma returns_bind {A B} (c : M St A) (k : A -> M St B) (R : A -> Prop) (Q : B -> Prop) :
  returns c R ->
  (forall a, R a -> returns (k a) Q) ->
  returns (bind c k) Q.
Proof.
  intros Hc Hk s. unfold bind.
  destruct (Hc s) as (a & -> & Ha). apply (Hk a Ha).
Qed.

Lemma returns_weaken {A} (c : M St A) (Q Q' : A -> Prop) :
  returns c Q' -> (forall a, Q' a -> Q a) -> returns c Q.
Proof.
  intros Hc HQ s. destruct (Hc s) as (a & E & Ha). exists a. auto.
Qed.

Lemma returns_for_each {A B} (I : list A -> B -> Prop) (body : A -> B -> M St B) :
  (forall done x acc, I done acc -> returns (body x acc) (I (done ++ [x]))) ->
  forall xs done acc, I done acc -> returns (for_each xs acc body) (I (done ++ xs)).
Proof.
  intros Hbody xs. induction xs as [| x xs IH]; intros done acc Hacc.
  - apply returns_ret. now rewrite app_nil_r.
  - cbn [for_each]. eapply returns_bind; [apply (Hbody done x acc Hacc) |].
    intros acc' Hacc'. eapply returns_weaken; [apply (IH (done ++ [x]) acc' Hacc') |].
    intros a H. rewrite <- app_assoc in H. exact H.
Qed.

Lemma returns_div (a b : Q) :
  ~ (b == 0)%Q -> returns (St := St) (div a b) (fun q => q = (a / b)%Q).
Proof. intros Hb s. exists (a / b)%Q. split; [now apply div_nonzero | reflexivity]. Qed.

Lemma returns_index {A} (xs : list A) (i : Z) :
  0 <= i < len xs ->
  returns (St := St) (index xs i) (fun x => nth_error xs (Z.to_nat i) = Some x).
Proof.
  intros Hi s. unfold index.
  destruct (Z.ltb_spec i 0); [lia |].
  destruct (Z.ltb_spec i 0); [lia |].
  destruct (Z.leb_spec (len xs) i); [lia |]. cbn [orb].
  destruct (nth_error xs (Z.to_nat i)) as [x |] eqn:E.
  - exists x. now split.
  - apply nth_error_None in E. unfold len in Hi. lia.
Qed.

(** [xs[-1]] is the last element of a list that is not empty. *)
Lemma returns_index_last {A} (xs : list A) :
  xs <> [] ->
  returns (St := St) (index xs (-1))
          (fun x => nth_error xs (List.length xs - 1) = Some x).
Proof.
  intros Hne s. unfold index. cbn [Z.ltb Z.compare].
  assert (0 < len xs) by (unfold len; destruct xs; [contradiction | cbn; lia]).
  destruct (Z.ltb_spec (len xs + -1) 0); [lia |].
  destruct (Z.leb_spec (len xs) (len xs + -1)); [lia |]. cbn [orb].
  replace (Z.to_nat (len xs + -1)) with (List.length xs - 1)%nat by (unfold len; lia).
  destruct (nth_error xs (List.length xs - 1)) as [x |] eqn:E.
  - exists x. now split.
  - apply nth_error_None in E. unfold len in *. lia.
Qed.

End Rules.

Lemma returns_run {A} (c : M unit A) (Q : A -> Prop) :
  returns c Q -> exists a, run c = Ok a /\ Q a.
Proof.
  intros H. destruct (H tt) as (a & E & Ha). exists a. unfold run. now rewrite E.
Qed.

(** *** Sorting keeps the length *)

Lemma length_insert_by {A} (key : A -> Q) (x : A) (xs : list A) :
  List.length (insert_by key x xs) = S (List.length xs).
Proof.
  induction xs as [| y ys IH]; [reflexivity |].
  cbn [insert_by]. destruct (Qltb _ _); cbn [List.length]; congruence.
Qed.

Lemma length_sorted_by {A} (key : A -> Q) (xs : list A) :
  List.length (sorted_by key xs) = List.length xs.
Proof.
  unfold sorted_by.
  enough (H : forall acc, List.length (fold_left (fun acc x => insert_by key x acc) xs acc)
                          = (List.length acc + List.length xs)%nat) by apply (H []).
  induction xs as [| x xs IH]; intros acc; cbn [fold_left List.length]; [lia |].
  rewrite IH, length_insert_by. lia.
Qed.

Lemma len_sorted (xs : list Q) : len (sorted xs) = len xs.
Proof. unfold len, sorted. now rewrite length_sorted_by. Qed.

Lemma len_positive {A} (x : A) (xs : list A) : 0 < len (x :: xs).
Proof. unfold len. cbn [List.length]. lia. Qed.

Lemma len_nonzero {A} (x : A) (xs : list A) : ~ (inject_Z (len (x :: xs)) == 0)%Q.
Proof.
  pose proof (len_positive x xs) as H. intros E. unfold Qeq in E. cbn in E. lia.
Qed.

End Total.

(** ** Outlier detection *)

Module Outliers.
Import Py AnalyzeTiming Logic Total.
Local Open Scope string_scope.
Local Open Scope Z_scope.

(** An [(index, value, score)] triple. *)
Definition is_triple (v : pyval) : Prop :=
  match v with
  | PTuple [PInt _; PFloat _; PFloat _] => True
  | PTuple [PInt _; PFloat _; PInt 0] => True
  | _ => False
  end.

Definition is_triple_list (v : pyval) : Prop :=
  exists triples, v = PList triples /\ Forall is_triple triples.

Section Shape.
Variable sqrt : Q -> Q.
Variable threshold : Q.

Lemma zscore_returns_triples (t : Q) (ts : list Q) :
  returns (St := unit) (detect_outliers sqrt (t :: ts) "zscore" threshold) is_triple_list.
Proof.
  unfold detect_outliers. cbn [String.eqb Ascii.eqb Bool.eqb].
  eapply returns_bind; [apply returns_div, len_nonzero |]. intros mean _.
  eapply returns_bind; [apply returns_div, len_nonzero |]. intros variance _.
  eapply returns_bind.
  - apply (returns_for_each (fun _ outliers => Forall is_triple outliers))
      with (done := []); [| constructor].
    intros done [i time] outliers Hacc. cbn [fst snd].
    eapply returns_bind with (R := fun _ => True).
    + destruct (Qneb (sqrt variance) 0) eqn:N.
      * apply Qneb_neq in N. eapply returns_weaken; [apply returns_div, N | auto].
      * now apply returns_ret.
    + intros z _. destruct (Qgtb z threshold); apply returns_ret; [| exact Hacc].
      apply Forall_app. split; [exact Hacc |]. now repeat constructor.
  - intros outliers H. apply returns_ret. now exists outliers.
Qed.

Lemma iqr_returns_triples (t : Q) (ts : list Q) :
  returns (St := unit) (detect_outliers sqrt (t :: ts) "iqr" threshold) is_triple_list.
Proof.
  unfold detect_outliers. cbn [String.eqb Ascii.eqb Bool.eqb].
  pose proof (len_positive t ts) as Hn. rewrite <- len_sorted in Hn.
  eapply returns_bind with (R := fun _ => True).
  { eapply returns_weaken; [apply returns_index | auto].
    split; [apply Z.div_pos; lia | apply Z.div_lt_upper_bound; lia]. }
  intros q1 _.
  eapply returns_bind with (R := fun _ => True).
  { eapply returns_weaken; [apply returns_index | auto].
    split; [apply Z.div_pos; lia | apply Z.div_lt_upper_bound; lia]. }
  intros q3 _.
  eapply returns_bind.
  - apply (returns_for_each (fun _ outliers => Forall is_triple outliers))
      with (done := []); [| constructor].
    intros done [i time] outliers Hacc. cbn [fst snd].
    destruct (_ || _); apply returns_ret; [| exact Hacc].
    apply Forall_app. split; [exact Hacc |]. now repeat constructor.
  - intros outliers H. apply returns_ret. now exists outliers.
Qed.

End Shape.

(** C9. On an empty list [detect_outliers] returns [[]] whatever the method.
    On a list that is not empty it returns a list of [(index, value, score)]
    triples for the methods ["zscore"] and ["iqr"], and [None] for every
    other method string. *)
Theorem detect_outliers_shape (sqrt : Q -> Q) (response_times : list Q)
    (method : string) (threshold : Q) :
  (response_times = [] ->
   run (detect_outliers sqrt response_times method threshold) = Ok (PList [])) /\
  (response_times <> [] ->
   (method = "zscore" \/ method = "iqr" ->
    exists v, run (detect_outliers sqrt response_times method threshold) = Ok v /\
              is_triple_list v) /\
   (method <> "zscore" -> method <> "iqr" ->
    run (detect_outliers sqrt response_times method threshold) = Ok PNone)).
Proof.
  split; [now intros -> |].
  intros Hne. destruct response_times as [| t ts]; [contradiction |]. split.
  - intros [-> | ->]; apply returns_run.
    + apply zscore_returns_triples.
    + apply iqr_returns_triples.
  - intros Hz Hi. unfold run, detect_outliers.
    destruct (String.eqb_spec method "zscore"); [contradiction |].
    destruct (String.eqb_spec method "iqr"); [contradiction |].
    reflexivity.
Qed.

Lemma detect_outliers_shape_witness :
  (exists v, run (detect_outliers sqrt15 [120; 118; 900; 121]%Q "iqr" 2) = Ok v /\
             is_triple_list v) /\
  run (detect_outliers sqrt15 [120; 118; 900; 121]%Q "median" 2) = Ok PNone.
Proof.
  pose proof (detect_outliers_shape sqrt15 [120; 118; 900; 121]%Q) as H.
  split.
  - apply (proj1 (proj2 (H "iqr" 2%Q) ltac:(discriminate))). now right.
  - apply (proj2 (proj2 (H "median" 2%Q) ltac:(discriminate))); discriminate.
Defined.

End Outliers.

(** ** Runs without a successful request *)

Module NoData.
Import Py Logic Total.
Local Open Scope string_scope.
Local Open Scope Z_scope.

Definition all_failed (results : list AdvancedBenchmark.RequestResult) : Prop :=
  Forall (fun r => AdvancedBenchmark.success r = false) results.

Definition no_rows_succeeded (data : list AnalyzeTiming.row) : Prop :=
  Forall (fun d => AnalyzeTiming.success d = false) data.

(** The summary carries the marker of a run without successes. *)
Definition no_success_marker (stats : pyval) : Prop :=
  dict_get "error" stats = Some (PStr "No successful requests").

(** What [generate_comprehensive_report] shows for such a run. *)
Definition no_success_notice : AnalyzeTiming.report :=
  {| AnalyzeTiming.printed := ["❌ No successful requests to analyze"];
     AnalyzeTiming.summary := None |}.

(** A result of a request that timed out after ten seconds. *)
Definition timed_out (id : Z) : AdvancedBenchmark.RequestResult :=
  {| AdvancedBenchmark.request_id := id;
     AdvancedBenchmark.start_time := 0;
     AdvancedBenchmark.end_time := 10;
     AdvancedBenchmark.response_time := 10000;
     AdvancedBenchmark.status_code := 0;
     AdvancedBenchmark.success := false;
     AdvancedBenchmark.result_value := false;
     AdvancedBenchmark.error := Some "";
     AdvancedBenchmark.queue_time := 0;
     AdvancedBenchmark.processing_time := 0 |}.

Definition failed_row (id : Z) : AnalyzeTiming.row :=
  {| AnalyzeTiming.request_id := id;
     AnalyzeTiming.response_time_ms := 10000;
     AnalyzeTiming.success := false;
     AnalyzeTiming.error := "timeout" |}.

Lemma filter_none {A} (f : A -> bool) (xs : list A) :
  Forall (fun x => f x = false) xs -> filter f xs = [].
Proof.
  induction 1 as [| x xs Hx _ IH]; [reflexivity |].
  cbn [filter]. now rewrite Hx.
Qed.

(** C3, as stated, fails on the empty run: [analyze_results([])] is the
    empty dictionary, which carries no marker. *)
Lemma empty_run_has_no_marker :
  all_failed [] /\
  exists stats,
    run (AdvancedBenchmark.analyze_results sqrt15 []) = Ok stats /\
    ~ no_success_marker stats.
Proof.
  split; [constructor |]. exists (PDict []). split; [reflexivity |].
  unfold no_success_marker. cbn. discriminate.
Qed.

(** [generate_report] cannot render that empty summary. *)
Lemma empty_summary_is_not_rendered repr render test_name :
  run (AdvancedBenchmark.generate_report repr render test_name (PDict [])) =
  Raise (Exn KeyError "'response_times'").
Proof. reflexivity. Qed.

Lemma analyze_results_no_success sqrt r results :
  all_failed (r :: results) ->
  run (AdvancedBenchmark.analyze_results sqrt (r :: results)) =
  Ok (PDict [("error", PStr "No successful requests")]).
Proof.
  intros H. unfold run, AdvancedBenchmark.analyze_results.
  rewrite (filter_none AdvancedBenchmark.success (r :: results) H). reflexivity.
Qed.

Lemma comprehensive_report_no_success sqrt fmt_slope render data :
  no_rows_succeeded data ->
  run (AnalyzeTiming.generate_comprehensive_report sqrt fmt_slope render data) =
  Ok no_success_notice.
Proof.
  intros H. unfold run, AnalyzeTiming.generate_comprehensive_report.
  rewrite (filter_none AnalyzeTiming.success data H). cbn [map].
  unfold bind.
  destruct (Z.ltb_spec 0 (len data)) as [Hpos | _]; [| reflexivity].
  rewrite div_nonzero; [reflexivity |].
  intros E. unfold Qeq in E. cbn in E. lia.
Qed.

(** C3, amended. For every run that is not empty and has no successful
    request, [analyze_results] returns the summary
    [{"error": "No successful requests"}] and [generate_report] renders it as
    one line, computing no statistic. For every collection of rows without a
    successful one, empty or not, [generate_comprehensive_report] prints the
    notice of a run without successes and builds no summary. *)
Theorem no_success_is_reported sqrt repr render fmt_slope render_text :
  (forall results test_name,
     results <> [] -> all_failed results ->
     exists stats,
       run (AdvancedBenchmark.analyze_results sqrt results) = Ok stats /\
       stats = PDict [("error", PStr "No successful requests")] /\
       no_success_marker stats /\
       run (AdvancedBenchmark.generate_report repr render test_name stats) =
       Ok ("❌ " ++ test_name ++ ": No successful requests")) /\
  (forall data,
     no_rows_succeeded data ->
     run (AnalyzeTiming.generate_comprehensive_report sqrt fmt_slope render_text data) =
     Ok no_success_notice).
Proof.
  split.
  - intros [| r results] test_name Hne H; [contradiction |].
    eexists. split; [now apply analyze_results_no_success |].
    repeat split.
  - apply comprehensive_report_no_success.
Qed.

Lemma no_success_is_reported_witness :
  (exists stats,
     run (AdvancedBenchmark.analyze_results sqrt15 [timed_out 0; timed_out 1]) = Ok stats /\
     stats = PDict [("error", PStr "No successful requests")] /\
     no_success_marker stats /\
     run (AdvancedBenchmark.generate_report (fun _ => "") (fun _ _ => "") "Burst Test" stats) =
     Ok "❌ Burst Test: No successful requests") /\
  run (AnalyzeTiming.generate_comprehensive_report
         sqrt15 (fun _ => "") (fun _ _ => "") [failed_row 0]) =
  Ok no_success_notice.
Proof.
  split.
  - apply (proj1 (no_success_is_reported sqrt15 (fun _ => "") (fun _ _ => "")
                    (fun _ => "") (fun _ _ => ""))).
    + discriminate.
    + repeat constructor.
  - apply (proj2 (no_success_is_reported sqrt15 (fun _ => "") (fun _ _ => "")
                    (fun _ => "") (fun _ _ => ""))).
    repeat constructor.
Defined.

End NoData.

(** ** Percentiles *)

Module Percentile.
Import Py AnalyzeTiming Logic Total.
Local Open Scope Z_scope.

(** The fractional index of percentile [p] and the order statistic at an
    index. *)
Definition position (data : list Q) (p : Q) : Q :=
  (inject_Z (len data - 1) * p / 100)%Q.

Definition order_stat (data : list Q) (i : Z) : Q := nth (Z.to_nat i) data 0%Q.


(** The value the code arrives at when nothing is raised. *)
Definition piecewise (data : list Q) (p : Q) : Q :=
  let idx := position data p in
  let lower := Qfloor idx in
  let weight := (idx - inject_Z lower)%Q in
  if len data <=? lower + 1
  then order_stat data (len data - 1)
  else (order_stat data lower * (1 - weight) + order_stat data (lower + 1) * weight)%Q.

Lemma int_floor (x : Q) : (0 <= x)%Q -> int x = Qfloor x.
Proof.
  destruct x as [n d]. unfold Qle, int, Qfloor. cbn. intros H.
  apply Z.quot_div_nonneg; lia.
Qed.

Lemma position_nonneg data p : data <> [] -> (0 <= p)%Q -> (0 <= position data p)%Q.
Proof.
  intros Hne Hp. unfold position.
  assert (0 <= inject_Z (len data - 1))%Q.
  { change 0%Q with (inject_Z 0). rewrite <- Zle_Qle.
    destruct data; [contradiction |]. pose proof (len_positive q data). lia. }
  apply Qle_shift_div_l; [reflexivity |]. rewrite Qmult_0_l.
  now apply Qmult_le_0_compat.
Qed.

Lemma position_monotone data p q :
  data <> [] -> (p <= q)%Q -> (position data p <= position data q)%Q.
Proof.
  intros Hne Hpq. unfold position.
  assert (0 <= inject_Z (len data - 1))%Q.
  { change 0%Q with (inject_Z 0). rewrite <- Zle_Qle.
    destruct data; [contradiction |]. pose proof (len_positive q0 data). lia. }
  apply Qmult_le_compat_r; [| now vm_compute].
  rewrite !(Qmult_comm (inject_Z _)). now apply Qmult_le_compat_r.
Qed.

Lemma position_upper data p :
  data <> [] -> (p <= 100)%Q -> (position data p <= inject_Z (len data - 1))%Q.
Proof.
  intros Hne Hp. unfold position.
  assert (0 <= inject_Z (len data - 1))%Q.
  { change 0%Q with (inject_Z 0). rewrite <- Zle_Qle.
    destruct data; [contradiction |]. pose proof (len_positive q data). lia. }
  apply Qle_shift_div_r; [reflexivity |].
  rewrite !(Qmult_comm (inject_Z _)). now apply Qmult_le_compat_r.
Qed.

Lemma floor_nonneg x : (0 <= x)%Q -> 0 <= Qfloor x.
Proof. intros H. exact (Qfloor_resp_le 0%Q x H). Qed.

Lemma floor_upper x (m : Z) : (x <= inject_Z m)%Q -> Qfloor x <= m.
Proof.
  intros H. rewrite <- (Qfloor_Z m). now apply Qfloor_resp_le.
Qed.

Lemma weight_range x : (0 <= x - inject_Z (Qfloor x) < 1)%Q.
Proof.
  pose proof (Qfloor_le x). pose proof (Qlt_floor x) as Hlt.
  rewrite inject_Z_plus in Hlt. change (inject_Z 1) with 1%Q in Hlt.
  split; lra.
Qed.

(** [percentile] raises nothing on a list that is not empty when [p] is not
    negative, and returns the piecewise value. *)
Lemma percentile_returns {St} (data : list Q) (p : Q) :
  data <> [] -> (0 <= p)%Q ->
  returns (St := St) (percentile data p) (fun v => v = piecewise data p).
Proof.
  intros Hne Hp. unfold percentile, piecewise.
  fold (position data p).
  pose proof (position_nonneg data p Hne Hp) as Hidx.
  rewrite (int_floor _ Hidx).
  pose proof (floor_nonneg _ Hidx) as Hlo.
  set (lower := Qfloor (position data p)) in *.
  destruct (Z.leb_spec (len data) (lower + 1)) as [Hup | Hup].
  - eapply returns_weaken; [apply (returns_index_last data Hne) |].
    intros x Hx. apply (nth_error_nth _ _ 0%Q) in Hx. rewrite <- Hx.
    unfold order_stat. f_equal. unfold len. lia.
  - eapply returns_bind; [apply (returns_index data lower); lia |].
    intros a Ha. apply (nth_error_nth _ _ 0%Q) in Ha.
    eapply returns_bind; [apply (returns_index data (lower + 1)); lia |].
    intros b Hb. apply (nth_error_nth _ _ 0%Q) in Hb.
    apply returns_ret. unfold order_stat. now rewrite Ha, Hb.
Qed.


(** *** Order statistics of a sorted list *)

Lemma nth_sorted (l : list Q) :
  StronglySorted Qle l ->
  forall i j, (i <= j < List.length l)%nat -> (nth i l 0 <= nth j l 0)%Q.
Proof.
  induction 1 as [| a l Hl IH Ha]; intros i j Hij; [cbn in Hij; lia |].
  destruct j as [| j].
  - replace i with 0%nat by lia. apply Qle_refl.
  - destruct i as [| i]; cbn [nth].
    + rewrite Forall_forall in Ha. apply Ha, nth_In. cbn in Hij. lia.
    + apply IH. cbn in Hij. lia.
Qed.

Lemma order_stat_monotone (data : list Q) (i j : Z) :
  Sorted Qle data -> 0 <= i <= j -> j < len data ->
  (order_stat data i <= order_stat data j)%Q.
Proof.
  intros Hs Hij Hj. unfold order_stat.
  apply nth_sorted.
  - apply Sorted_StronglySorted; [| exact Hs].
    intros x y z. apply Qle_trans.
  - unfold len in Hj. lia.
Qed.

Section Monotone.
Variable data : list Q.
Hypothesis data_sorted : Sorted Qle data.

(** The value at floor [f] and weight [w]. *)
Definition value_at (f : Z) (w : Q) : Q :=
  if len data <=? f + 1
  then order_stat data (len data - 1)
  else (order_stat data f * (1 - w) + order_stat data (f + 1) * w)%Q.

Lemma value_lower f w :
  0 <= f < len data -> (0 <= w < 1)%Q -> (order_stat data f <= value_at f w)%Q.
Proof.
  intros Hf Hw. unfold value_at.
  destruct (Z.leb_spec (len data) (f + 1)).
  - apply order_stat_monotone; auto; lia.
  - pose proof (order_stat_monotone data f (f + 1) data_sorted ltac:(lia) ltac:(lia)).
    nra.
Qed.

Lemma value_upper f w :
  0 <= f < len data -> (0 <= w < 1)%Q ->
  (value_at f w <= order_stat data (Z.min (f + 1) (len data - 1)))%Q.
Proof.
  intros Hf Hw. unfold value_at.
  destruct (Z.leb_spec (len data) (f + 1)).
  - rewrite Z.min_r by lia. apply Qle_refl.
  - rewrite Z.min_l by lia.
    pose proof (order_stat_monotone data f (f + 1) data_sorted ltac:(lia) ltac:(lia)).
    nra.
Qed.

Lemma value_same_floor f w w' :
  0 <= f < len data -> (0 <= w)%Q -> (w <= w')%Q ->
  (value_at f w <= value_at f w')%Q.
Proof.
  intros Hf Hw Hww. unfold value_at.
  destruct (Z.leb_spec (len data) (f + 1)); [apply Qle_refl |].
  pose proof (order_stat_monotone data f (f + 1) data_sorted ltac:(lia) ltac:(lia)).
  nra.
Qed.

(** The piecewise value does not decrease with [p] on [0 .. 100]. *)
Lemma piecewise_monotone (p q : Q) :
  data <> [] -> (0 <= p)%Q -> (p <= q)%Q -> (q <= 100)%Q ->
  (piecewise data p <= piecewise data q)%Q.
Proof.
  intros Hne Hp Hpq Hq.
  change (piecewise data p) with
    (value_at (Qfloor (position data p))
              (position data p - inject_Z (Qfloor (position data p)))).
  change (piecewise data q) with
    (value_at (Qfloor (position data q))
              (position data q - inject_Z (Qfloor (position data q)))).
  pose proof (position_nonneg data p Hne Hp) as Hp0.
  pose proof (position_monotone data p q Hne Hpq) as Hmono.
  pose proof (position_upper data q Hne Hq) as Hqn.
  set (x := position data p) in *. set (y := position data q) in *.
  pose proof (floor_nonneg x Hp0) as Hfx.
  pose proof (Qfloor_resp_le x y Hmono) as Hfxy.
  pose proof (floor_upper y _ Hqn) as Hfy.
  pose proof (weight_range x) as Hwx. pose proof (weight_range y) as Hwy.
  destruct (Z.eq_dec (Qfloor x) (Qfloor y)) as [E | E].
  - rewrite <- E. apply value_same_floor; [lia | lra |].
    rewrite E. lra.
  - eapply Qle_trans; [apply value_upper; [lia | exact Hwx] |].
    eapply Qle_trans; [| apply value_lower; [lia | exact Hwy]].
    apply order_stat_monotone; auto; lia.
Qed.

End Monotone.

(** *** [sorted] sorts *)

Lemma insert_sorted (x : Q) (xs : list Q) :
  Sorted Qle xs -> Sorted Qle (insert_by (fun v => v) x xs).
Proof.
  induction 1 as [| y ys Hys IH Hy]; cbn [insert_by].
  - repeat constructor.
  - destruct (Qltb x y) eqn:C.
    + apply Qltb_lt in C. repeat constructor; auto. now apply Qlt_le_weak.
    + apply Qltb_ge in C. constructor; [exact IH |].
      destruct ys as [| z zs]; cbn [insert_by].
      * now repeat constructor.
      * destruct (Qltb x z); constructor; [exact C |]. now inversion Hy.
Qed.

Lemma sorted_is_sorted (xs : list Q) : Sorted Qle (sorted xs).
Proof.
  unfold sorted, sorted_by.
  enough (H : forall acc, Sorted Qle acc ->
                Sorted Qle (fold_left (fun acc x => insert_by (fun v => v) x acc) xs acc))
    by (apply H; constructor).
  induction xs as [| x xs IH]; intros acc Hacc; cbn [fold_left]; [exact Hacc |].
  apply IH. now apply insert_sorted.
Qed.

Lemma sorted_nonempty_list (x : Q) (xs : list Q) : sorted (x :: xs) <> [].
Proof.
  intros E. apply (f_equal (@List.length Q)) in E.
  unfold sorted in E. rewrite length_sorted_by in E. discriminate.
Qed.



End Percentile.

(** ** Dispersion: the two standard deviations *)

Module Dispersion.
Import Py Logic Total Percentile.
Local Open Scope string_scope.
Local Open Scope Z_scope.

(** The arithmetic mean and the sum of squared deviations as
    [calculate_statistics] forms them. *)
Definition mean_of (xs : list Q) : Q := (sum xs / inject_Z (len xs))%Q.

Definition squared_deviations (xs : list Q) : Q :=
  sum (map (fun x => (x - mean_of xs) ^ 2)%Q xs).

(** Population variance: divisor [n]. *)
Definition population_variance (xs : list Q) : Q :=
  (squared_deviations xs / inject_Z (len xs))%Q.

(** Sample variance: divisor [n - 1]. *)
Definition sample_variance (xs : list Q) : Q :=
  (sum_sq_dev xs / inject_Z (len xs - 1))%Q.

Section Library.
Context {St : Type}.
Variable sqrt : Q -> Q.

Lemma mean_returns (xs : list Q) :
  xs <> [] -> returns (St := St) (mean xs) (fun m => m = mean_of xs).
Proof.
  intros Hne. destruct xs as [| x xs]; [contradiction |].
  now apply returns_ret.
Qed.

Lemma stdev_returns (xs : list Q) :
  2 <= len xs ->
  returns (St := St) (stdev sqrt xs) (fun sd => sd = sqrt (sample_variance xs)).
Proof.
  intros H. unfold stdev.
  destruct (Z.ltb_spec (len xs) 2); [lia |]. now apply returns_ret.
Qed.

Lemma median_returns (xs : list Q) :
  xs <> [] -> returns (St := St) (median xs) (fun _ => True).
Proof.
  intros Hne. destruct xs as [| x xs]; [contradiction |].
  unfold median. pose proof (len_positive x xs) as Hn.
  pose proof (len_sorted (x :: xs)) as Hs.
  set (n := len (x :: xs)) in *.
  destruct (Z.eqb_spec (n mod 2) 1) as [Hodd | Heven].
  - eapply returns_weaken; [apply returns_index | auto].
    rewrite Hs. split; [apply Z.div_pos; lia | apply Z.div_lt_upper_bound; lia].
  - assert (Hn2 : 2 <= n).
    { destruct (Z.eq_dec n 1) as [E | E]; [rewrite E in Heven; now cbn in Heven | lia]. }
    assert (Hhalf : 1 <= n / 2 < n).
    { split; [apply Z.div_le_lower_bound; lia | apply Z.div_lt_upper_bound; lia]. }
    eapply returns_bind with (R := fun _ => True);
      [eapply returns_weaken; [apply returns_index; rewrite Hs; lia | auto] |].
    intros a _.
    eapply returns_bind with (R := fun _ => True);
      [eapply returns_weaken; [apply returns_index; rewrite Hs; lia | auto] |].
    intros b _. now apply returns_ret.
Qed.

Lemma np_percentile_returns (xs : list Q) (q : Q) :
  xs <> [] -> (0 <= q)%Q -> (q <= 100)%Q ->
  returns (St := St) (np_percentile xs q) (fun _ => True).
Proof.
  intros Hne Hq0 Hq1. destruct xs as [| x xs]; [contradiction |].
  unfold np_percentile. pose proof (len_positive x xs) as Hn.
  pose proof (len_sorted (x :: xs)) as Hs.
  fold (Percentile.position (x :: xs) q).
  pose proof (Percentile.position_nonneg (x :: xs) q Hne Hq0) as Hlo.
  pose proof (Percentile.position_upper (x :: xs) q Hne Hq1) as Hhi.
  apply Percentile.floor_nonneg in Hlo. apply Percentile.floor_upper in Hhi.
  set (previous := Qfloor (Percentile.position (x :: xs) q)) in *.
  eapply returns_bind with (R := fun _ => True);
    [eapply returns_weaken; [apply returns_index; rewrite Hs; lia | auto] |].
  intros a _.
  eapply returns_bind with (R := fun _ => True);
    [eapply returns_weaken; [apply returns_index; rewrite Hs; lia | auto] |].
  intros b _. now apply returns_ret.
Qed.

End Library.

(** *** [advanced_benchmark.py]: the analysis raises nothing *)

Section Benchmark.
Import AdvancedBenchmark.
Context {St : Type}.
Variable sqrt : Q -> Q.

Lemma detect_outliers_returns (data : list Q) (threshold : Q) :
  returns (St := St) (detect_outliers sqrt data threshold) (fun _ => True).
Proof.
  unfold detect_outliers.
  destruct (Z.ltb_spec (len data) 3) as [Hn | Hn]; [now apply returns_ret |].
  assert (Hne : data <> []) by (intros ->; cbn in Hn; lia).
  eapply returns_bind; [apply (mean_returns data Hne) |]. intros mean _.
  eapply returns_bind; [apply stdev_returns; lia |]. intros std_dev _.
  eapply returns_bind with (R := fun _ => True); [| intros; now apply returns_ret].
  eapply returns_weaken;
    [apply (returns_for_each (fun _ _ => True)) with (done := []); [| exact I] | auto].
  intros done iv outliers _.
  eapply returns_bind with (R := fun _ => True).
  - destruct (Qgtb std_dev 0) eqn:G; [| now apply returns_ret].
    apply Qgtb_gt in G. eapply returns_weaken; [apply returns_div | auto].
    intros E. rewrite E in G. now apply Qlt_irrefl in G.
  - intros z _. destruct (Qgtb z threshold); now apply returns_ret.
Qed.

Lemma analyze_trend_returns (data : list Q) :
  returns (St := St) (analyze_trend data) (fun _ => True).
Proof.
  unfold analyze_trend.
  destruct (Z.ltb_spec (len data) 10) as [Hn | Hn]; [now apply returns_ret |].
  eapply returns_bind with (R := fun _ => True).
  - unfold trend_slope. eapply returns_weaken; [apply returns_div | auto].
    apply Trend.inject_Z_nonzero.
    pose proof (Trend.denominator_positive data ltac:(lia)) as HD.
    unfold Trend.denominator, Trend.sum_x, Trend.sum_x2 in HD. lia.
  - intros slope _.
    destruct (Qgtb _ _); [now apply returns_ret |].
    destruct (Qltb _ _); now apply returns_ret.
Qed.

(** The ratio [stdev / mean] appears in [analyze_timing_patterns] as
    [timing_consistency = 1 - stdev / mean]. *)
Definition consistency_from (times : list Q) : pyval :=
  PFloat (1 - sqrt (sample_variance times) / mean_of times)%Q.

Lemma analyze_timing_patterns_returns (results : list RequestResult) :
  let times := map response_time results in
  returns (St := St) (analyze_timing_patterns sqrt results)
    (fun ta => 2 <= len results -> (0 < mean_of times)%Q ->
               dict_get "timing_consistency" ta = Some (consistency_from times)).
Proof.
  cbv zeta. unfold analyze_timing_patterns.
  destruct (Z.ltb_spec (len results) 2) as [Hn | Hn];
    [apply returns_ret; intros; lia |].
  assert (Hlen : len (map response_time results) = len results)
    by (unfold len; now rewrite length_map).
  assert (Hne : map response_time results <> [])
    by (intros E; rewrite E in Hlen; cbn in Hlen; lia).
  eapply returns_bind with (R := fun _ => True); [now apply returns_ret |].
  intros max_variation _.
  eapply returns_bind with (R := fun _ => True).
  { destruct (variations_of _) as [| v vs] eqn:V; [now apply returns_ret |].
    eapply returns_bind; [apply mean_returns; discriminate |].
    intros m _. now apply returns_ret. }
  intros avg_variation _.
  eapply returns_bind; [apply (mean_returns _ Hne) |]. intros m Hm.
  eapply returns_bind with
    (R := fun tc => (0 < m)%Q -> tc = consistency_from (map response_time results)).
  { destruct (Qgtb m 0) eqn:G.
    - apply Qgtb_gt in G.
      eapply returns_bind; [apply stdev_returns; lia |]. intros sd ->.
      eapply returns_bind; [apply (mean_returns _ Hne) |]. intros m' ->.
      eapply returns_bind; [apply returns_div |].
      + rewrite <- Hm. intros E. rewrite E in G. now apply Qlt_irrefl in G.
      + intros q ->. now apply returns_ret.
    - apply Qgtb_le in G. apply returns_ret. intros H. exfalso.
      apply (Qlt_irrefl 0). eapply Qlt_le_trans; eauto. }
  intros timing_consistency Htc.
  eapply returns_bind; [apply detect_outliers_returns |]. intros outliers _.
  eapply returns_bind; [apply analyze_trend_returns |]. intros trending _.
  apply returns_ret. intros _ Hpos. cbn. f_equal. apply Htc. now rewrite Hm.
Qed.

(** What [analyze_results] reports as [std_dev] of the response times and
    as [timing_consistency]. *)
Definition reported_std_dev (stats : pyval) : option pyval :=
  match dict_get "response_times" stats with
  | Some rt => dict_get "std_dev" rt
  | None => None
  end.

Definition reported_consistency (stats : pyval) : option pyval :=
  match dict_get "timing_analysis" stats with
  | Some ta => dict_get "timing_consistency" ta
  | None => None
  end.

Lemma analyze_results_returns (results : list RequestResult) :
  let data := map response_time (filter success results) in
  data <> [] ->
  returns (St := St) (analyze_results sqrt results)
    (fun stats =>
       reported_std_dev stats =
       Some (if 1 <? len data then PFloat (sqrt (sample_variance data)) else PInt 0) /\
       (2 <= len data -> (0 < mean_of data)%Q ->
        reported_consistency stats = Some (consistency_from data))).
Proof.
  cbv zeta. intros Hne. unfold analyze_results.
  destruct results as [| r results]; [contradiction |].
  set (successful := filter success (r :: results)) in *.
  pose proof (analyze_timing_patterns_returns successful) as Hta. cbv zeta in Hta.
  assert (Hlen : len (map response_time successful) = len successful)
    by (unfold len; now rewrite length_map).
  destruct (map response_time successful) as [| t ts] eqn:D; [contradiction |].
  eapply returns_bind; [apply (mean_returns _ Hne) |]. intros mean _.
  eapply returns_bind; [apply (median_returns _ Hne) |]. intros median _.
  eapply returns_bind; [apply (np_percentile_returns _ 95%Q Hne); now vm_compute |].
  intros p95 _.
  eapply returns_bind; [apply (np_percentile_returns _ 99%Q Hne); now vm_compute |].
  intros p99 _.
  eapply returns_bind with
    (R := fun v => v = if 1 <? len (t :: ts)
                       then PFloat (sqrt (sample_variance (t :: ts))) else PInt 0).
  { destruct (Z.ltb_spec 1 (len (t :: ts))) as [Hn | Hn]; [| now apply returns_ret].
    eapply returns_bind; [apply stdev_returns; lia |].
    intros sd ->. now apply returns_ret. }
  intros std_dev ->.
  eapply returns_bind; [apply Hta |].
  intros timing_analysis Htc.
  apply returns_ret. split; [reflexivity |].
  intros Hn Hpos. unfold reported_consistency. cbn. apply Htc; [lia | exact Hpos].
Qed.

End Benchmark.

(** *** [analyze_timing.py]: [calculate_statistics] raises nothing *)

Section Timing.
Import AnalyzeTiming.
Context {St : Type}.
Variable sqrt : Q -> Q.

(** The coefficient of variation [calculate_statistics] reports. *)
Definition cv_from (xs : list Q) : pyval :=
  if Qneb (mean_of xs) 0
  then PFloat (sqrt (population_variance xs) / mean_of xs)%Q
  else PInt 0.

Lemma calculate_statistics_returns (t : Q) (ts : list Q) :
  returns (St := St) (calculate_statistics sqrt (t :: ts))
    (fun stats =>
       dict_get "std_dev" stats = Some (PFloat (sqrt (population_variance (t :: ts)))) /\
       dict_get "cv" stats = Some (cv_from (t :: ts)) /\
       exists p25 p75,
         dict_get "p25" stats = Some (PFloat p25) /\
         dict_get "p75" stats = Some (PFloat p75) /\
         (p25 <= p75)%Q).
Proof.
  unfold calculate_statistics.
  pose proof (len_positive t ts) as Hn.
  pose proof (len_sorted (t :: ts)) as Hs.
  pose proof (sorted_nonempty_list t ts) as Hsne.
  eapply returns_bind; [apply returns_div, len_nonzero |]. intros mean Hmean.
  eapply returns_bind with (R := fun _ => True).
  { destruct (Z.eqb_spec (len (t :: ts) mod 2) 1) as [Hodd | Heven].
    - eapply returns_weaken; [apply returns_index | auto].
      rewrite Hs. split; [apply Z.div_pos; lia | apply Z.div_lt_upper_bound; lia].
    - assert (Hn2 : 2 <= len (t :: ts)).
      { destruct (Z.eq_dec (len (t :: ts)) 1) as [E | E];
          [rewrite E in Heven; now cbn in Heven | lia]. }
      assert (Hhalf : 1 <= len (t :: ts) / 2 < len (t :: ts)).
      { split; [apply Z.div_le_lower_bound; lia | apply Z.div_lt_upper_bound; lia]. }
      eapply returns_bind with (R := fun _ => True);
        [eapply returns_weaken; [apply returns_index; rewrite Hs; lia | auto] |].
      intros a _.
      eapply returns_bind with (R := fun _ => True);
        [eapply returns_weaken; [apply returns_index; rewrite Hs; lia | auto] |].
      intros b _. now apply returns_ret. }
  intros median _.
  eapply returns_bind; [apply (Percentile.percentile_returns _ 25%Q Hsne); now vm_compute |].
  intros p25 H25.
  eapply returns_bind; [apply (Percentile.percentile_returns _ 75%Q Hsne); now vm_compute |].
  intros p75 H75.
  eapply returns_bind; [apply (Percentile.percentile_returns _ 95%Q Hsne); now vm_compute |].
  intros p95 _.
  eapply returns_bind; [apply (Percentile.percentile_returns _ 99%Q Hsne); now vm_compute |].
  intros p99 _.
  eapply returns_bind; [apply returns_div, len_nonzero |]. intros variance Hvar.
  assert (Hm : mean = mean_of (t :: ts)) by exact Hmean.
  assert (Hv : variance = population_variance (t :: ts)) by (rewrite Hvar, Hm; reflexivity).
  eapply returns_bind with (R := fun cv => cv = cv_from (t :: ts)).
  { unfold cv_from. rewrite <- Hm, <- Hv.
    destruct (Qneb mean 0) eqn:N; [| now apply returns_ret].
    apply Qneb_neq in N.
    eapply returns_bind; [apply returns_div, N |]. intros q ->. now apply returns_ret. }
  intros cv ->.
  eapply returns_bind with (R := fun _ => True).
  { destruct (variations_of (t :: ts)) as [| v vs]; [now apply returns_ret |].
    eapply returns_bind; [apply returns_div, len_nonzero |].
    intros q _. now apply returns_ret. }
  intros avg_variation _.
  apply returns_ret. rewrite Hv. split; [reflexivity |]. split; [reflexivity |].
  exists p25, p75. split; [reflexivity |]. split; [reflexivity |].
  rewrite H25, H75.
  apply Percentile.piecewise_monotone;
    [apply Percentile.sorted_is_sorted | exact Hsne | | |]; now vm_compute.
Qed.

End Timing.

(** *** The two components on the same data *)

(** A successful request [id] that took [t] milliseconds. *)
Definition succeeded (id : Z) (t : Q) : AdvancedBenchmark.RequestResult :=
  {| AdvancedBenchmark.request_id := id;
     AdvancedBenchmark.start_time := inject_Z id;
     AdvancedBenchmark.end_time := (inject_Z id + t / 1000)%Q;
     AdvancedBenchmark.response_time := t;
     AdvancedBenchmark.status_code := 200;
     AdvancedBenchmark.success := true;
     AdvancedBenchmark.result_value := true;
     AdvancedBenchmark.error := None;
     AdvancedBenchmark.queue_time := 0;
     AdvancedBenchmark.processing_time := 0 |}.

(** Two successful requests with response times 1 ms and 3 ms. *)
Definition two_results : list AdvancedBenchmark.RequestResult :=
  [succeeded 0 1; succeeded 1 3].

Definition times_of (results : list AdvancedBenchmark.RequestResult) : list Q :=
  map AdvancedBenchmark.response_time (filter AdvancedBenchmark.success results).

Lemma single_has_no_variance (x : Q) : (population_variance [x] == 0)%Q.
Proof.
  unfold population_variance, squared_deviations, mean_of, sum, len.
  cbn [List.length Z.of_nat Pos.of_succ_nat map fold_left].
  change (inject_Z 1) with 1%Q.
  cbn [Qpower Qpower_positive pow_pos]. field.
Qed.

(** C10. [calculate_statistics] reports [std_dev = sqrt(S / n)], where [S]
    is the sum of squared deviations from the mean (population formula), so
    a single response time has [std_dev = 0]; its [cv] is that [std_dev]
    over the mean. [analyze_results] reports the sample standard deviation
    [sqrt(S / (n - 1))] of [statistics.stdev] when there are at least two
    successful response times and an explicit 0 otherwise; the ratio
    [stdev / mean] enters its [timing_consistency]. For the response times
    1 and 3 the two reported [std_dev] values differ, and so do the two
    ratios to the mean. [sqrt] is any function that vanishes at zero and is
    injective on the rationals that are not negative. *)
Theorem population_against_sample (sqrt : Q -> Q) :
  (forall v, (v == 0)%Q -> (sqrt v == 0)%Q) ->
  (forall u v, (0 <= u)%Q -> (0 <= v)%Q -> (sqrt u == sqrt v)%Q -> (u == v)%Q) ->
  (forall t ts, exists stats,
     run (AnalyzeTiming.calculate_statistics sqrt (t :: ts)) = Ok stats /\
     dict_get "std_dev" stats = Some (PFloat (sqrt (population_variance (t :: ts)))) /\
     dict_get "cv" stats = Some (cv_from sqrt (t :: ts))) /\
  (forall x, (sqrt (population_variance [x]) == 0)%Q) /\
  (forall results,
     times_of results <> [] ->
     exists stats,
       run (AdvancedBenchmark.analyze_results sqrt results) = Ok stats /\
       reported_std_dev stats =
       Some (if 1 <? len (times_of results)
             then PFloat (sqrt (sample_variance (times_of results)))
             else PInt 0) /\
       (2 <= len (times_of results) -> (0 < mean_of (times_of results))%Q ->
        reported_consistency stats = Some (consistency_from sqrt (times_of results)))) /\
  (exists stats1 stats2 sd1 sd2,
     times_of two_results = [1; 3]%Q /\
     run (AnalyzeTiming.calculate_statistics sqrt (times_of two_results)) = Ok stats1 /\
     run (AdvancedBenchmark.analyze_results sqrt two_results) = Ok stats2 /\
     dict_get "std_dev" stats1 = Some (PFloat sd1) /\
     reported_std_dev stats2 = Some (PFloat sd2) /\
     ~ (sd1 == sd2)%Q /\
     dict_get "cv" stats1 = Some (PFloat (sd1 / mean_of [1; 3]))%Q /\
     reported_consistency stats2 = Some (PFloat (1 - sd2 / mean_of [1; 3]))%Q /\
     ~ (sd1 / mean_of [1; 3] == sd2 / mean_of [1; 3])%Q).
Proof.
  intros sqrt_zero sqrt_injective.
  split; [| split; [| split]].
  - intros t ts.
    destruct (returns_run _ _ (calculate_statistics_returns sqrt t ts))
      as (stats & E & Hsd & Hcv & _).
    exists stats. auto.
  - intros x. apply sqrt_zero, single_has_no_variance.
  - intros results Hne.
    destruct (returns_run _ _ (analyze_results_returns sqrt results Hne))
      as (stats & E & Hsd & Htc).
    exists stats. auto.
  - assert (Hdiff : ~ (sqrt (population_variance [1; 3]%Q)
                       == sqrt (sample_variance [1; 3]%Q))%Q).
    { intros H. apply sqrt_injective in H; [| now vm_compute | now vm_compute].
      revert H. now vm_compute. }
    assert (Hm : (mean_of [1; 3]%Q == 2)%Q) by now vm_compute.
    destruct (returns_run _ _ (calculate_statistics_returns sqrt 1%Q [3%Q]))
      as (stats1 & E1 & Hsd1 & Hcv1 & _).
    destruct (returns_run _ _ (analyze_results_returns sqrt two_results ltac:(discriminate)))
      as (stats2 & E2 & Hsd2 & Htc2).
    exists stats1, stats2,
      (sqrt (population_variance [1; 3]%Q)), (sqrt (sample_variance [1; 3]%Q)).
    split; [reflexivity |]. split; [exact E1 |]. split; [exact E2 |].
    split; [exact Hsd1 |]. split; [exact Hsd2 |]. split; [exact Hdiff |].
    split; [exact Hcv1 |].
    split; [apply Htc2; now vm_compute |].
    intros H. apply Hdiff. rewrite Hm in H.
    unfold Qdiv in H. apply Qmult_inj_r in H; [exact H | now vm_compute].
Qed.

Lemma population_against_sample_witness :
  exists stats1 stats2 sd1 sd2,
    times_of two_results = [1; 3]%Q /\
    run (AnalyzeTiming.calculate_statistics (fun x => x) (times_of two_results)) = Ok stats1 /\
    run (AdvancedBenchmark.analyze_results (fun x => x) two_results) = Ok stats2 /\
    dict_get "std_dev" stats1 = Some (PFloat sd1) /\
    reported_std_dev stats2 = Some (PFloat sd2) /\
    ~ (sd1 == sd2)%Q /\
    dict_get "cv" stats1 = Some (PFloat (sd1 / mean_of [1; 3]))%Q /\
    reported_consistency stats2 = Some (PFloat (1 - sd2 / mean_of [1; 3]))%Q /\
    ~ (sd1 / mean_of [1; 3] == sd2 / mean_of [1; 3])%Q.
Proof.
  apply (proj2 (proj2 (proj2 (population_against_sample (fun x => x)
                                (fun v H => H) (fun u v _ _ H => H))))).
Defined.

End Dispersion.

(** ** Pacing and order of the strategies *)

Module Pacing.
Import Py AdvancedBenchmark Logic LoadScheduler.
Local Open Scope string_scope.
Local Open Scope Z_scope.
Local Open Scope py_scope.

(** The loop that builds the tasks of one burst, and the body of the loop
    over the bursts, as they stand in [run_burst_test]. *)
Definition burst_tasks (w : world) (burst_size burst : Z) (idxs : list Z)
    (tasks0 : list (M sched RequestResult)) : M sched (list (M sched RequestResult)) :=
  for_each idxs tasks0 (fun i tasks =>
    let request_id := burst * burst_size + i in
    r <- randint w ;;
    let idval := "burst_" ++ str burst ++ "_req_" ++ str i ++ "_" ++ str r in
    ret (tasks ++ [await_send_request w request_id idval])%list).

Definition burst_body (w : world) (burst_size : Z) (burst_interval : Q)
    (burst : Z) (results : list RequestResult) : M sched (list RequestResult) :=
  burst_start <- now w ;;
  tasks <- burst_tasks w burst_size burst (range burst_size) [] ;;
  burst_results <- gather tasks ;;
  let results := (results ++ burst_results)%list in
  burst_end <- now w ;;
  (if burst <? 4 then sleep burst_interval else ret tt) ;;;
  ret results.

Lemma run_burst_test_unfold w burst_size burst_interval :
  run_burst_test w burst_size burst_interval =
  for_each (range 5) [] (burst_body w burst_size burst_interval).
Proof. reflexivity. Qed.

Lemma burst_tasks_run w burst_size burst idxs tasks0 s :
  exists tasks s',
    burst_tasks w burst_size burst idxs tasks0 s = (Ok (tasks0 ++ tasks)%list, s') /\
    Forall2 (is_task w burst_size burst) idxs tasks /\
    ticks s' = ticks s /\
    draws s' = (draws s + List.length idxs)%nat /\
    slept s' = slept s.
Proof.
  revert tasks0 s. induction idxs as [| i idxs IH]; intros tasks0 s.
  - exists [], s. cbn. rewrite app_nil_r.
    split; [reflexivity |]. split; [constructor |]. repeat split; lia.
  - unfold burst_tasks in *. cbn [for_each]. unfold bind at 1. unfold bind at 1.
    cbn [randint ret].
    match goal with
    | |- context [for_each idxs ?t ?f ?st] =>
        destruct (IH t st) as (tasks & s' & E & HF & Ht & Hd & Hs)
    end.
    eexists (_ :: tasks), s'. split.
    + rewrite E. rewrite <- app_assoc. reflexivity.
    + cbn in *. repeat split; auto; try lia.
      constructor; [eexists; reflexivity | exact HF].
Qed.

Lemma burst_body_run w burst_size burst_interval burst results s :
  exists rs s',
    burst_body w burst_size burst_interval burst results s = (Ok (results ++ rs)%list, s') /\
    map request_id rs = burst_ids burst_size burst /\
    ticks s' = (ticks s + 2)%nat /\
    draws s' = (draws s + Z.to_nat burst_size)%nat /\
    slept s' = (if burst <? 4 then burst_interval :: slept s else slept s).
Proof.
  unfold burst_body. unfold bind at 1. cbn [now]. unfold bind at 1.
  match goal with
  | |- context [burst_tasks w burst_size burst (range burst_size) [] ?st] =>
      destruct (burst_tasks_run w burst_size burst (range burst_size) [] st)
        as (tasks & s1 & E & HF & Ht & Hd & Hs)
  end.
  rewrite E. cbn [app].
  destruct (gather_tasks w burst_size burst _ _ HF s1) as (rs & Eg & Hrs).
  unfold bind at 1. rewrite Eg.
  exists rs. unfold bind at 1. cbn [now].
  destruct (burst <? 4); cbn; eexists; (split; [reflexivity |]);
    cbn in *; rewrite range_length in Hd; repeat split; auto; try lia; congruence.
Qed.

Ltac one_burst :=
  unfold bind at 1;
  match goal with
  | |- context [burst_body ?w ?bs ?bi ?b ?rs ?st] =>
      let rs' := fresh "rs" in
      let s' := fresh "s" in
      let E := fresh "E" in
      let Hid := fresh "Hid" in
      let Ht := fresh "Ht" in
      let Hd := fresh "Hd" in
      let Hs := fresh "Hs" in
      destruct (burst_body_run w bs bi b rs st) as (rs' & s' & E & Hid & Ht & Hd & Hs);
      rewrite E; cbn [Z.ltb Z.compare Pos.compare Pos.compare_cont] in Hs
  end.

(** The burst strategy reads the clock twice per burst, draws one random
    number per request and sleeps [burst_interval] after each of the first
    four bursts, not after the fifth; this holds whatever the requests do
    and for every [burst_size], also zero or negative. *)
Theorem burst_pacing w burst_size burst_interval s :
  exists results s',
    run_burst_test w burst_size burst_interval s = (Ok results, s') /\
    ticks s' = (ticks s + 10)%nat /\
    draws s' = (draws s + 5 * Z.to_nat burst_size)%nat /\
    slept s' = burst_interval :: burst_interval :: burst_interval :: burst_interval
               :: slept s.
Proof.
  rewrite run_burst_test_unfold. change (range 5) with [0; 1; 2; 3; 4].
  cbn [for_each]. do 5 one_burst.
  do 2 eexists. split; [reflexivity |].
  repeat split; try lia. congruence.
Qed.

(** *** The rate loops end and number their requests in order *)

(** A loop whose condition and body return, keep an invariant and lower a
    measure, returns when given more fuel than the measure. *)
Lemma while_total {St B} (I Q : B -> St -> Prop) (m : St -> nat)
    (cond : B -> M St bool) (body : B -> M St B) :
  (forall acc s, I acc s ->
     exists b s1, cond acc s = (Ok b, s1) /\
       if (b : bool)
       then exists acc' s2, body acc s1 = (Ok acc', s2) /\ I acc' s2 /\ (m s2 < m s)%nat
       else Q acc s1) ->
  forall fuel acc s, I acc s -> (m s < fuel)%nat ->
    exists acc' s', while fuel cond body acc s = (Ok acc', s') /\ Q acc' s'.
Proof.
  intros Hstep fuel. induction fuel as [| fuel IH]; intros acc s HI Hm; [lia |].
  cbn [while]. unfold bind at 1.
  destruct (Hstep acc s HI) as (b & s1 & -> & Hb). destruct b.
  - destruct Hb as (acc' & s2 & Eb & HI' & Hlt).
    unfold bind at 1. rewrite Eb. apply IH; [exact HI' | lia].
  - exists acc, s1. now split.
Qed.

(** What a rate loop has done after [next_id] requests, from the state
    [s0] in which the strategy started: the results carry the ids
    [0 .. next_id - 1] in order, one random number was drawn and one delay
    slept per request, and every delay satisfies [good]. *)
Definition loop_invariant (good : Q -> Prop) (s0 : sched) (v : loop_vars) (st : sched)
    : Prop :=
  (ticks s0 < ticks st)%nat /\
  0 <= next_id v /\
  map request_id (results v) = range (next_id v) /\
  draws st = (draws s0 + Z.to_nat (next_id v))%nat /\
  exists delays,
    slept st = (delays ++ slept s0)%list /\
    List.length delays = Z.to_nat (next_id v) /\
    Forall good delays.

(** What a strategy returns when its loop ends in [loop_invariant]. *)
Definition ordered_run (good : Q -> Prop) (s0 : sched)
    (results : list RequestResult) (s' : sched) : Prop :=
  map request_id results = range (len results) /\
  draws s' = (draws s0 + List.length results)%nat /\
  exists delays,
    slept s' = (delays ++ slept s0)%list /\
    List.length delays = List.length results /\
    Forall good delays.

Lemma loop_invariant_start good s0 st :
  (ticks s0 < ticks st)%nat -> draws st = draws s0 -> slept st = slept s0 ->
  loop_invariant good s0 {| results := []; next_id := 0 |} st.
Proof.
  intros Ht Hd Hs. unfold loop_invariant. cbn.
  repeat split; auto; try lia. exists []. repeat split; auto.
Qed.

Lemma loop_invariant_step good s0 v st st' result delay :
  loop_invariant good s0 v st ->
  request_id result = next_id v ->
  good delay ->
  (ticks st <= ticks st')%nat ->
  draws st' = S (draws st) ->
  slept st' = delay :: slept st ->
  loop_invariant good s0
    {| results := (results v ++ [result])%list; next_id := next_id v + 1 |} st'.
Proof.
  intros (Ht & Hn & Hids & Hd & delays & Hs & Hl & Hg) Hid Hgood Ht' Hd' Hs'.
  unfold loop_invariant. cbn [results next_id].
  split; [lia |]. split; [lia |]. split.
  - rewrite map_app, Hids, range_app by lia.
    change (range 1) with [0]. cbn. now rewrite Hid, Z.add_0_r.
  - split; [lia |]. exists (delay :: delays). repeat split.
    + rewrite Hs', Hs. reflexivity.
    + cbn. lia.
    + now constructor.
Qed.

Lemma loop_invariant_end good s0 v st :
  loop_invariant good s0 v st -> ordered_run good s0 (results v) st.
Proof.
  intros (Ht & Hn & Hids & Hd & delays & Hs & Hl & Hg).
  assert (Hlen : List.length (results v) = Z.to_nat (next_id v)).
  { rewrite <- (length_map request_id), Hids. apply range_length. }
  unfold ordered_run. split.
  - rewrite Hids. f_equal. unfold len. lia.
  - split; [lia |]. exists delays. repeat split; auto. lia.
Qed.

Definition positive (d : Q) : Prop := (0 < d)%Q.

(** The clock reaches the deadline: from the [n]-th reading on, at least
    [duration] seconds have passed since the reading [from]. *)
Definition deadline_by (w : world) (from : nat) (duration : Z) (n : nat) : Prop :=
  forall k, (n <= k)%nat -> (inject_Z duration <= w_clock w k - w_clock w from)%Q.

(** The ramp strategy ends once the clock reaches the duration, and then
    its results carry the request ids 0, 1, 2, ... in the order of issue,
    with one random draw and one positive delay slept per request. *)
Theorem ramp_ends_in_order w fuel start_rps end_rps duration s0 n :
  duration <> 0 ->
  deadline_by w (ticks s0) duration n ->
  (n < fuel)%nat ->
  exists results s',
    run_ramp_test w fuel start_rps end_rps duration s0 = (Ok results, s') /\
    ordered_run positive s0 results s'.
Proof.
  intros Hdur Hdead Hfuel.
  unfold run_ramp_test. unfold bind at 1. cbn [now]. unfold bind at 1.
  match goal with
  | |- context [while fuel ?c ?b ?a ?s1] =>
      destruct (while_total (loop_invariant positive s0) (loop_invariant positive s0)
                  (fun x => (n - ticks x)%nat) c b) with (fuel := fuel) (acc := a) (s := s1)
        as (v & s' & E & HQ)
  end.
  - intros v st HI. unfold bind at 1. cbn [now ret].
    do 2 eexists. split; [reflexivity |].
    destruct (Qltb _ _) eqn:C.
    + apply Qltb_lt in C.
      assert (Hk : (ticks st < n)%nat).
      { destruct (Nat.lt_ge_cases (ticks st) n) as [H | H]; [exact H |].
        specialize (Hdead _ H). lra. }
      unfold bind at 1. cbn [now]. unfold bind at 1.
      rewrite div_nonzero by (apply Trend.inject_Z_nonzero; exact Hdur).
      unfold bind at 1.
      match goal with
      | |- context [(if Qgtb ?r 0 then _ else _) ?st1] =>
          destruct (ramp_delay_guarded r st1) as (delay & Ed & _ & _ & Hpos)
      end.
      rewrite Ed. unfold bind at 1. cbn [randint]. unfold bind at 1.
      match goal with
      | |- context [await_send_request w ?id ?idval ?st1] =>
          destruct (await_send_request_returns w id idval st1) as (r & Er & Hid)
      end.
      rewrite Er. unfold bind at 1. cbn [sleep modify ret].
      do 2 eexists. split; [reflexivity |]. split.
      * eapply loop_invariant_step; eauto; cbn; lia.
      * cbn. lia.
    + destruct HI as (Ht & Hrest). split; [cbn; lia | exact Hrest].
  - apply loop_invariant_start; cbn; auto.
  - cbn. lia.
  - rewrite E. do 2 eexists. split; [reflexivity |].
    now apply loop_invariant_end.
Qed.

Lemma ramp_ends_in_order_witness :
  exists results s',
    run_ramp_test dead_world 10 (-2) (-1) 4 sched0 = (Ok results, s') /\
    ordered_run positive sched0 results s'.
Proof.
  apply (ramp_ends_in_order dead_world 10 (-2) (-1) 4 sched0 4).
  - lia.
  - intros k Hk. cbn. unfold Qminus. rewrite <- inject_Z_opp, <- inject_Z_plus, <- Zle_Qle.
    lia.
  - lia.
Defined.

(** The sustained strategy, at a rate that is not zero, ends once the clock
    reaches the duration; its results carry the request ids 0, 1, 2, ... in
    the order of issue, and after every request it sleeps the same delay
    [1 / rps], computed once before the loop. *)
Theorem sustained_ends_in_order w fuel rps duration s0 n :
  rps <> 0 ->
  deadline_by w (ticks s0) duration n ->
  (n < fuel)%nat ->
  exists results s',
    run_sustained_test w fuel rps duration s0 = (Ok results, s') /\
    ordered_run (fun d => d = (1 / inject_Z rps)%Q) s0 results s'.
Proof.
  intros Hrps Hdead Hfuel.
  unfold run_sustained_test. unfold bind at 1. cbn [now]. unfold bind at 1.
  rewrite div_nonzero by (apply Trend.inject_Z_nonzero; exact Hrps).
  unfold bind at 1.
  match goal with
  | |- context [while fuel ?c ?b ?a ?s1] =>
      destruct (while_total
                  (loop_invariant (fun d => d = (1 / inject_Z rps)%Q) s0)
                  (loop_invariant (fun d => d = (1 / inject_Z rps)%Q) s0)
                  (fun x => (n - ticks x)%nat) c b) with (fuel := fuel) (acc := a) (s := s1)
        as (v & s' & E & HQ)
  end.
  - intros v st HI. unfold bind at 1. cbn [now ret].
    do 2 eexists. split; [reflexivity |].
    destruct (Qltb _ _) eqn:C.
    + apply Qltb_lt in C.
      assert (Hk : (ticks st < n)%nat).
      { destruct (Nat.lt_ge_cases (ticks st) n) as [H | H]; [exact H |].
        specialize (Hdead _ H). lra. }
      unfold bind at 1. cbn [randint]. unfold bind at 1.
      match goal with
      | |- context [await_send_request w ?id ?idval ?st1] =>
          destruct (await_send_request_returns w id idval st1) as (r & Er & Hid)
      end.
      rewrite Er. unfold bind at 1.
      destruct ((next_id v + 1) mod 20 =? 0).
      * unfold bind at 1. cbn [now ret]. unfold bind at 1. cbn [sleep modify ret].
        do 2 eexists. split; [reflexivity |]. split.
        -- eapply loop_invariant_step; eauto; cbn; lia.
        -- cbn. lia.
      * cbn [ret]. unfold bind at 1. cbn [sleep modify ret].
        do 2 eexists. split; [reflexivity |]. split.
        -- eapply loop_invariant_step; eauto; cbn; lia.
        -- cbn. lia.
    + destruct HI as (Ht & Hrest). split; [cbn; lia | exact Hrest].
  - apply loop_invariant_start; cbn; auto.
  - cbn. lia.
  - rewrite E. do 2 eexists. split; [reflexivity |].
    now apply loop_invariant_end.
Qed.

Lemma sustained_ends_in_order_witness :
  exists results s',
    run_sustained_test dead_world 10 15 4 sched0 = (Ok results, s') /\
    ordered_run (fun d => d = (1 / inject_Z 15)%Q) sched0 results s'.
Proof.
  apply (sustained_ends_in_order dead_world 10 15 4 sched0 4).
  - lia.
  - intros k Hk. cbn. unfold Qminus. rewrite <- inject_Z_opp, <- inject_Z_plus, <- Zle_Qle.
    lia.
  - lia.
Defined.

(** A ramp whose start and end rates are the same positive rate paces like
    the sustained strategy: every delay it sleeps equals [1 / rate],
    however the run ends. *)
Theorem flat_ramp_paces_like_sustained w fuel rate duration s :
  0 < rate ->
  Forall (fun d => (d == 1 / inject_Z rate)%Q) (slept s) ->
  Forall (fun d => (d == 1 / inject_Z rate)%Q)
         (slept (snd (run_ramp_test w fuel rate rate duration s))).
Proof.
  intros Hrate Hs.
  set (J := fun ds : list Q => Forall (fun d => (d == 1 / inject_Z rate)%Q) ds).
  enough (H : hoare (fun st => J (slept st)) (run_ramp_test w fuel rate rate duration)
                    (fun _ st => J (slept st)) (fun st => J (slept st))).
  { specialize (H s Hs).
    destruct (run_ramp_test w fuel rate rate duration s) as [[r | e |] s']; exact H. }
  unfold run_ramp_test.
  eapply hoare_bind; [apply hoare_now |]. intros start_time.
  eapply hoare_bind with (R := fun _ st => J (slept st));
    [| intros vars; apply hoare_ret; auto].
  apply (hoare_while (fun _ st => J (slept st)) (fun _ st => J (slept st))); [auto | |].
  - intros acc. eapply hoare_bind; [apply hoare_now |]. intros t.
    apply hoare_ret. intros st Hst. now destruct (Qltb _ _).
  - intros acc. eapply hoare_bind; [apply hoare_now |]. intros t.
    eapply hoare_bind; [apply hoare_div |]. intros progress.
    eapply hoare_bind with
      (R := fun delay st => J (slept st) /\ (delay == 1 / inject_Z rate)%Q).
    { intros st [Hst _].
      assert (Hcur : (inject_Z rate + inject_Z (rate - rate) * progress == inject_Z rate)%Q).
      { rewrite Z.sub_diag. change (inject_Z 0) with 0%Q. ring. }
      assert (Hpos : (0 < inject_Z rate)%Q)
        by (change 0%Q with (inject_Z 0); now rewrite <- Zlt_Qlt).
      destruct (ramp_delay_guarded
                  (inject_Z rate + inject_Z (rate - rate) * progress) st)
        as (delay & -> & _ & Hd & _).
      split; [exact Hst |]. rewrite Hd by (rewrite Hcur; exact Hpos).
      now rewrite Hcur. }
    intros delay.
    apply (hoare_conseq _ (fun st => (delay == 1 / inject_Z rate)%Q /\ J (slept st))
             _ _ (fun _ st => J (slept st)) _ (fun st => J (slept st)));
      [| tauto | auto | auto].
    apply hoare_assume. intros Hdelay.
    eapply hoare_bind; [apply hoare_randint |]. intros r.
    eapply hoare_bind; [apply hoare_await |]. intros result.
    eapply hoare_bind with (R := fun _ st => J (slept st)).
    { eapply hoare_conseq;
        [ apply (hoare_sleep J (fun st => J (slept st)))
        | intros st [_ Hst]; exact Hst | auto | auto ].
      intros ds Hds. now constructor. }
    intros _. apply hoare_ret. auto.
Qed.

(** Whatever the rates, the duration and the clock, and however the run ends
    (returning, raising or cut off), the ramp strategy never passes a zero
    or negative delay to [asyncio.sleep]. *)
Theorem ramp_never_sleeps_nonpositive w fuel start_rps end_rps duration s :
  all_positive (slept s) ->
  all_positive (slept (snd (run_ramp_test w fuel start_rps end_rps duration s))).
Proof.
  intros Hs.
  pose proof (ramp_delays_positive w fuel start_rps end_rps duration s Hs) as H.
  destruct (run_ramp_test w fuel start_rps end_rps duration s) as [[r | e |] s']; exact H.
Qed.

Lemma ramp_never_sleeps_nonpositive_witness :
  all_positive (slept (snd (run_ramp_test dead_world 10 (-2) 3 4 sched0))).
Proof.
  apply (ramp_never_sleeps_nonpositive dead_world 10 (-2) 3 4 sched0). constructor.
Defined.

Lemma flat_ramp_paces_like_sustained_witness :
  Forall (fun d => (d == 1 / inject_Z 10)%Q)
         (slept (snd (run_ramp_test dead_world 10 10 10 2 sched0))).
Proof.
  apply (flat_ramp_paces_like_sustained dead_world 10 10 2 sched0).
  - lia.
  - constructor.
Defined.

End Pacing.

(** ** Timing of one request *)

Module RequestTiming.
Import Py AdvancedBenchmark RequestIssuer.
Local Open Scope string_scope.
Local Open Scope Z_scope.

(** Every result of [send_request] starts at the first clock reading and
    has [response_time = (end_time - start_time) * 1000]. When the server's
    reply is read to its end, [end_time] is the second reading, taken before
    the body is parsed; when the HTTP call raises it is the second reading
    too; when parsing the body fails it is the third. On a clock that does
    not run backwards the response time is not negative. *)
Theorem response_time_is_derived a id idval :
  exists r k,
    send_request a id idval 0%nat = (Ok r, k) /\
    start_time r = att_clock a 0%nat /\
    response_time r = ((end_time r - start_time r) * 1000)%Q /\
    (forall rsp o, reply_of a idval = Some (rsp, o) ->
       end_time r = att_clock a 1%nat /\ status_code r = status rsp) /\
    (forall e, att_net a idval = PostRaises e -> end_time r = att_clock a 1%nat) /\
    (forall rsp e, att_net a idval = Responds rsp -> failure_of a idval = Some e ->
       end_time r = att_clock a 2%nat /\ status_code r = 0) /\
    (monotone (att_clock a) -> (0 <= response_time r)%Q).
Proof.
  unfold send_request, bind, try_except, time_time, session_post, response_json,
    get_method, raise, ret, reply_of, failure_of, monotone.
  destruct (att_net a idval) as [e0 | rsp0] eqn:N; cbn.
  - do 2 eexists. split; [reflexivity |]. cbn.
    repeat split; try discriminate; auto.
    intros Hm. specialize (Hm 0%nat 1%nat ltac:(lia)). nra.
  - destruct (json rsp0) as [e0 | [o0 | ty]] eqn:J; cbn;
      (do 2 eexists; split; [reflexivity |]); cbn;
      (split; [reflexivity |]); (split; [reflexivity |]);
      (split; [intros rsp1 o1 H; try discriminate |]);
      try (split; [intros e1 H1; discriminate |]);
      try (split; [intros rsp1 e1 _ H1; try discriminate; now split |]).
    + intros Hm. specialize (Hm 0%nat 2%nat ltac:(lia)). nra.
    + injection H as <- _. now split.
    + intros Hm. specialize (Hm 0%nat 1%nat ltac:(lia)). nra.
    + intros Hm. specialize (Hm 0%nat 2%nat ltac:(lia)). nra.
Qed.

Lemma response_time_is_derived_witness :
  exists r k,
    send_request refused 3 "probe" 0%nat = (Ok r, k) /\
    (0 <= response_time r)%Q.
Proof.
  destruct (response_time_is_derived refused 3 "probe")
    as (r & k & E & _ & _ & _ & _ & _ & H).
  exists r, k. split; [exact E |]. apply H.
  intros i j Hij. cbn. rewrite <- Zle_Qle. lia.
Defined.

End RequestTiming.

(** ** The error breakdown *)

Module ErrorBreakdown.
Import Py AdvancedBenchmark.
Local Open Scope string_scope.
Local Open Scope Z_scope.

(** The message a failed result is counted under. *)
Definition message (r : RequestResult) : string :=
  match error r with
  | None | Some "" => "unknown"
  | Some e => e
  end.

(** How many of the results are counted under [m]. *)
Definition occurrences (m : string) (failed : list RequestResult) : Z :=
  len (filter (fun r => String.eqb (message r) m) failed).

(** The dictionary of counters [analyze_errors] builds. *)
Definition tally (failed : list RequestResult) (d : list (string * Z)) : list (string * Z) :=
  fold_left (fun d r => count_up (message r) d) failed d.

Definition count_of (m : string) (d : list (string * Z)) : Z :=
  match assoc m d with Some c => c | None => 0 end.

Lemma occurrences_nonneg m failed : 0 <= occurrences m failed.
Proof. unfold occurrences, len. lia. Qed.

Lemma occurrences_cons m r failed :
  occurrences m (r :: failed) =
  (if String.eqb (message r) m then 1 else 0) + occurrences m failed.
Proof.
  unfold occurrences, len. cbn [filter].
  destruct (String.eqb (message r) m); cbn [List.length]; lia.
Qed.

(** Reading a counter after [d[k] = d.get(k, 0) + 1]. *)
Lemma assoc_count_up (k m : string) (d : list (string * Z)) :
  assoc m (count_up k d) =
  if String.eqb k m then Some (count_of k d + 1) else assoc m d.
Proof.
  unfold count_of. induction d as [| [k' c] d IH]; cbn [count_up assoc].
  - rewrite (String.eqb_sym m k). destruct (String.eqb k m); reflexivity.
  - destruct (String.eqb_spec k k') as [-> | Hk]; cbn [assoc].
    + rewrite (String.eqb_sym m k'). now destruct (String.eqb k' m).
    + destruct (String.eqb_spec m k') as [-> | Hm].
      * destruct (String.eqb_spec k k'); [contradiction | reflexivity].
      * exact IH.
Qed.

Lemma keys_count_up (k : string) (d : list (string * Z)) :
  NoDup (map fst d) ->
  NoDup (map fst (count_up k d)) /\
  (forall m, In m (map fst (count_up k d)) <-> m = k \/ In m (map fst d)).
Proof.
  induction d as [| [k' c] d IH]; cbn [count_up map fst]; intros Hnd.
  - split; [repeat constructor; auto |]. intros m. cbn. intuition.
  - inversion Hnd as [| ? ? Hnotin Hnd']; subst.
    destruct (String.eqb_spec k k') as [-> | Hk]; cbn [map fst].
    + split; [exact Hnd |]. intros m. cbn. intuition.
    + destruct (IH Hnd') as [IHnd IHin]. split.
      * constructor; [| exact IHnd]. rewrite IHin. intros [E | H]; auto.
      * intros m. cbn. rewrite IHin. intuition.
Qed.

Lemma tally_keys failed d :
  NoDup (map fst d) -> NoDup (map fst (tally failed d)).
Proof.
  revert d. induction failed as [| r failed IH]; intros d Hd; [exact Hd |].
  apply IH. now apply keys_count_up.
Qed.

(** Each counter is the number of results counted under its message. *)
Lemma tally_counts m failed d :
  assoc m (tally failed d) =
  match assoc m d with
  | Some c => Some (c + occurrences m failed)
  | None => if occurrences m failed =? 0 then None else Some (occurrences m failed)
  end.
Proof.
  revert d. induction failed as [| r failed IH]; intros d.
  - cbn. destruct (assoc m d); [f_equal; unfold occurrences; cbn; lia | reflexivity].
  - cbn [tally fold_left]. fold (tally failed (count_up (message r) d)).
    rewrite IH, assoc_count_up, occurrences_cons.
    pose proof (occurrences_nonneg m failed) as Hn. unfold count_of.
    destruct (String.eqb_spec (message r) m) as [-> | Hm].
    + destruct (assoc m d) as [c |].
      * f_equal. lia.
      * destruct (Z.eqb_spec (1 + occurrences m failed) 0); [lia |]. f_equal; try lia.
    + destruct (assoc m d); [reflexivity |].
      now rewrite Z.add_0_l.
Qed.

Lemma assoc_in (d : list (string * Z)) k c :
  NoDup (map fst d) -> In (k, c) d -> assoc k d = Some c.
Proof.
  induction d as [| [k' c'] d IH]; cbn [map fst assoc]; intros Hnd Hin; [contradiction |].
  inversion Hnd as [| ? ? Hnotin Hnd']; subst.
  destruct Hin as [E | Hin].
  - injection E as -> ->. now rewrite String.eqb_refl.
  - destruct (String.eqb_spec k k') as [-> | _]; [| now apply IH].
    exfalso. apply Hnotin. now apply (in_map fst) in Hin.
Qed.

Lemma in_assoc (d : list (string * Z)) k c :
  assoc k d = Some c -> In (k, c) d.
Proof.
  induction d as [| [k' c'] d IH]; cbn [assoc]; [discriminate |].
  destruct (String.eqb_spec k k') as [-> | _].
  - intros [= ->]. now left.
  - intros H. right. now apply IH.
Qed.

(** The entry kept by [max(..., key=count)] is an entry, and no entry has a
    larger count. *)
Lemma largest_entry (rest : list (string * Z)) (kv : string * Z) :
  let best := fold_left (fun b e => if snd b <? snd e then e else b) rest kv in
  In best (kv :: rest) /\ forall e, In e (kv :: rest) -> snd e <= snd best.
Proof.
  cbv zeta. revert kv. induction rest as [| e rest IH]; intros kv; cbn [fold_left].
  - split; [now left |]. intros e [<- | []]. lia.
  - destruct (IH (if snd kv <? snd e then e else kv)) as [Hin Hmax].
    split.
    + destruct Hin as [E | Hin]; [| now right; right].
      rewrite <- E. destruct (snd kv <? snd e); [right; now left | now left].
    + intros x [E | [E | Hx]].
      * subst x. etransitivity; [| apply Hmax; now left].
        destruct (Z.ltb_spec (snd kv) (snd e)); lia.
      * subst x. etransitivity; [| apply Hmax; now left].
        destruct (Z.ltb_spec (snd kv) (snd e)); lia.
      * apply Hmax. now right.
Qed.

Lemma assoc_map_PInt m (d : list (string * Z)) :
  assoc m (map (fun kc => (fst kc, PInt (snd kc))) d) = option_map PInt (assoc m d).
Proof.
  induction d as [| [k c] d IH]; [reflexivity |].
  cbn [map assoc fst snd]. destruct (String.eqb m k); [reflexivity | exact IH].
Qed.

(** [analyze_errors] on failed results: [total] is their number; the
    counter of a message is the number of results with that message, where
    a missing or empty message counts as ["unknown"], and a message that
    does not occur has no counter; [most_common] names a message that
    occurs, together with its count, and no message occurs more often. *)
Theorem analyze_errors_counts (r : RequestResult) (failed : list RequestResult) :
  exists types k c,
    dict_get "total" (analyze_errors (r :: failed)) = Some (PInt (len (r :: failed))) /\
    dict_get "types" (analyze_errors (r :: failed)) = Some types /\
    (forall m, dict_get m types =
               if occurrences m (r :: failed) =? 0 then None
               else Some (PInt (occurrences m (r :: failed)))) /\
    dict_get "most_common" (analyze_errors (r :: failed)) = Some (PTuple [PStr k; PInt c]) /\
    c = occurrences k (r :: failed) /\
    0 < c /\
    (forall m, occurrences m (r :: failed) <= c).
Proof.
  set (all := r :: failed).
  assert (Ht : forall m, assoc m (tally all []) =
                         if occurrences m all =? 0 then None else Some (occurrences m all))
    by (intros m; apply (tally_counts m all [])).
  assert (Hnd : NoDup (map fst (tally all []))) by (apply tally_keys; constructor).
  destruct (tally all []) as [| kv rest] eqn:T.
  { exfalso. specialize (Ht (message r)). cbn in Ht.
    unfold all in Ht. rewrite occurrences_cons, String.eqb_refl in Ht.
    pose proof (occurrences_nonneg (message r) failed).
    destruct (Z.eqb_spec (1 + occurrences (message r) failed) 0); [lia | discriminate]. }
  destruct (largest_entry rest kv) as [Hin Hmax]. cbv zeta in Hin, Hmax.
  set (best := fold_left (fun b e => if snd b <? snd e then e else b) rest kv) in *.
  assert (Hbest : assoc (fst best) (kv :: rest) = Some (snd best)).
  { apply assoc_in; [exact Hnd |]. now destruct best. }
  pose proof (Ht (fst best)) as Hc. rewrite Hbest in Hc.
  destruct (Z.eqb_spec (occurrences (fst best) all) 0) as [| Hpos]; [discriminate |].
  injection Hc as Hc.
  exists (PDict (map (fun kc => (fst kc, PInt (snd kc))) (kv :: rest))), (fst best), (snd best).
  unfold analyze_errors. fold all. fold (message). 
  change (fold_left _ all []) with (tally all []). rewrite T.
  split; [reflexivity |]. split; [reflexivity |]. split.
  - intros m. cbn [dict_get]. rewrite assoc_map_PInt, Ht.
    now destruct (occurrences m all =? 0).
  - split; [reflexivity |]. split; [exact Hc |].
    pose proof (occurrences_nonneg (fst best) all). split; [lia |].
    intros m. destruct (Z.eqb_spec (occurrences m all) 0) as [-> | Hm]; [lia |].
    pose proof (Ht m) as Hm'.
    destruct (Z.eqb_spec (occurrences m all) 0); [contradiction |].
    apply in_assoc in Hm'. apply Hmax in Hm'. exact Hm'.
Qed.

(** Without failed results there are no counters and no [most_common]
    entry. *)
Lemma analyze_errors_none :
  analyze_errors [] = PDict [("total", PInt 0); ("types", PDict [])].
Proof. reflexivity. Qed.

End ErrorBreakdown.

(** ** The summary of a run *)

Module RunSummary.
Import Py AdvancedBenchmark Logic Total Dispersion.
Local Open Scope string_scope.
Local Open Scope Z_scope.

Definition successes (results : list RequestResult) : list RequestResult :=
  filter success results.

Definition failures (results : list RequestResult) : list RequestResult :=
  filter (fun r => negb (success r)) results.

Definition success_rate_of (results : list RequestResult) : Q :=
  (inject_Z (len (successes results)) / inject_Z (len results) * 100)%Q.

(** The shape of the summary of a run with a successful request. *)
Definition is_summary_of (results : list RequestResult) (stats : pyval) : Prop :=
  exists rt ta,
    stats = PDict [
      ("total_requests", PInt (len results));
      ("successful_requests", PInt (len (successes results)));
      ("failed_requests", PInt (len (failures results)));
      ("success_rate", PFloat (success_rate_of results));
      ("response_times", rt);
      ("timing_analysis", ta);
      ("error_analysis", analyze_errors (failures results))].

Lemma analyze_results_summary {St} sqrt (results : list RequestResult) :
  successes results <> [] ->
  returns (St := St) (analyze_results sqrt results) (is_summary_of results).
Proof.
  intros Hs. unfold analyze_results, is_summary_of, success_rate_of, successes, failures in *.
  destruct results as [| r results]; [contradiction |].
  set (successful := filter success (r :: results)) in *.
  assert (Hne : map response_time successful <> [])
    by (destruct successful; [contradiction | discriminate]).
  destruct (map response_time successful) as [| t ts] eqn:D; [contradiction |].
  eapply returns_bind; [apply (mean_returns _ Hne) |]. intros mean _.
  eapply returns_bind; [apply (median_returns _ Hne) |]. intros median _.
  eapply returns_bind; [apply (np_percentile_returns _ 95%Q Hne); now vm_compute |].
  intros p95 _.
  eapply returns_bind; [apply (np_percentile_returns _ 99%Q Hne); now vm_compute |].
  intros p99 _.
  eapply returns_bind with (R := fun _ => True).
  { destruct (Z.ltb_spec 1 (len (t :: ts))) as [Hn | Hn]; [| now apply returns_ret].
    eapply returns_bind; [apply stdev_returns; lia |].
    intros sd _. now apply returns_ret. }
  intros std_dev _.
  eapply returns_bind; [apply (analyze_timing_patterns_returns sqrt successful) |].
  intros timing_analysis _.
  apply returns_ret. do 2 eexists. reflexivity.
Qed.

Lemma partition_lengths (results : list RequestResult) :
  len (successes results) + len (failures results) = len results.
Proof.
  unfold len, successes, failures.
  pose proof (filter_length success results). lia.
Qed.

Lemma share_in_percent (a b : Z) :
  0 < a -> a <= b -> (0 < inject_Z a / inject_Z b * 100 <= 100)%Q.
Proof.
  intros Ha Hab.
  assert (Ha' : (0 < inject_Z a)%Q) by (change 0%Q with (inject_Z 0); now rewrite <- Zlt_Qlt).
  assert (Hab' : (inject_Z a <= inject_Z b)%Q) by now rewrite <- Zle_Qle.
  assert (Hb : (0 < inject_Z b)%Q) by lra.
  pose proof (Qinv_lt_0_compat _ Hb) as Hi.
  assert (Hone : (inject_Z b * / inject_Z b == 1)%Q) by (apply Qmult_inv_r; lra).
  unfold Qdiv. set (i := (/ inject_Z b)%Q) in *. nra.
Qed.

(** With at least one successful request [analyze_results] raises nothing
    and accounts for every request: successes and failures add up to the
    total, the success rate is their share in percent, above 0 and at most
    100, the summary carries no ["error"] key, and the failures are broken
    down by [analyze_errors]. *)
Theorem analyze_results_accounts sqrt (results : list RequestResult) :
  successes results <> [] ->
  exists stats,
    run (analyze_results sqrt results) = Ok stats /\
    dict_get "total_requests" stats = Some (PInt (len results)) /\
    dict_get "successful_requests" stats = Some (PInt (len (successes results))) /\
    dict_get "failed_requests" stats =
      Some (PInt (len results - len (successes results))) /\
    dict_get "success_rate" stats = Some (PFloat (success_rate_of results)) /\
    (0 < success_rate_of results <= 100)%Q /\
    dict_get "error" stats = None /\
    dict_get "error_analysis" stats = Some (analyze_errors (failures results)).
Proof.
  intros Hs.
  destruct (returns_run _ _ (analyze_results_summary sqrt results Hs))
    as (stats & E & rt & ta & ->).
  eexists. split; [exact E |].
  pose proof (partition_lengths results) as Hp.
  split; [reflexivity |]. split; [reflexivity |]. split.
  { cbn. do 2 f_equal. lia. }
  split; [reflexivity |]. split.
  { assert (Hpos : 0 < len (successes results))
      by (unfold len; destruct (successes results); [contradiction | cbn; lia]).
    assert (Hle : len (successes results) <= len results)
      by (unfold len in *; lia).
    apply share_in_percent; lia. }
  split; reflexivity.
Qed.

Lemma analyze_results_accounts_witness :
  exists stats,
    run (analyze_results sqrt15 [succeeded 0 100; NoData.timed_out 1]) = Ok stats /\
    dict_get "total_requests" stats = Some (PInt 2) /\
    dict_get "failed_requests" stats = Some (PInt (2 - 1)) /\
    dict_get "error" stats = None.
Proof.
  destruct (analyze_results_accounts sqrt15 [succeeded 0 100; NoData.timed_out 1])
    as (stats & E & Ht & _ & Hf & _ & _ & He & _).
  - discriminate.
  - exists stats. repeat split; assumption.
Defined.

Lemma no_successes_all_failed (results : list RequestResult) :
  successes results = [] -> NoData.all_failed results.
Proof.
  unfold successes, NoData.all_failed.
  induction results as [| r results IH]; cbn [filter]; intros H; [constructor |].
  destruct (success r) eqn:S; [discriminate |]. constructor; auto.
Qed.

Lemma existsb_successes (results : list RequestResult) :
  existsb success results = match successes results with [] => false | _ => true end.
Proof.
  unfold successes. induction results as [| r results IH]; [reflexivity |].
  cbn [existsb filter]. destruct (success r); [reflexivity | exact IH].
Qed.

(** How [analyze_results] and [generate_report] compose. For a run that is
    not empty the report is always produced: the full report when some
    request succeeded, the one-line notice when none did. For the empty run
    [analyze_results] gives the empty summary and [generate_report] raises
    [KeyError] on it. *)
Theorem report_of_a_run sqrt repr render test_name (results : list RequestResult) :
  (results = [] ->
   run (analyze_results sqrt results) = Ok (PDict []) /\
   run (generate_report repr render test_name (PDict [])) =
   Raise (Exn KeyError "'response_times'")) /\
  (results <> [] ->
   exists stats,
     run (analyze_results sqrt results) = Ok stats /\
     run (generate_report repr render test_name stats) =
     Ok (if existsb success results
         then render test_name stats
         else "❌ " ++ test_name ++ ": No successful requests")).
Proof.
  split; [intros ->; split; reflexivity |].
  intros Hne. rewrite existsb_successes.
  destruct (successes results) as [| s ss] eqn:S.
  - destruct results as [| r results]; [contradiction |].
    eexists. split.
    + apply NoData.analyze_results_no_success. now apply no_successes_all_failed.
    + reflexivity.
  - assert (Hs : successes results <> []) by (rewrite S; discriminate).
    destruct (returns_run _ _ (analyze_results_summary sqrt results Hs))
      as (stats & E & rt & ta & ->).
    eexists. split; [exact E | reflexivity].
Qed.

Lemma report_of_a_run_witness :
  exists stats,
    run (analyze_results sqrt15 [succeeded 0 100; NoData.timed_out 1]) = Ok stats /\
    run (generate_report (fun _ => "") (fun name _ => name) "Ramp Test" stats) =
    Ok "Ramp Test".
Proof.
  apply (proj2 (report_of_a_run sqrt15 (fun _ => "") (fun name _ => name) "Ramp Test"
                  [succeeded 0 100; NoData.timed_out 1])).
  discriminate.
Defined.

End RunSummary.

(** ** What the outlier detectors flag *)

Module Flagged.
Import Py Logic Total Dispersion.
Local Open Scope string_scope.
Local Open Scope Z_scope.
Local Open Scope py_scope.

(** A loop over [xs] whose body is only asked about members of [xs]. *)
Lemma returns_for_each_in {St A B} (I : list A -> B -> Prop)
    (body : A -> B -> M St B) (xs : list A) :
  (forall done x acc, In x xs -> I done acc -> returns (body x acc) (I (done ++ [x])%list)) ->
  forall acc, I [] acc -> returns (for_each xs acc body) (I xs).
Proof.
  intros Hbody.
  enough (H : forall rest done acc,
             (forall x, In x rest -> In x xs) -> I done acc ->
             returns (for_each rest acc body) (I (done ++ rest)%list))
    by (intros acc Hacc; apply (H xs [] acc); auto).
  induction rest as [| x rest IH]; intros done acc Hin Hacc.
  - apply returns_ret. now rewrite app_nil_r.
  - cbn [for_each].
    eapply returns_bind; [apply (Hbody done x acc); [apply Hin; now left | exact Hacc] |].
    intros acc' Hacc'.
    eapply returns_weaken; [apply (IH (done ++ [x])%list acc'); [| exact Hacc'] |].
    + intros y Hy. apply Hin. now right.
    + intros a H. now rewrite <- app_assoc in H.
Qed.

(** [enumerate(data)] pairs each value with its position. *)
Lemma in_enumerate_from (data : list Q) (start : nat) (i : Z) (v : Q) :
  In (i, v) (combine (map Z.of_nat (seq start (List.length data))) data) ->
  exists k, i = Z.of_nat (start + k) /\ nth_error data k = Some v.
Proof.
  revert start. induction data as [| y data IH]; intros start; cbn; [contradiction |].
  intros [E | H].
  - injection E as <- <-. exists 0%nat. split; [f_equal; lia | reflexivity].
  - destruct (IH (S start) H) as (k & -> & Hk). exists (S k). split; [f_equal; lia | exact Hk].
Qed.

Lemma in_enumerate (data : list Q) (i : Z) (v : Q) :
  In (i, v) (combine (range (len data)) data) ->
  0 <= i < len data /\ nth_error data (Z.to_nat i) = Some v.
Proof.
  unfold range, len. rewrite Nat2Z.id. intros H.
  destruct (in_enumerate_from data 0 i v H) as (k & -> & Hk).
  assert (k < List.length data)%nat by (apply nth_error_Some; congruence).
  cbn. rewrite Nat2Z.id. split; [lia | exact Hk].
Qed.

Lemma length_enumerate (data : list Q) :
  List.length (combine (range (len data)) data) = List.length data.
Proof.
  rewrite length_combine, range_length. unfold len. lia.
Qed.

(** *** [advanced_benchmark.detect_outliers] *)





(** *** [analyze_timing.detect_outliers] *)

(** A triple of the result: a position of [response_times], the value there,
    and the score (a z-score above the threshold, or 0 for the IQR
    method). *)
Definition positioned_triple (response_times : list Q) (method : string) (threshold : Q)
    (t : pyval) : Prop :=
  exists i v score,
    t = PTuple [PInt i; PFloat v; score] /\
    0 <= i < len response_times /\
    nth_error response_times (Z.to_nat i) = Some v /\
    if String.eqb method "zscore"
    then exists z, score = PFloat z /\ (threshold < z)%Q
    else score = PInt 0.

Definition positioned_triples (response_times : list Q) (method : string) (threshold : Q)
    (result : pyval) : Prop :=
  exists triples,
    result = PList triples /\
    Forall (positioned_triple response_times method threshold) triples /\
    len triples <= len response_times.

Lemma zscore_positions {St} sqrt (t : Q) (ts : list Q) (threshold : Q) :
  returns (St := St) (AnalyzeTiming.detect_outliers sqrt (t :: ts) "zscore" threshold)
          (positioned_triples (t :: ts) "zscore" threshold).
Proof.
  unfold AnalyzeTiming.detect_outliers. cbn [String.eqb Ascii.eqb Bool.eqb].
  eapply returns_bind; [apply returns_div, len_nonzero |]. intros mean _.
  eapply returns_bind; [apply returns_div, len_nonzero |]. intros variance _.
  eapply returns_bind.
  - apply (returns_for_each_in
             (fun done triples =>
                Forall (positioned_triple (t :: ts) "zscore" threshold) triples /\
                (List.length triples <= List.length done)%nat)).
    + intros done [i time] triples Hin (Hall & Hlen). cbn [fst snd].
      apply in_enumerate in Hin. destruct Hin as [Hi Hv].
      eapply returns_bind with (R := fun _ => True).
      * destruct (Qneb (sqrt variance) 0) eqn:N.
        -- apply Qneb_neq in N. eapply returns_weaken; [apply returns_div, N | auto].
        -- now apply returns_ret.
      * intros z _. destruct (Qgtb z threshold) eqn:T; apply returns_ret.
        -- apply Qgtb_gt in T. rewrite !length_app. cbn [List.length]. split; [| lia].
           apply Forall_app. split; [exact Hall |].
           constructor; [| constructor]. exists i, time, (PFloat z).
           repeat split; try tauto; try lia. cbn. eauto.
        -- rewrite length_app. cbn [List.length]. split; [exact Hall | lia].
    + split; [constructor | cbn; lia].
  - intros triples (Hall & Hlen). apply returns_ret.
    exists triples. split; [reflexivity |]. split; [exact Hall |].
    rewrite length_enumerate in Hlen. unfold len. lia.
Qed.

Lemma iqr_positions {St} sqrt (t : Q) (ts : list Q) (threshold : Q) :
  returns (St := St) (AnalyzeTiming.detect_outliers sqrt (t :: ts) "iqr" threshold)
          (positioned_triples (t :: ts) "iqr" threshold).
Proof.
  unfold AnalyzeTiming.detect_outliers. cbn [String.eqb Ascii.eqb Bool.eqb].
  pose proof (len_positive t ts) as Hn. rewrite <- len_sorted in Hn.
  eapply returns_bind with (R := fun _ => True).
  { eapply returns_weaken; [apply returns_index | auto].
    split; [apply Z.div_pos; lia | apply Z.div_lt_upper_bound; lia]. }
  intros q1 _.
  eapply returns_bind with (R := fun _ => True).
  { eapply returns_weaken; [apply returns_index | auto].
    split; [apply Z.div_pos; lia | apply Z.div_lt_upper_bound; lia]. }
  intros q3 _.
  eapply returns_bind.
  - apply (returns_for_each_in
             (fun done triples =>
                Forall (positioned_triple (t :: ts) "iqr" threshold) triples /\
                (List.length triples <= List.length done)%nat)).
    + intros done [i time] triples Hin (Hall & Hlen). cbn [fst snd].
      apply in_enumerate in Hin. destruct Hin as [Hi Hv].
      destruct (_ || _); apply returns_ret.
      * rewrite !length_app. cbn [List.length]. split; [| lia].
        apply Forall_app. split; [exact Hall |].
        constructor; [| constructor]. exists i, time, (PInt 0).
        repeat split; try tauto; lia.
      * rewrite length_app. cbn [List.length]. split; [exact Hall | lia].
    + split; [constructor | cbn; lia].
  - intros triples (Hall & Hlen). apply returns_ret.
    exists triples. split; [reflexivity |]. split; [exact Hall |].
    rewrite length_enumerate in Hlen. unfold len. lia.
Qed.



End Flagged.

(** ** The statistics of [analyze_timing.py] *)

Module Statistics.
Import Py AnalyzeTiming Logic Total Percentile Dispersion.
Local Open Scope string_scope.
Local Open Scope Z_scope.

(** *** Extremes, sorting and sums *)

Lemma min_of_fold (ts : list Q) (m : Q) :
  let r := fold_left (fun m y => if Qltb y m then y else m) ts m in
  (r <= m)%Q /\ (forall x, In x ts -> (r <= x)%Q) /\ In r (m :: ts).
Proof.
  cbv zeta. revert m. induction ts as [| y ts IH]; intros m; cbn [fold_left].
  - split; [apply Qle_refl |]. split; [contradiction | now left].
  - destruct (IH (if Qltb y m then y else m)) as (H1 & H2 & H3).
    destruct (Qltb y m) eqn:C; [apply Qltb_lt in C | apply Qltb_ge in C].
    + split; [lra |]. split.
      * intros x [<- | Hx]; [exact H1 | now apply H2].
      * destruct H3 as [<- | H3]; [right; now left | now right; right].
    + split; [exact H1 |]. split.
      * intros x [<- | Hx]; [lra | now apply H2].
      * destruct H3 as [<- | H3]; [now left | now right; right].
Qed.

Lemma max_of_fold (ts : list Q) (m : Q) :
  let r := fold_left (fun m y => if Qltb m y then y else m) ts m in
  (m <= r)%Q /\ (forall x, In x ts -> (x <= r)%Q) /\ In r (m :: ts).
Proof.
  cbv zeta. revert m. induction ts as [| y ts IH]; intros m; cbn [fold_left].
  - split; [apply Qle_refl |]. split; [contradiction | now left].
  - destruct (IH (if Qltb m y then y else m)) as (H1 & H2 & H3).
    destruct (Qltb m y) eqn:C; [apply Qltb_lt in C | apply Qltb_ge in C].
    + split; [lra |]. split.
      * intros x [<- | Hx]; [exact H1 | now apply H2].
      * destruct H3 as [<- | H3]; [right; now left | now right; right].
    + split; [exact H1 |]. split.
      * intros x [<- | Hx]; [lra | now apply H2].
      * destruct H3 as [<- | H3]; [now left | now right; right].
Qed.

(** [min] and [max] bound every element and are elements. *)
Lemma min_max_bound (t : Q) (ts : list Q) (x : Q) :
  In x (t :: ts) -> (min_of t ts <= x <= max_of t ts)%Q.
Proof.
  unfold min_of, max_of.
  destruct (min_of_fold ts t) as (A1 & A2 & _).
  destruct (max_of_fold ts t) as (B1 & B2 & _).
  intros [<- | Hx]; split; auto.
Qed.

Lemma in_insert_by {A} (key : A -> Q) (x y : A) (l : list A) :
  In x (insert_by key y l) -> x = y \/ In x l.
Proof.
  induction l as [| z l IH]; cbn [insert_by].
  - intros [<- | []]. now left.
  - destruct (Qltb (key y) (key z)).
    + intros [<- | H]; [now left | now right].
    + intros [<- | H]; [right; now left |].
      destruct (IH H); [now left | right; now right].
Qed.

(** Sorting brings in no new element. *)
Lemma in_sorted (xs : list Q) (x : Q) : In x (sorted xs) -> In x xs.
Proof.
  unfold sorted, sorted_by.
  enough (H : forall acc, In x (fold_left (fun acc y => insert_by (fun v => v) y acc) xs acc) ->
                          In x acc \/ In x xs)
    by (intros Hx; destruct (H [] Hx); [contradiction | assumption]).
  induction xs as [| y xs IH]; intros acc; cbn [fold_left]; [auto |].
  intros Hx. destruct (IH _ Hx) as [Hacc | Hxs]; [| right; now right].
  apply in_insert_by in Hacc. destruct Hacc as [-> | Hacc]; [right; now left | now left].
Qed.

Lemma order_stat_in (data : list Q) (i : Z) :
  0 <= i < len data -> In (order_stat data i) data.
Proof.
  intros Hi. unfold order_stat. apply nth_In. unfold len in Hi. lia.
Qed.

(** On sorted data the piecewise value lies between two order statistics. *)
Lemma piecewise_between (data : list Q) (p : Q) :
  data <> [] -> Sorted Qle data -> (0 <= p)%Q -> (p <= 100)%Q ->
  exists a b, In a data /\ In b data /\ (a <= piecewise data p <= b)%Q.
Proof.
  intros Hne Hs Hp0 Hp1.
  change (piecewise data p) with
    (value_at data (Qfloor (position data p))
              (position data p - inject_Z (Qfloor (position data p)))).
  pose proof (position_nonneg data p Hne Hp0) as Hlo.
  pose proof (position_upper data p Hne Hp1) as Hhi.
  pose proof (floor_nonneg _ Hlo) as Hf0. pose proof (floor_upper _ _ Hhi) as Hf1.
  pose proof (weight_range (position data p)) as Hw.
  set (f := Qfloor (position data p)) in *.
  assert (Hlen : 0 < len data)
    by (destruct data; [contradiction | apply len_positive]).
  exists (order_stat data f), (order_stat data (Z.min (f + 1) (len data - 1))).
  split; [apply order_stat_in; lia |]. split; [apply order_stat_in; lia |]. split.
  - apply value_lower; [exact Hs | lia | exact Hw].
  - apply value_upper; [exact Hs | lia | exact Hw].
Qed.

Lemma sum_between (xs : list Q) (lo hi : Q) :
  (forall x, In x xs -> (lo <= x <= hi)%Q) ->
  (inject_Z (len xs) * lo <= sum xs <= inject_Z (len xs) * hi)%Q.
Proof.
  induction xs as [| x xs IH]; intros H.
  - unfold len, sum. cbn [List.length fold_left Z.of_nat].
    change (inject_Z 0) with 0%Q. lra.
  - rewrite Sums.sum_cons. unfold len. cbn [List.length].
    rewrite Nat2Z.inj_succ, <- Z.add_1_r, inject_Z_plus.
    change (inject_Z 1) with 1%Q. fold (len xs).
    destruct IH as [IH1 IH2]; [intros y Hy; apply H; now right |].
    destruct (H x (or_introl eq_refl)). lra.
Qed.

Lemma mean_between (t : Q) (ts : list Q) :
  (min_of t ts <= mean_of (t :: ts) <= max_of t ts)%Q.
Proof.
  destruct (sum_between (t :: ts) (min_of t ts) (max_of t ts)) as [H1 H2];
    [apply min_max_bound |].
  assert (Hn : (0 < inject_Z (len (t :: ts)))%Q).
  { change 0%Q with (inject_Z 0). rewrite <- Zlt_Qlt. apply len_positive. }
  unfold mean_of. split.
  - apply Qle_shift_div_l; [exact Hn |]. rewrite Qmult_comm. exact H1.
  - apply Qle_shift_div_r; [exact Hn |]. rewrite Qmult_comm. exact H2.
Qed.

(** *** What [calculate_statistics] returns *)

(** The dictionary built for the response times [t :: ts], given the values
    the function computes on the way. *)
Definition statistics_dict (sqrt : Q -> Q) (t : Q) (ts : list Q)
    (median p25 p75 p95 p99 : Q) (avg_variation max_variation : pyval) : pyval :=
  PDict [
    ("n", PInt (len (t :: ts)));
    ("mean", PFloat (mean_of (t :: ts)));
    ("median", PFloat median);
    ("std_dev", PFloat (sqrt (population_variance (t :: ts))));
    ("min", PFloat (min_of t ts));
    ("max", PFloat (max_of t ts));
    ("range", PFloat (max_of t ts - min_of t ts));
    ("p25", PFloat p25);
    ("p75", PFloat p75);
    ("p95", PFloat p95);
    ("p99", PFloat p99);
    ("cv", cv_from sqrt (t :: ts));
    ("avg_variation", avg_variation);
    ("max_variation", max_variation);
    ("iqr", PFloat (p75 - p25))].

Definition statistics_shape (sqrt : Q -> Q) (t : Q) (ts : list Q) (stats : pyval) : Prop :=
  exists median avg_variation max_variation,
    stats = statistics_dict sqrt t ts median
              (piecewise (sorted (t :: ts)) 25) (piecewise (sorted (t :: ts)) 75)
              (piecewise (sorted (t :: ts)) 95) (piecewise (sorted (t :: ts)) 99)
              avg_variation max_variation /\
    (min_of t ts <= median <= max_of t ts)%Q.

Lemma sorted_index_between {St} (t : Q) (ts : list Q) (i : Z) :
  0 <= i < len (t :: ts) ->
  returns (St := St) (index (sorted (t :: ts)) i)
          (fun x => (min_of t ts <= x <= max_of t ts)%Q).
Proof.
  intros Hi. eapply returns_weaken; [apply returns_index; now rewrite len_sorted |].
  intros x Hx. apply min_max_bound, in_sorted. eapply nth_error_In, Hx.
Qed.

Lemma calculate_statistics_shape {St} sqrt (t : Q) (ts : list Q) :
  returns (St := St) (calculate_statistics sqrt (t :: ts)) (statistics_shape sqrt t ts).
Proof.
  unfold calculate_statistics.
  pose proof (len_positive t ts) as Hn.
  pose proof (sorted_nonempty_list t ts) as Hsne.
  eapply returns_bind; [apply returns_div, len_nonzero |]. intros mean Hmean.
  eapply returns_bind with (R := fun m => (min_of t ts <= m <= max_of t ts)%Q).
  { destruct (Z.eqb_spec (len (t :: ts) mod 2) 1) as [Hodd | Heven].
    - apply sorted_index_between.
      split; [apply Z.div_pos; lia | apply Z.div_lt_upper_bound; lia].
    - assert (Hn2 : 2 <= len (t :: ts)).
      { destruct (Z.eq_dec (len (t :: ts)) 1) as [E | E];
          [rewrite E in Heven; now cbn in Heven | lia]. }
      assert (Hhalf : 1 <= len (t :: ts) / 2 < len (t :: ts)).
      { split; [apply Z.div_le_lower_bound; lia | apply Z.div_lt_upper_bound; lia]. }
      eapply returns_bind; [apply sorted_index_between; lia |]. intros a Ha.
      eapply returns_bind; [apply sorted_index_between; lia |]. intros b Hb.
      apply returns_ret. cbv beta in Ha, Hb.
      unfold Qdiv. change (/ 2)%Q with (1 # 2)%Q. split; lra. }
  intros median Hmedian.
  eapply returns_bind; [apply (percentile_returns _ 25%Q Hsne); now vm_compute |].
  intros p25 ->.
  eapply returns_bind; [apply (percentile_returns _ 75%Q Hsne); now vm_compute |].
  intros p75 ->.
  eapply returns_bind; [apply (percentile_returns _ 95%Q Hsne); now vm_compute |].
  intros p95 ->.
  eapply returns_bind; [apply (percentile_returns _ 99%Q Hsne); now vm_compute |].
  intros p99 ->.
  eapply returns_bind; [apply returns_div, len_nonzero |]. intros variance Hvar.
  assert (Hm : mean = mean_of (t :: ts)) by exact Hmean.
  assert (Hv : variance = population_variance (t :: ts)) by (rewrite Hvar, Hm; reflexivity).
  eapply returns_bind with (R := fun cv => cv = cv_from sqrt (t :: ts)).
  { unfold cv_from. rewrite <- Hm, <- Hv.
    destruct (Qneb mean 0) eqn:N; [| now apply returns_ret].
    apply Qneb_neq in N.
    eapply returns_bind; [apply returns_div, N |]. intros q ->. now apply returns_ret. }
  intros cv ->.
  eapply returns_bind with (R := fun _ => True).
  { destruct (variations_of (t :: ts)) as [| v vs]; [now apply returns_ret |].
    eapply returns_bind; [apply returns_div, len_nonzero |].
    intros q _. now apply returns_ret. }
  intros avg_variation _.
  apply returns_ret. rewrite Hv, Hm.
  do 3 eexists. split; [reflexivity | exact Hmedian].
Qed.


(** *** Equal response times *)

Section Constant.
Variables (c t : Q) (ts : list Q).
Hypothesis all_equal : Forall (fun x => (x == c)%Q) (t :: ts).






End Constant.



End Statistics.

(** ** Pattern analysis and the comprehensive report *)

Module Patterns.
Import Py AnalyzeTiming Logic Total Dispersion.
Local Open Scope string_scope.
Local Open Scope Z_scope.
Local Open Scope py_scope.

(** [raises c e]: [c] raises [e] and leaves the state alone. *)
Definition raises {St A} (c : M St A) (e : exn) : Prop :=
  forall s, c s = (Raise e, s).

Lemma raises_after {St A B} (c : M St A) (k : A -> M St B) (R : A -> Prop) e :
  returns c R -> (forall a, R a -> raises (k a) e) -> raises (bind c k) e.
Proof.
  intros Hc Hk s. unfold bind. destruct (Hc s) as (a & -> & Ha). apply (Hk a Ha).
Qed.

Lemma raises_first {St A B} (c : M St A) (k : A -> M St B) e :
  raises c e -> raises (bind c k) e.
Proof. intros Hc s. unfold bind. now rewrite Hc. Qed.

Lemma raises_div {St} (a b : Q) :
  (b == 0)%Q ->
  raises (St := St) (div a b) (Exn ZeroDivisionError "float division by zero").
Proof.
  intros Hb s. unfold div.
  destruct (Qeq_bool b 0) eqn:E; [reflexivity |].
  apply Qeq_bool_neq in E. contradiction.
Qed.

Lemma raises_run {A} (c : M unit A) e : raises c e -> run c = Raise e.
Proof. intros H. unfold run. now rewrite H. Qed.

(** The successful response times and request ids of the rows. *)
Definition times (data : list row) : list Q := map response_time_ms (filter success data).
Definition ids (data : list row) : list Z := map request_id (filter success data).

(** The denominator of the slope over the request ids. *)
Definition id_spread (data : list row) : Z :=
  len (times data) * sumZ (map (fun x => x * x) (ids data))
  - sumZ (ids data) * sumZ (ids data).

Lemma len_filter_le {A} (f : A -> bool) (xs : list A) : len (filter f xs) <= len xs.
Proof. unfold len. pose proof (filter_length_le f xs). lia. Qed.

Lemma len_times (data : list row) : len (times data) <= len data.
Proof.
  unfold times, len. rewrite length_map. pose proof (filter_length_le success data). lia.
Qed.

Lemma percent_range (a b : Z) :
  0 <= a <= b -> 0 < b -> (0 <= inject_Z a / inject_Z b * 100 <= 100)%Q.
Proof.
  intros Ha Hb. destruct (Z.eq_dec a 0) as [-> | Hne].
  - unfold Qdiv. change (inject_Z 0) with 0%Q. rewrite !Qmult_0_l. split; now vm_compute.
  - destruct (RunSummary.share_in_percent a b) as [H1 H2]; [lia | lia |]. split; lra.
Qed.

Section Analysis.
Context {St : Type}.
Variable sqrt : Q -> Q.
Variable fmt_slope : Q -> string.

(** The first part of [analyze_patterns], up to the mean: the regression
    line, whose slope is 0 when the ids have no spread. *)
Lemma regression_line_returns (data : list row) :
  3 <= len (times data) ->
  returns (St := St)
    (if negb (id_spread data =? 0)
     then slope <- div (inject_Z (len (times data))
                          * sum (map (fun xy : Z * Q => inject_Z (fst xy) * snd xy)%Q
                                     (combine (ids data) (times data)))
                        - inject_Z (sumZ (ids data)) * sum (times data))%Q
                       (inject_Z (id_spread data)) ;;
          intercept <- div (sum (times data) - slope * inject_Z (sumZ (ids data)))%Q
                           (inject_Z (len (times data))) ;;
          ret (PFloat slope, slope, intercept)
     else intercept <- div (sum (times data)) (inject_Z (len (times data))) ;;
          ret (PInt 0, 0%Q, intercept))
    (fun line => id_spread data = 0 ->
                 line = (PInt 0, 0%Q, mean_of (times data))).
Proof.
  intros Hn.
  assert (HN : ~ (inject_Z (len (times data)) == 0)%Q)
    by (apply Trend.inject_Z_nonzero; lia).
  destruct (Z.eqb_spec (id_spread data) 0) as [E | E]; cbn [negb].
  - eapply returns_bind; [apply returns_div, HN |]. intros intercept ->.
    apply returns_ret. reflexivity.
  - eapply returns_bind; [apply returns_div, Trend.inject_Z_nonzero, E |].
    intros slope _.
    eapply returns_bind; [apply returns_div, HN |]. intros intercept _.
    apply returns_ret. intros H. contradiction.
Qed.

Lemma mean_zero (data : list row) :
  3 <= len (times data) ->
  ((sum (times data) / inject_Z (len (times data)) == 0)%Q <-> (sum (times data) == 0)%Q).
Proof.
  intros Hn.
  assert (HN : ~ (inject_Z (len (times data)) == 0)%Q)
    by (apply Trend.inject_Z_nonzero; lia).
  split; intros H.
  - rewrite <- (Qmult_div_r (sum (times data)) (inject_Z (len (times data)))) by exact HN.
    rewrite H. ring.
  - rewrite H. unfold Qdiv. ring.
Qed.

Lemma analyze_patterns_few (data : list row) :
  len (times data) < 3 ->
  returns (St := St) (analyze_patterns sqrt fmt_slope data) (fun v => v = PDict []).
Proof.
  intros Hn. unfold analyze_patterns.
  destruct (len data <? 3); [now apply returns_ret |].
  fold (times data). destruct (Z.ltb_spec (len (times data)) 3); [| lia].
  now apply returns_ret.
Qed.

(** With three successful rows or more whose response times sum to zero,
    the division of the standard deviation by the mean raises. *)
Lemma analyze_patterns_raises (data : list row) :
  3 <= len (times data) -> (sum (times data) == 0)%Q ->
  raises (St := St) (analyze_patterns sqrt fmt_slope data)
         (Exn ZeroDivisionError "float division by zero").
Proof.
  intros Hn Hzero. unfold analyze_patterns.
  pose proof (len_times data) as Hle.
  destruct (Z.ltb_spec (len data) 3); [lia |].
  fold (times data) (ids data).
  destruct (Z.ltb_spec (len (times data)) 3); [lia |].
  assert (HN : ~ (inject_Z (len (times data)) == 0)%Q)
    by (apply Trend.inject_Z_nonzero; lia).
  eapply raises_after; [apply (regression_line_returns data Hn) |].
  intros [[slope_value slope] intercept] _.
  eapply raises_after; [apply returns_div, HN |]. intros avg_time ->.
  eapply raises_after; [apply returns_div, HN |]. intros variance _.
  apply raises_first, raises_div. now apply mean_zero.
Qed.

(** The dictionary [analyze_patterns] builds when the mean is not zero. *)
Definition patterns_shape (data : list row) (v : pyval) : Prop :=
  exists slope_value intercept description found within_1 within_2,
    v = PDict [
      ("slope", slope_value);
      ("intercept", PFloat intercept);
      ("trend_description", PStr description);
      ("patterns", PList (map PStr found));
      ("within_1std_pct", PFloat within_1);
      ("within_2std_pct", PFloat within_2)] /\
    (0 <= within_1 <= 100)%Q /\
    (0 <= within_2 <= 100)%Q /\
    (id_spread data = 0 ->
     slope_value = PInt 0 /\ intercept = mean_of (times data)).

Lemma analyze_patterns_returns (data : list row) :
  3 <= len (times data) -> ~ (sum (times data) == 0)%Q ->
  returns (St := St) (analyze_patterns sqrt fmt_slope data) (patterns_shape data).
Proof.
  intros Hn Hsum. unfold analyze_patterns.
  pose proof (len_times data) as Hle.
  destruct (Z.ltb_spec (len data) 3); [lia |].
  fold (times data) (ids data).
  destruct (Z.ltb_spec (len (times data)) 3); [lia |].
  assert (HN : ~ (inject_Z (len (times data)) == 0)%Q)
    by (apply Trend.inject_Z_nonzero; lia).
  eapply returns_bind; [apply (regression_line_returns data Hn) |].
  intros [[slope_value slope] intercept] Hline.
  eapply returns_bind; [apply returns_div, HN |]. intros avg_time Havg.
  eapply returns_bind; [apply returns_div, HN |]. intros variance _.
  assert (Hmean : ~ (avg_time == 0)%Q).
  { rewrite Havg. intros Hm0. apply Hsum. now apply mean_zero. }
  eapply returns_bind; [apply returns_div, Hmean |]. intros spread _.
  eapply returns_bind with (R := fun _ => True).
  { destruct (Qgtb spread (5 # 10)); [now apply returns_ret |].
    eapply returns_bind; [apply returns_div, Hmean |]. intros spread' _.
    destruct (Qltb spread' (1 # 10)); now apply returns_ret. }
  intros found _. apply returns_ret.
  do 6 eexists. split; [reflexivity |].
  split; [apply percent_range; [split; [unfold len; lia | apply len_filter_le] | lia] |].
  split; [apply percent_range; [split; [unfold len; lia | apply len_filter_le] | lia] |].
  intros Hspread. specialize (Hline Hspread). injection Hline as -> _ ->. now split.
Qed.

End Analysis.

(** [analyze_patterns] by the successful rows it is given. With fewer than
    three it returns the empty dictionary. With three or more whose response
    times sum to zero (a mean of 0) it raises [ZeroDivisionError]: the mean
    divides the standard deviation without a guard. Otherwise it returns its
    six entries, both shares between 0 and 100 percent; and when the request
    ids have no spread the slope is the integer 0 and the intercept is the
    mean. *)
Theorem analyze_patterns_by_cases sqrt fmt_slope (data : list row) :
  (len (times data) < 3 ->
   run (analyze_patterns sqrt fmt_slope data) = Ok (PDict [])) /\
  (3 <= len (times data) -> (sum (times data) == 0)%Q ->
   run (analyze_patterns sqrt fmt_slope data) =
   Raise (Exn ZeroDivisionError "float division by zero")) /\
  (3 <= len (times data) -> ~ (sum (times data) == 0)%Q ->
   exists v, run (analyze_patterns sqrt fmt_slope data) = Ok v /\ patterns_shape data v).
Proof.
  split; [| split].
  - intros H.
    destruct (returns_run _ _ (analyze_patterns_few sqrt fmt_slope data H)) as (v & E & ->).
    exact E.
  - intros Hn Hz. apply raises_run. now apply analyze_patterns_raises.
  - intros Hn Hz. apply returns_run. now apply analyze_patterns_returns.
Qed.

(** Three successful rows that took no time at all. *)
Definition instant (id : Z) : row :=
  {| request_id := id; response_time_ms := 0; success := true; error := "" |}.

Definition timed (id : Z) (ms : Q) : row :=
  {| request_id := id; response_time_ms := ms; success := true; error := "" |}.

Lemma analyze_patterns_by_cases_witness :
  run (analyze_patterns sqrt15 (fun _ => "") [instant 0; instant 1; instant 2]) =
    Raise (Exn ZeroDivisionError "float division by zero") /\
  (exists v,
     run (analyze_patterns sqrt15 (fun _ => "") [timed 7 100; timed 7 130; timed 7 160]) = Ok v /\
     patterns_shape [timed 7 100; timed 7 130; timed 7 160] v) /\
  run (analyze_patterns sqrt15 (fun _ => "") [timed 0 100; timed 1 130]) = Ok (PDict []).
Proof.
  split; [| split].
  - apply (proj1 (proj2 (analyze_patterns_by_cases sqrt15 (fun _ => "")
                           [instant 0; instant 1; instant 2]))).
    + cbn. lia.
    + now vm_compute.
  - apply (proj2 (proj2 (analyze_patterns_by_cases sqrt15 (fun _ => "")
                           [timed 7 100; timed 7 130; timed 7 160]))).
    + cbn. lia.
    + now vm_compute.
  - apply (proj1 (analyze_patterns_by_cases sqrt15 (fun _ => "")
                    [timed 0 100; timed 1 130])).
    cbn. lia.
Defined.

(** *** The comprehensive report *)

Lemma filter_idempotent {A} (f : A -> bool) (xs : list A) :
  filter f (filter f xs) = filter f xs.
Proof.
  induction xs as [| x xs IH]; [reflexivity |].
  cbn [filter]. destruct (f x) eqn:E; [| exact IH].
  cbn [filter]. now rewrite E, IH.
Qed.

Lemma times_of_successes (data : list row) : times (filter success data) = times data.
Proof. unfold times. now rewrite filter_idempotent. Qed.

(** The coefficient of variation as a number. *)
Definition cv_number (sqrt : Q -> Q) (xs : list Q) : Q :=
  if Qneb (mean_of xs) 0 then (sqrt (population_variance xs) / mean_of xs)%Q else inject_Z 0.

(** The summary document of a report that was produced. *)
Definition summary_shape (sqrt : Q -> Q) (data : list row) (summary : pyval) : Prop :=
  exists success_rate stats zscore_count iqr_count errors patterns,
    let rating := categorize_performance (cv_number sqrt (times data)) (mean_of (times data)) in
    summary = PDict [
      ("total_requests", PInt (len data));
      ("successful_requests", PInt (len (filter success data)));
      ("failed_requests", PInt (len (filter (fun d => negb (success d)) data)));
      ("success_rate", success_rate);
      ("statistics", stats);
      ("performance_rating", PDict [
         ("consistency", PStr (fst (fst rating)));
         ("speed", PStr (snd rating));
         ("description", PStr (snd (fst rating)))]);
      ("outliers", PDict [
         ("zscore_count", PInt zscore_count);
         ("iqr_count", PInt iqr_count)]);
      ("errors", errors);
      ("patterns", patterns)] /\
    0 <= zscore_count <= len (times data) /\
    0 <= iqr_count <= len (times data).

Section Report.
Context {St : Type}.
Variable sqrt : Q -> Q.
Variable fmt_slope : Q -> string.
Variable render : pyval -> pyval -> string.

Lemma success_rate_returns (data : list row) :
  returns (St := St)
    (if 0 <? len data
     then q <- div (inject_Z (len (filter success data))) (inject_Z (len data)) ;;
          ret (PFloat (q * 100))
     else ret (PInt 0))
    (fun _ => True).
Proof.
  destruct (Z.ltb_spec 0 (len data)); [| now apply returns_ret].
  eapply returns_bind; [apply returns_div, Trend.inject_Z_nonzero; lia |].
  intros q _. now apply returns_ret.
Qed.

Lemma report_raises (data : list row) :
  3 <= len (times data) -> (sum (times data) == 0)%Q ->
  raises (St := St) (generate_comprehensive_report sqrt fmt_slope render data)
         (Exn ZeroDivisionError "float division by zero").
Proof.
  intros Hn Hzero. unfold generate_comprehensive_report.
  eapply raises_after; [apply success_rate_returns |]. intros success_rate _.
  fold (times data) in *.
  destruct (times data) as [| t ts] eqn:T; [cbn in Hn; lia |].
  eapply raises_after; [apply (Statistics.calculate_statistics_shape sqrt t ts) |].
  intros stats _.
  eapply raises_after; [apply (Flagged.zscore_positions sqrt t ts) |]. intros oz _.
  eapply raises_after; [apply (Flagged.iqr_positions sqrt t ts) |]. intros oi _.
  apply raises_first. apply analyze_patterns_raises; rewrite times_of_successes, T; assumption.
Qed.

Lemma report_returns (data : list row) :
  times data <> [] ->
  len (times data) < 3 \/ ~ (sum (times data) == 0)%Q ->
  returns (St := St) (generate_comprehensive_report sqrt fmt_slope render data)
    (fun r => exists text summary,
       r = {| printed := [text]; summary := Some summary |} /\
       summary_shape sqrt data summary).
Proof.
  intros Hne Hcase. unfold generate_comprehensive_report.
  eapply returns_bind; [apply success_rate_returns |]. intros success_rate _.
  fold (times data) in *.
  assert (Hpat : returns (St := St) (analyze_patterns sqrt fmt_slope (filter success data))
                         (fun _ => True)).
  { destruct (Z.ltb_spec (len (times data)) 3) as [Hfew | Hmany].
    - eapply returns_weaken; [apply analyze_patterns_few | auto].
      now rewrite times_of_successes.
    - destruct Hcase as [Hfew | Hsum]; [lia |].
      eapply returns_weaken; [apply analyze_patterns_returns | auto];
        now rewrite times_of_successes. }
  unfold summary_shape, cv_number.
  destruct (times data) as [| t ts] eqn:T; [contradiction |].
  eapply returns_bind; [apply (Statistics.calculate_statistics_shape sqrt t ts) |].
  intros stats (median & av & mv & -> & _).
  eapply returns_bind; [apply (Flagged.zscore_positions sqrt t ts) |].
  intros oz (tz & -> & _ & Hz).
  eapply returns_bind; [apply (Flagged.iqr_positions sqrt t ts) |].
  intros oi (ti & -> & _ & Hi).
  eapply returns_bind; [apply Hpat |]. intros patterns _.
  eapply returns_bind with
    (R := fun cv => cv = if Qneb (mean_of (t :: ts)) 0
                         then (sqrt (population_variance (t :: ts)) / mean_of (t :: ts))%Q
                         else inject_Z 0).
  { unfold bind, dict_item. cbn [dict_get Statistics.statistics_dict assoc String.eqb
                                  Ascii.eqb Bool.eqb].
    unfold cv_from. destruct (Qneb (mean_of (t :: ts)) 0); now apply returns_ret. }
  intros cv ->.
  eapply returns_bind with (R := fun m => m = mean_of (t :: ts));
    [now apply returns_ret |].
  intros mean ->.
  destruct (categorize_performance _ _) as [[consistency desc] speed] eqn:C.
  eapply returns_bind with (R := fun n => n = len tz); [now apply returns_ret |].
  intros zc ->.
  eapply returns_bind with (R := fun n => n = len ti); [now apply returns_ret |].
  intros ic ->.
  apply returns_ret. do 2 eexists. split; [reflexivity |].
  do 6 eexists. split; [reflexivity |].
  unfold len in *. split; lia.
Qed.

End Report.

(** [generate_comprehensive_report] on rows with a successful request. When
    three or more succeeded and their response times sum to zero, the
    report is not produced: [ZeroDivisionError] from [analyze_patterns] comes
    out of it. In every other case it prints one report text and builds
    the summary, in which the rating is [categorize_performance] of the
    coefficient of variation and the mean, and neither outlier count
    exceeds the number of successful rows. *)
Theorem comprehensive_report_by_cases sqrt fmt_slope render (data : list row) :
  (3 <= len (times data) -> (sum (times data) == 0)%Q ->
   run (generate_comprehensive_report sqrt fmt_slope render data) =
   Raise (Exn ZeroDivisionError "float division by zero")) /\
  (times data <> [] ->
   len (times data) < 3 \/ ~ (sum (times data) == 0)%Q ->
   exists text summary,
     run (generate_comprehensive_report sqrt fmt_slope render data) =
     Ok {| printed := [text]; summary := Some summary |} /\
     summary_shape sqrt data summary).
Proof.
  split.
  - intros Hn Hz. apply raises_run. now apply report_raises.
  - intros Hne Hcase.
    destruct (returns_run _ _ (report_returns sqrt fmt_slope render data Hne Hcase))
      as (r & E & text & summary & -> & Hshape).
    exists text, summary. now split.
Qed.

Lemma comprehensive_report_by_cases_witness :
  run (generate_comprehensive_report sqrt15 (fun _ => "") (fun _ _ => "")
         [instant 0; instant 1; instant 2; NoData.failed_row 3]) =
    Raise (Exn ZeroDivisionError "float division by zero") /\
  exists text summary,
    run (generate_comprehensive_report sqrt15 (fun _ => "") (fun _ _ => "")
           [timed 0 100; timed 1 130; NoData.failed_row 2]) =
    Ok {| printed := [text]; summary := Some summary |} /\
    summary_shape sqrt15 [timed 0 100; timed 1 130; NoData.failed_row 2] summary.
Proof.
  split.
  - apply (proj1 (comprehensive_report_by_cases sqrt15 (fun _ => "") (fun _ _ => "")
                    [instant 0; instant 1; instant 2; NoData.failed_row 3])).
    + cbn. lia.
    + now vm_compute.
  - apply (proj2 (comprehensive_report_by_cases sqrt15 (fun _ => "") (fun _ _ => "")
                    [timed 0 100; timed 1 130; NoData.failed_row 2])).
    + discriminate.
    + left. cbn. lia.
Defined.

End Patterns.

(** ** Percentiles at the edges *)

Module PercentileEdges.
Import Py AnalyzeTiming Logic Total Percentile.
Local Open Scope string_scope.
Local Open Scope Z_scope.

Lemma index_empty {St A} (i : Z) (s : St) :
  index (A := A) [] i s = (Raise (Exn IndexError "list index out of range"), s).
Proof.
  unfold index. change (len (@nil A)) with 0.
  destruct (i <? 0) eqn:E.
  - destruct (Z.ltb_spec (0 + i) 0) as [| H]; [reflexivity |].
    apply Z.ltb_lt in E. lia.
  - rewrite E. destruct (Z.leb_spec 0 i) as [| H]; [reflexivity |].
    apply Z.ltb_ge in E. lia.
Qed.

(** [percentile] outside its usual range. On the empty list it raises
    [IndexError] for every [p]. On a list that is not empty every [p] of 100
    or more gives the last element. *)
Theorem percentile_at_the_edges (data : list Q) (p : Q) :
  (data = [] ->
   run (percentile data p) = Raise (Exn IndexError "list index out of range")) /\
  (data <> [] -> (100 <= p)%Q ->
   run (percentile data p) = Ok (nth (List.length data - 1) data 0%Q)).
Proof.
  split.
  - intros ->. unfold run, percentile.
    destruct (_ <=? _); [now rewrite index_empty |].
    unfold bind. now rewrite index_empty.
  - intros Hne Hp. unfold run, percentile.
    assert (Hp0 : (0 <= p)%Q) by lra.
    pose proof (position_nonneg data p Hne Hp0) as Hidx.
    fold (position data p). rewrite (int_floor _ Hidx).
    assert (Hlen : 0 < len data)
      by (destruct data; [contradiction | apply len_positive]).
    assert (Hpos : (inject_Z (len data - 1) <= position data p)%Q).
    { unfold position.
      assert (0 <= inject_Z (len data - 1))%Q
        by (change 0%Q with (inject_Z 0); rewrite <- Zle_Qle; lia).
      apply Qle_shift_div_l; [reflexivity |]. nra. }
    apply Qfloor_resp_le in Hpos. rewrite Qfloor_Z in Hpos.
    destruct (Z.leb_spec (len data) (Qfloor (position data p) + 1)); [| lia].
    destruct (returns_index_last (St := unit) data Hne tt) as (x & -> & Hx).
    cbn. f_equal. symmetry. now apply nth_error_nth.
Qed.

Lemma percentile_at_the_edges_witness :
  run (percentile [100; 120; 150]%Q 250) = Ok (nth (3 - 1) [100; 120; 150]%Q 0%Q).
Proof.
  apply (proj2 (percentile_at_the_edges [100; 120; 150]%Q 250)).
  - discriminate.
  - now vm_compute.
Defined.

End PercentileEdges.

(** ** Timing patterns of a run *)

Module TimingPatterns.
Import Py AdvancedBenchmark Logic Total Dispersion.
Local Open Scope string_scope.
Local Open Scope Z_scope.

Lemma variations_nonneg (xs : list Q) : Forall (fun v => (0 <= v)%Q) (variations_of xs).
Proof.
  induction xs as [| x [| y xs] IH]; cbn [variations_of]; try constructor.
  - apply Qabs_nonneg.
  - exact IH.
Qed.

Lemma variations_exist (xs : list Q) :
  (2 <= List.length xs)%nat -> variations_of xs <> [].
Proof.
  destruct xs as [| x [| y xs]]; cbn [List.length variations_of]; try lia. discriminate.
Qed.

(** The response times of the results in the order of their start times. *)
Definition in_time_order (results : list RequestResult) : list Q :=
  map snd (sorted_by fst (combine (map start_time results) (map response_time results))).

Lemma length_in_time_order (results : list RequestResult) :
  List.length (in_time_order results) = List.length results.
Proof.
  unfold in_time_order.
  rewrite length_map, length_sorted_by, length_combine, !length_map. lia.
Qed.

Definition timing_shape (sqrt : Q -> Q) (results : list RequestResult) (ta : pyval) : Prop :=
  exists max_variation avg_variation consistency outliers trending,
    ta = PDict [
      ("max_variation", PFloat max_variation);
      ("avg_variation", PFloat avg_variation);
      ("timing_consistency", consistency);
      ("outliers", outliers);
      ("trending", PStr trending)] /\
    In max_variation (variations_of (in_time_order results)) /\
    (forall v, In v (variations_of (in_time_order results)) -> (v <= max_variation)%Q) /\
    (0 <= avg_variation <= max_variation)%Q /\
    ((mean_of (map response_time results) <= 0)%Q -> consistency = PInt 0) /\
    ((0 < mean_of (map response_time results))%Q ->
     consistency = consistency_from sqrt (map response_time results)).

Lemma timing_patterns_shape {St} sqrt (results : list RequestResult) :
  2 <= len results ->
  returns (St := St) (analyze_timing_patterns sqrt results) (timing_shape sqrt results).
Proof.
  intros Hn. unfold analyze_timing_patterns.
  destruct (Z.ltb_spec (len results) 2) as [| _]; [lia |].
  assert (Hlen : len (map response_time results) = len results)
    by (unfold len; now rewrite length_map).
  assert (Hne : map response_time results <> [])
    by (intros E; rewrite E in Hlen; cbn in Hlen; lia).
  fold (in_time_order results).
  pose proof (variations_nonneg (in_time_order results)) as Hpos.
  pose proof (variations_exist (in_time_order results)) as Hex.
  rewrite length_in_time_order in Hex. specialize (Hex ltac:(unfold len in Hn; lia)).
  destruct (variations_of (in_time_order results)) as [| v vs] eqn:V; [contradiction |].
  eapply returns_bind with (R := fun x => x = PFloat (max_of v vs));
    [now apply returns_ret |].
  intros max_variation ->.
  eapply returns_bind with (R := fun x => x = PFloat (mean_of (v :: vs))).
  { eapply returns_bind; [apply mean_returns; discriminate |].
    intros m ->. now apply returns_ret. }
  intros avg_variation ->.
  eapply returns_bind; [apply (mean_returns _ Hne) |]. intros m Hm.
  eapply returns_bind with
    (R := fun tc => ((m <= 0)%Q -> tc = PInt 0) /\
                    ((0 < m)%Q -> tc = consistency_from sqrt (map response_time results))).
  { destruct (Qgtb m 0) eqn:G.
    - apply Qgtb_gt in G.
      eapply returns_bind; [apply stdev_returns; lia |]. intros sd ->.
      eapply returns_bind; [apply (mean_returns _ Hne) |]. intros m' ->.
      eapply returns_bind; [apply returns_div |].
      + rewrite <- Hm. intros E. rewrite E in G. now apply Qlt_irrefl in G.
      + intros q ->. apply returns_ret. split; [| reflexivity].
        intros Hle. exfalso. apply (Qlt_irrefl 0). eapply Qlt_le_trans; eauto.
    - apply Qgtb_le in G. apply returns_ret. split; [reflexivity |].
      intros Hlt. exfalso. apply (Qlt_irrefl 0). eapply Qlt_le_trans; eauto. }
  intros timing_consistency [Htc0 Htc1].
  eapply returns_bind; [apply detect_outliers_returns |]. intros outliers _.
  eapply returns_bind; [apply analyze_trend_returns |]. intros trending _.
  apply returns_ret. do 5 eexists. split; [reflexivity |].
  rewrite V. destruct (Statistics.max_of_fold vs v) as (Hm1 & Hm2 & Hm3).
  cbv zeta in Hm1, Hm2, Hm3. fold (max_of v vs) in Hm1, Hm2, Hm3.
  split; [exact Hm3 |]. split; [intros x [<- | Hx]; auto |].
  rewrite <- Hm. split; [| split; assumption].
  destruct (Statistics.mean_between v vs) as [Hlo Hhi]. split; [| exact Hhi].
  destruct (Statistics.min_of_fold vs v) as (_ & _ & Hin). cbv zeta in Hin.
  rewrite Forall_forall in Hpos. specialize (Hpos _ Hin).
  unfold min_of in Hlo. lra.
Qed.

(** [analyze_timing_patterns] raises nothing. For fewer than two results it
    returns the empty dictionary. From two results on it returns its five
    entries; the variations are taken between requests that are neighbours
    in start time, the average variation is not negative and at most the
    maximum; and [timing_consistency] is the integer 0 when the mean response
    time is not positive, and [1 - stdev / mean] otherwise. *)
Theorem timing_patterns_summary sqrt (results : list RequestResult) :
  (len results < 2 -> run (analyze_timing_patterns sqrt results) = Ok (PDict [])) /\
  (2 <= len results ->
   exists ta, run (analyze_timing_patterns sqrt results) = Ok ta /\
              timing_shape sqrt results ta).
Proof.
  split.
  - intros H. unfold run, analyze_timing_patterns.
    destruct (Z.ltb_spec (len results) 2); [reflexivity | lia].
  - intros H. apply returns_run. now apply timing_patterns_shape.
Qed.

Lemma timing_patterns_summary_witness :
  exists ta,
    run (analyze_timing_patterns sqrt15 [succeeded 0 100; succeeded 1 140; succeeded 2 120])
    = Ok ta /\
    timing_shape sqrt15 [succeeded 0 100; succeeded 1 140; succeeded 2 120] ta.
Proof.
  apply (proj2 (timing_patterns_summary sqrt15
                  [succeeded 0 100; succeeded 1 140; succeeded 2 120])).
  cbn. lia.
Defined.

End TimingPatterns.

(** ** The response-time block of the run summary *)

Module ResponseTimes.
Import Py AdvancedBenchmark Logic Total Dispersion RunSummary.
Local Open Scope string_scope.
Local Open Scope Z_scope.

(** A computation that leaves the state alone returns what [run] gives. *)
Lemma returns_its_run {A} (c : M unit A) (Q : A -> Prop) :
  returns c Q -> returns c (fun a => run c = Ok a /\ Q a).
Proof.
  intros H s. destruct (H s) as (a & E & Ha). exists a.
  split; [exact E |]. split; [| exact Ha].
  unfold run. destruct s. now rewrite E.
Qed.

Lemma median_between {St} (t : Q) (ts : list Q) :
  returns (St := St) (median (t :: ts))
          (fun m => (min_of t ts <= m <= max_of t ts)%Q).
Proof.
  unfold median. pose proof (len_positive t ts) as Hn.
  destruct (Z.eqb_spec (len (t :: ts) mod 2) 1) as [Hodd | Heven].
  - apply Statistics.sorted_index_between.
    split; [apply Z.div_pos; lia | apply Z.div_lt_upper_bound; lia].
  - assert (Hn2 : 2 <= len (t :: ts)).
    { destruct (Z.eq_dec (len (t :: ts)) 1) as [E | E];
        [rewrite E in Heven; now cbn in Heven | lia]. }
    assert (Hhalf : 1 <= len (t :: ts) / 2 < len (t :: ts)).
    { split; [apply Z.div_le_lower_bound; lia | apply Z.div_lt_upper_bound; lia]. }
    eapply returns_bind; [apply Statistics.sorted_index_between; lia |]. intros a Ha.
    eapply returns_bind; [apply Statistics.sorted_index_between; lia |]. intros b Hb.
    apply returns_ret. cbv beta in Ha, Hb. unfold Qdiv. change (/ 2)%Q with (1 # 2)%Q.
    split; lra.
Qed.

Lemma np_percentile_piecewise {St} (t : Q) (ts : list Q) (q : Q) :
  (0 <= q)%Q -> (q <= 100)%Q ->
  returns (St := St) (np_percentile (t :: ts) q)
          (fun v => (v == Percentile.piecewise (sorted (t :: ts)) q)%Q).
Proof.
  intros Hq0 Hq1. unfold np_percentile.
  assert (Hne : t :: ts <> []) by discriminate.
  pose proof (len_positive t ts) as Hn.
  pose proof (len_sorted (t :: ts)) as Hs.
  fold (Percentile.position (t :: ts) q).
  pose proof (Percentile.position_nonneg (t :: ts) q Hne Hq0) as Hlo.
  pose proof (Percentile.position_upper (t :: ts) q Hne Hq1) as Hhi.
  apply Percentile.floor_nonneg in Hlo. apply Percentile.floor_upper in Hhi.
  assert (Hpos : Percentile.position (sorted (t :: ts)) q = Percentile.position (t :: ts) q)
    by (unfold Percentile.position; now rewrite Hs).
  unfold Percentile.piecewise. rewrite Hpos, Hs.
  set (x := Percentile.position (t :: ts) q) in *.
  set (previous := Qfloor x) in *.
  eapply returns_bind; [apply returns_index; rewrite Hs; lia |]. intros a Ha.
  eapply returns_bind; [apply returns_index; rewrite Hs; lia |]. intros b Hb.
  apply returns_ret.
  apply (nth_error_nth _ _ 0%Q) in Ha. apply (nth_error_nth _ _ 0%Q) in Hb.
  unfold Percentile.order_stat.
  destruct (Z.leb_spec (len (t :: ts)) (previous + 1)) as [Hup | Hup].
  - rewrite Z.min_r in Hb by lia.
    replace previous with (len (t :: ts) - 1) in Ha by lia.
    rewrite Ha in Hb. subst b. rewrite Ha. ring.
  - rewrite Z.min_l in Hb by lia. rewrite Ha, Hb. ring.
Qed.

(** What the summary says about the response times of the successful
    requests. *)
Definition times_shape (sqrt : Q -> Q) (times : list Q) (rt : pyval) : Prop :=
  exists lo hi mean median p95 p99 std_dev,
    rt = PDict [("min", PFloat lo); ("max", PFloat hi); ("mean", PFloat mean);
                ("median", PFloat median); ("p95", PFloat p95); ("p99", PFloat p99);
                ("std_dev", std_dev)] /\
    In lo times /\ In hi times /\
    (forall t, In t times -> (lo <= t <= hi)%Q) /\
    mean = mean_of times /\
    (lo <= mean <= hi)%Q /\
    (lo <= median <= hi)%Q /\
    (lo <= p95)%Q /\ (p95 <= p99)%Q /\ (p99 <= hi)%Q /\
    (len times = 1 -> std_dev = PInt 0) /\
    (1 < len times -> std_dev = PFloat (sqrt (sample_variance times))).

Lemma np_percentile_between {St} (t : Q) (ts : list Q) (q : Q) :
  (0 <= q)%Q -> (q <= 100)%Q ->
  returns (St := St) (np_percentile (t :: ts) q)
          (fun v => (v == Percentile.piecewise (sorted (t :: ts)) q)%Q /\
                    (min_of t ts <= v <= max_of t ts)%Q).
Proof.
  intros Hq0 Hq1.
  eapply returns_weaken; [apply (np_percentile_piecewise t ts q Hq0 Hq1) |].
  intros v Hv. split; [exact Hv |].
  destruct (Statistics.piecewise_between (sorted (t :: ts)) q) as (a & b & Ha & Hb & Hab);
    [apply Percentile.sorted_nonempty_list | apply Percentile.sorted_is_sorted
    | exact Hq0 | exact Hq1 |].
  apply Statistics.in_sorted, Statistics.min_max_bound in Ha.
  apply Statistics.in_sorted, Statistics.min_max_bound in Hb.
  rewrite Hv. split; lra.
Qed.

Lemma analyze_results_times sqrt (results : list RequestResult) :
  successes results <> [] ->
  returns (St := unit) (analyze_results sqrt results)
    (fun stats => exists rt ta,
       dict_get "response_times" stats = Some rt /\
       times_shape sqrt (map response_time (successes results)) rt /\
       dict_get "timing_analysis" stats = Some ta /\
       run (analyze_timing_patterns sqrt (successes results)) = Ok ta).
Proof.
  intros Hs. unfold analyze_results, successes in *.
  destruct results as [| r results]; [contradiction |].
  set (successful := filter success (r :: results)) in *.
  assert (Hne : map response_time successful <> [])
    by (destruct successful; [contradiction | discriminate]).
  destruct (map response_time successful) as [| t ts] eqn:D; [contradiction |].
  eapply returns_bind; [apply (mean_returns _ Hne) |]. intros mean Hmean.
  eapply returns_bind; [apply (median_between t ts) |]. intros median Hmedian.
  eapply returns_bind; [apply (np_percentile_between t ts 95%Q); now vm_compute |].
  intros p95 [E95 H95].
  eapply returns_bind; [apply (np_percentile_between t ts 99%Q); now vm_compute |].
  intros p99 [E99 H99].
  eapply returns_bind with
    (R := fun sd => (len (t :: ts) = 1 -> sd = PInt 0) /\
                    (1 < len (t :: ts) -> sd = PFloat (sqrt (sample_variance (t :: ts))))).
  { destruct (Z.ltb_spec 1 (len (t :: ts))) as [Hn | Hn].
    - eapply returns_bind; [apply stdev_returns; lia |].
      intros sd Hsd. apply returns_ret. split; [lia |]. intros _. now rewrite Hsd.
    - apply returns_ret. split; [reflexivity | lia]. }
  intros std_dev [Hone Hmany].
  eapply returns_bind;
    [apply returns_its_run, (analyze_timing_patterns_returns sqrt successful) |].
  intros timing_analysis [Hta _].
  apply returns_ret. do 2 eexists. split; [reflexivity |]. split; [| split; [reflexivity | exact Hta]].
  destruct (Statistics.min_of_fold ts t) as (A1 & A2 & A3).
  destruct (Statistics.max_of_fold ts t) as (B1 & B2 & B3).
  cbv zeta in A1, A2, A3, B1, B2, B3.
  fold (min_of t ts) in A1, A2, A3. fold (max_of t ts) in B1, B2, B3.
  do 7 eexists. split; [reflexivity |].
  split; [exact A3 |]. split; [exact B3 |].
  split; [apply Statistics.min_max_bound |].
  split; [exact Hmean |].
  split; [rewrite Hmean; apply Statistics.mean_between |].
  split; [exact Hmedian |].
  split; [apply H95 |]. split; [| split; [apply H99 | split; assumption]].
  rewrite E95, E99.
  apply Percentile.piecewise_monotone;
    [apply Percentile.sorted_is_sorted | apply Percentile.sorted_nonempty_list | | |];
    now vm_compute.
Qed.

(** With at least one successful request the summary of [analyze_results]
    describes the response times of the successful requests in order:
    [min] and [max] are the least and the largest of them, the mean, the
    median and both percentiles lie between the two with [p95 <= p99],
    [std_dev] is the integer 0 for a single success and the sample standard
    deviation otherwise, and [timing_analysis] is what
    [analyze_timing_patterns] returns on the successful requests alone. *)
Theorem response_times_are_ordered sqrt (results : list RequestResult) :
  successes results <> [] ->
  exists stats rt ta,
    run (analyze_results sqrt results) = Ok stats /\
    dict_get "response_times" stats = Some rt /\
    times_shape sqrt (map response_time (successes results)) rt /\
    dict_get "timing_analysis" stats = Some ta /\
    run (analyze_timing_patterns sqrt (successes results)) = Ok ta.
Proof.
  intros Hs.
  destruct (returns_run _ _ (analyze_results_times sqrt results Hs))
    as (stats & E & rt & ta & H).
  exists stats, rt, ta. split; [exact E | exact H].
Qed.

Lemma response_times_are_ordered_witness :
  exists stats rt ta,
    run (analyze_results sqrt15 [succeeded 0 100; NoData.timed_out 1; succeeded 2 140])
    = Ok stats /\
    dict_get "response_times" stats = Some rt /\
    times_shape sqrt15 [100%Q; 140%Q] rt /\
    dict_get "timing_analysis" stats = Some ta /\
    run (analyze_timing_patterns sqrt15 [succeeded 0 100; succeeded 2 140]) = Ok ta.
Proof.
  apply (response_times_are_ordered sqrt15
           [succeeded 0 100; NoData.timed_out 1; succeeded 2 140]).
  discriminate.
Defined.

End ResponseTimes.
